(** * AtlasP2P crawler: wire codec, configuration loader and GeoIP cache

    A shallow embedding of
      - [apps/crawler/src/protocol.py]  (message framing, version and addr payloads),
      - [apps/crawler/src/config.py]    (the crawler part of [load_config]),
      - [apps/crawler/src/geoip.py]     ([GeoIPLookup.lookup] and its cache),
    together with the properties of the crawler specification that concern them,
    and then of the rest of these files and of
      - [apps/crawler/src/geoip_download.py]  ([ensure_database],
        [download_all_databases]),
    with further properties read off the code.

    Conventions.  Python [bytes] are [list byte]; Python [int] is [Z]; a Python
    [str] is the list of its Unicode code points; a raised exception is the
    [Raise] branch of [result].  The clock and the random nonce read by
    [create_version_message] are explicit arguments. *)

From Stdlib Require Import String Ascii ZArith List Lia Bool.
From Stdlib Require Strings.Byte.
From coqutil Require Import Byte.
From coqutil Require Import Word.LittleEndianList.
From stdpp Require gmap strings.
Import ListNotations.
Local Open Scope Z_scope.

(* ===================================================================== *)
(** * Python values, exceptions and byte strings *)
(* ===================================================================== *)

Module Py.

(** The exceptions the modelled code can raise.  [ValueError] carries the
    constant part of its message. *)
Inductive exn : Type :=
| ValueError (msg : string)
| StructError
| IndexError
| UnicodeEncodeError
| UnicodeDecodeError
| OSError.

Inductive result (A : Type) : Type :=
| Ok (a : A)
| Raise (e : exn).
Arguments Ok {A} a.
Arguments Raise {A} e.

Definition bind {A B} (m : result A) (k : A -> result B) : result B :=
  match m with
  | Ok a => k a
  | Raise e => Raise e
  end.

Definition is_ok {A} (m : result A) : bool :=
  match m with Ok _ => true | Raise _ => false end.

(** A [str] is a sequence of code points. *)
Definition str := list Z.

(** A literal whose characters are all below U+0100. *)
Definition lit (s : string) : str :=
  map byte.unsigned (list_byte_of_string s).

Definition bytes := list byte.

Definition len {A} (l : list A) : Z := Z.of_nat (length l).

(** [data[lo:hi]] for indices that are not negative (the only ones the
    modelled code computes); like Python, the slice is clamped to the data. *)
Definition slice {A} (data : list A) (lo hi : Z) : list A :=
  firstn (Z.to_nat (hi - lo)) (skipn (Z.to_nat lo) data).

(** [data[lo:]] *)
Definition slice_from {A} (data : list A) (lo : Z) : list A :=
  skipn (Z.to_nat lo) data.

(** [data[i]] on bytes: the integer value of the byte, or [IndexError]. *)
Definition index (data : bytes) (i : Z) : result Z :=
  match nth_error data (Z.to_nat i) with
  | Some b => Ok (byte.unsigned b)
  | None => Raise IndexError
  end.

Definition zeros (n : nat) : bytes := repeat Byte.x00 n.

(** [b.ljust(width, b"\x00")] *)
Definition ljust0 (b : bytes) (width : nat) : bytes :=
  b ++ zeros (width - length b).

(** [b.rstrip(b"\x00")] *)
Fixpoint rstrip0 (b : bytes) : bytes :=
  match b with
  | [] => []
  | x :: tl =>
      match rstrip0 tl with
      | [] => if Byte.eqb x Byte.x00 then [] else [x]
      | tl' => x :: tl'
      end
  end.

(** [s.encode("ascii")] *)
Fixpoint encode_ascii (s : str) : result bytes :=
  match s with
  | [] => Ok []
  | c :: tl =>
      if (0 <=? c) && (c <? 128)
      then bind (encode_ascii tl) (fun r => Ok (byte.of_Z c :: r))
      else Raise UnicodeEncodeError
  end.

(** [b.decode("ascii")] *)
Fixpoint decode_ascii (b : bytes) : result str :=
  match b with
  | [] => Ok []
  | x :: tl =>
      if byte.unsigned x <? 128
      then bind (decode_ascii tl) (fun r => Ok (byte.unsigned x :: r))
      else Raise UnicodeDecodeError
  end.

End Py.

Export Py.

Declare Scope py_scope.
Delimit Scope py_scope with py.
Notation "x <- m ;; k" := (Py.bind m (fun x => k))
  (at level 62, m at next level, right associativity) : py_scope.
Local Open Scope py_scope.

(* ===================================================================== *)
(** * The [struct] module: the formats the codec uses *)
(* ===================================================================== *)

Module Struct.

(** [struct.pack("<B" | "<H" | "<I" | "<Q", v)]: [n] bytes, little endian;
    [struct.error] when [v] does not fit. *)
Definition pack_le (n : nat) (v : Z) : result bytes :=
  if (0 <=? v) && (v <? 2 ^ (8 * Z.of_nat n))
  then Ok (le_split n v)
  else Raise StructError.

(** [struct.unpack("<B" | "<H" | "<I" | "<Q", b)[0]]; [struct.error] unless
    [b] has exactly [n] bytes. *)
Definition unpack_le (n : nat) (b : bytes) : result Z :=
  if Nat.eqb (length b) n then Ok (le_combine b) else Raise StructError.

(** [struct.pack("<q", v)]: two's complement on 8 bytes. *)
Definition pack_q (v : Z) : result bytes :=
  if (- 2 ^ 63 <=? v) && (v <? 2 ^ 63)
  then Ok (le_split 8 (v mod 2 ^ 64))
  else Raise StructError.

(** The signed reading of an unsigned 64-bit value. *)
Definition signed64 (u : Z) : Z := if u <? 2 ^ 63 then u else u - 2 ^ 64.

(** [struct.unpack("<q", b)[0]] *)
Definition unpack_q (b : bytes) : result Z :=
  if Nat.eqb (length b) 8 then Ok (signed64 (le_combine b)) else Raise StructError.

(** [struct.pack(">H", v)] *)
Definition pack_be16 (v : Z) : result bytes :=
  if (0 <=? v) && (v <? 2 ^ 16)
  then Ok (rev (le_split 2 v))
  else Raise StructError.

(** [struct.unpack(">H", b)[0]] *)
Definition unpack_be16 (b : bytes) : result Z :=
  if Nat.eqb (length b) 2 then Ok (le_combine (rev b)) else Raise StructError.

(** [struct.pack("<?", v)] *)
Definition pack_bool (v : bool) : bytes :=
  [if v then Byte.x01 else Byte.x00].

End Struct.

(* ===================================================================== *)
(** * [hashlib.sha256] (FIPS 180-4) *)
(* ===================================================================== *)

Module SHA256.

Definition mask32 : Z := 0xFFFFFFFF.
Definition add32 (a b : Z) : Z := Z.land (a + b) mask32.
Definition rotr (n x : Z) : Z :=
  Z.land (Z.lor (Z.shiftr x n) (Z.shiftl x (32 - n))) mask32.
Definition not32 (x : Z) : Z := Z.lxor x mask32.

Definition Ch (x y z : Z) : Z := Z.lxor (Z.land x y) (Z.land (not32 x) z).
Definition Maj (x y z : Z) : Z :=
  Z.lxor (Z.lxor (Z.land x y) (Z.land x z)) (Z.land y z).
Definition Sigma0 (x : Z) : Z := Z.lxor (Z.lxor (rotr 2 x) (rotr 13 x)) (rotr 22 x).
Definition Sigma1 (x : Z) : Z := Z.lxor (Z.lxor (rotr 6 x) (rotr 11 x)) (rotr 25 x).
Definition sigma0 (x : Z) : Z := Z.lxor (Z.lxor (rotr 7 x) (rotr 18 x)) (Z.shiftr x 3).
Definition sigma1 (x : Z) : Z := Z.lxor (Z.lxor (rotr 17 x) (rotr 19 x)) (Z.shiftr x 10).

(** The first primes, by trial division. *)
Definition is_prime (n : nat) : bool :=
  forallb (fun d => negb (Nat.eqb (n mod d) 0)) (seq 2 (n - 2)).

Definition primes (count : nat) : list Z :=
  map Z.of_nat (firstn count (filter is_prime (seq 2 310))).

(** The integer cube root of a number below 2^108, bit by bit. *)
Definition icbrt (n : Z) : Z :=
  fold_left
    (fun r bit => let r' := r + 2 ^ Z.of_nat bit in
                  if r' * r' * r' <=? n then r' else r)
    (rev (seq 0 36)) 0.

(** The round constants: the first 32 bits of the fractional parts of the
    cube roots of the first 64 primes. *)
Definition K : list Z :=
  Eval vm_compute in map (fun p => Z.land (icbrt (p * 2 ^ 96)) mask32) (primes 64).

(** Big-endian words. *)
Definition be_combine (b : bytes) : Z := le_combine (rev b).
Definition be_split (n : nat) (v : Z) : bytes := rev (le_split n v).

(** Padding: a one bit, zero bits up to 56 modulo 64 bytes, then the
    message length in bits on 8 bytes. *)
Definition pad (msg : bytes) : bytes :=
  let l := length msg in
  let k := ((119 - l mod 64) mod 64)%nat in
  msg ++ [Byte.x80] ++ zeros k ++ be_split 8 (8 * Z.of_nat l).

Definition block_words (blk : bytes) : list Z :=
  map (fun i => be_combine (firstn 4 (skipn (4 * i) blk))) (seq 0 16).

Definition schedule (blk : bytes) : list Z :=
  fold_left
    (fun w t =>
       let at_ i := nth (t - i) w 0 in
       w ++ [add32 (add32 (sigma1 (at_ 2%nat)) (at_ 7%nat))
                   (add32 (sigma0 (at_ 15%nat)) (at_ 16%nat))])
    (seq 16 48) (block_words blk).

Record regs := Regs { ra : Z; rb : Z; rc : Z; rd : Z; re : Z; rf : Z; rg : Z; rh : Z }.

Definition round (s : regs) (kw : Z * Z) : regs :=
  let (k, w) := kw in
  let t1 := add32 (add32 (add32 (rh s) (Sigma1 (re s))) (add32 (Ch (re s) (rf s) (rg s)) k)) w in
  let t2 := add32 (Sigma0 (ra s)) (Maj (ra s) (rb s) (rc s)) in
  Regs (add32 t1 t2) (ra s) (rb s) (rc s) (add32 (rd s) t1) (re s) (rf s) (rg s).

Definition compress (h : regs) (blk : bytes) : regs :=
  let s := fold_left round (combine K (schedule blk)) h in
  Regs (add32 (ra h) (ra s)) (add32 (rb h) (rb s)) (add32 (rc h) (rc s)) (add32 (rd h) (rd s))
       (add32 (re h) (re s)) (add32 (rf h) (rf s)) (add32 (rg h) (rg s)) (add32 (rh h) (rh s)).

(** The initial hash value: the first 32 bits of the fractional parts of
    the square roots of the first 8 primes. *)
Definition init_words : list Z :=
  Eval vm_compute in map (fun p => Z.land (Z.sqrt (p * 2 ^ 64)) mask32) (primes 8).

Definition init : regs :=
  let w i := nth i init_words 0 in
  Regs (w 0%nat) (w 1%nat) (w 2%nat) (w 3%nat) (w 4%nat) (w 5%nat) (w 6%nat) (w 7%nat).

(** [hashlib.sha256(data).digest()] *)
Definition sha256 (msg : bytes) : bytes :=
  let p := pad msg in
  let h := fold_left
             (fun h i => compress h (firstn 64 (skipn (64 * i) p)))
             (seq 0 (length p / 64)) init in
  flat_map (be_split 4) [ra h; rb h; rc h; rd h; re h; rf h; rg h; rh h].

End SHA256.

(* ===================================================================== *)
(** * protocol.py: message framing *)
(* ===================================================================== *)

Fixpoint bytes_eqb (a b : bytes) : bool :=
  match a, b with
  | [], [] => true
  | x :: a', y :: b' => Byte.eqb x y && bytes_eqb a' b'
  | _, _ => false
  end.

(** [double_sha256] *)
Definition double_sha256 (data : bytes) : bytes :=
  SHA256.sha256 (SHA256.sha256 data).

(** [create_message(magic, command, payload)] *)
Definition create_message (magic : bytes) (command : str) (payload : bytes)
  : result bytes :=
  c <- encode_ascii command ;;
  let command_bytes := ljust0 c 12 in
  length <- Struct.pack_le 4 (len payload) ;;
  let checksum := slice (double_sha256 payload) 0 4 in
  Ok (magic ++ command_bytes ++ length ++ checksum ++ payload).

(** [parse_message(data, magic)], returning [(command, payload, remaining_data)]. *)
Definition parse_message (data magic : bytes) : result (str * bytes * bytes) :=
  if len data <? 24 then Raise (ValueError "Message too short") else
  if negb (bytes_eqb (slice data 0 4) magic)
  then Raise (ValueError "Invalid magic bytes") else
  command <- decode_ascii (rstrip0 (slice data 4 16)) ;;
  length <- Struct.unpack_le 4 (slice data 16 20) ;;
  let checksum := slice data 20 24 in
  if len data <? 24 + length then Raise (ValueError "Incomplete message") else
  let payload := slice data 24 (24 + length) in
  if negb (bytes_eqb (slice (double_sha256 payload) 0 4) checksum)
  then Raise (ValueError "Invalid checksum") else
  Ok (command, payload, slice_from data (24 + length)).

(* ===================================================================== *)
(** * Text: decimal and hexadecimal numerals, [int()], UTF-8 *)
(* ===================================================================== *)

Module Text.

Definition is_digit (c : Z) : bool := (48 <=? c) && (c <=? 57).

(** The characters [int()] skips around a literal (C [isspace]). *)
Definition is_space (c : Z) : bool := ((9 <=? c) && (c <=? 13)) || (c =? 32).

(** ['0'..'9'], ['a'..'z'] *)
Definition digit_char (d : Z) : Z := if d <? 10 then 48 + d else 87 + d.

Fixpoint numeral_fuel (fuel : nat) (base n : Z) (acc : str) : str :=
  match fuel with
  | O => acc
  | S f =>
      let acc' := digit_char (n mod base) :: acc in
      if n <? base then acc' else numeral_fuel f base (n / base) acc'
  end.

(** The numeral of [n >= 0] in base 10 or 16, without leading zeros. *)
Definition numeral (base n : Z) : str :=
  numeral_fuel (S (Z.to_nat (Z.log2 n))) base n [].

(** ["%d" % n] for [n >= 0] *)
Definition digits_of (n : Z) : str := numeral 10 n.

(** ["%x" % n] for [n >= 0] *)
Definition hex_of (n : Z) : str := numeral 16 n.

(** [str(z)] for an [int] *)
Definition str_of_int (z : Z) : str :=
  if z <? 0 then 45 :: digits_of (- z) else digits_of z.

Fixpoint lstrip (s : str) : str :=
  match s with
  | c :: tl => if is_space c then lstrip tl else s
  | [] => []
  end.

(** The digits of an [int()] literal: decimal digits, single underscores
    between them, then only spaces.  [prev] is the character before, 0 at
    the start. *)
Fixpoint scan_digits (s : str) (acc prev : Z) : option Z :=
  match s with
  | [] => if is_digit prev then Some acc else None
  | c :: tl =>
      if is_digit c then scan_digits tl (acc * 10 + (c - 48)) c
      else if c =? 95 then
        if is_digit prev then scan_digits tl acc c else None
      else if is_space c then
        if is_digit prev && forallb is_space tl then Some acc else None
      else None
  end.

(** An optional sign in front of the digits. *)
Definition split_sign (s : str) : Z * str :=
  match s with
  | c :: t => if c =? 43 then (1, t) else if c =? 45 then (-1, t) else (1, s)
  | [] => (1, [])
  end.

(** [int(s)] for a [str] in base 10.  Code points above U+007F, some of
    which Unicode classes as spaces or decimal digits, are rejected here;
    the interpreter's limit on the number of digits is taken to be off. *)
Definition int_of_str (s : str) : result Z :=
  let '(sign, s2) := split_sign (lstrip s) in
  match scan_digits s2 0 0 with
  | Some v => Ok (sign * v)
  | None => Raise (ValueError "invalid literal for int() with base 10")
  end.

(** [s.encode("utf-8")] *)
Definition encode_utf8_char (c : Z) : result bytes :=
  if c <? 0 then Raise UnicodeEncodeError
  else if c <? 0x80 then Ok [byte.of_Z c]
  else if c <? 0x800 then
    Ok [byte.of_Z (0xC0 + c / 64); byte.of_Z (0x80 + c mod 64)]
  else if (0xD800 <=? c) && (c <? 0xE000) then Raise UnicodeEncodeError
  else if c <? 0x10000 then
    Ok [byte.of_Z (0xE0 + c / 4096); byte.of_Z (0x80 + (c / 64) mod 64);
        byte.of_Z (0x80 + c mod 64)]
  else if c <? 0x110000 then
    Ok [byte.of_Z (0xF0 + c / 262144); byte.of_Z (0x80 + (c / 4096) mod 64);
        byte.of_Z (0x80 + (c / 64) mod 64); byte.of_Z (0x80 + c mod 64)]
  else Raise UnicodeEncodeError.

Fixpoint encode_utf8 (s : str) : result bytes :=
  match s with
  | [] => Ok []
  | c :: tl =>
      b <- encode_utf8_char c ;;
      r <- encode_utf8 tl ;;
      Ok (b ++ r)
  end.

Definition REPLACEMENT : Z := 0xFFFD.

Definition is_cont (c : Z) : bool := (0x80 <=? c) && (c <? 0xC0).

(** Whether [c2] cannot follow the lead byte [c] of a three-byte
    sequence (overlong forms and surrogates). *)
Definition bad_second3 (c c2 : Z) : bool :=
  negb (is_cont c2)
  || (if c2 <? 0xA0 then c =? 0xE0 else c =? 0xED).

(** The same for a four-byte sequence (overlong forms and code points
    above U+10FFFF). *)
Definition bad_second4 (c c2 : Z) : bool :=
  negb (is_cont c2)
  || (if c2 <? 0x90 then c =? 0xF0 else c =? 0xF4).

(** [b.decode("utf-8", errors="replace")]: an invalid start byte, and
    the longest valid beginning of a sequence that is cut short or
    continued by a wrong byte, each become one U+FFFD. *)
Fixpoint decode_utf8_replace (b : bytes) : str :=
  match b with
  | [] => []
  | x :: tl =>
      let c := byte.unsigned x in
      if c <? 0x80 then c :: decode_utf8_replace tl
      else if c <? 0xC2 then REPLACEMENT :: decode_utf8_replace tl
      else if c <? 0xE0 then
        match tl with
        | [] => [REPLACEMENT]
        | x2 :: tl2 =>
            let c2 := byte.unsigned x2 in
            if is_cont c2
            then ((c - 0xC0) * 64 + (c2 - 0x80)) :: decode_utf8_replace tl2
            else REPLACEMENT :: decode_utf8_replace tl
        end
      else if c <? 0xF0 then
        match tl with
        | [] => [REPLACEMENT]
        | x2 :: tl2 =>
            let c2 := byte.unsigned x2 in
            if bad_second3 c c2 then REPLACEMENT :: decode_utf8_replace tl
            else
              match tl2 with
              | [] => [REPLACEMENT]
              | x3 :: tl3 =>
                  let c3 := byte.unsigned x3 in
                  if is_cont c3
                  then ((c - 0xE0) * 4096 + (c2 - 0x80) * 64 + (c3 - 0x80))
                         :: decode_utf8_replace tl3
                  else REPLACEMENT :: decode_utf8_replace tl2
              end
        end
      else if c <? 0xF5 then
        match tl with
        | [] => [REPLACEMENT]
        | x2 :: tl2 =>
            let c2 := byte.unsigned x2 in
            if bad_second4 c c2 then REPLACEMENT :: decode_utf8_replace tl
            else
              match tl2 with
              | [] => [REPLACEMENT]
              | x3 :: tl3 =>
                  let c3 := byte.unsigned x3 in
                  if negb (is_cont c3) then REPLACEMENT :: decode_utf8_replace tl2
                  else
                    match tl3 with
                    | [] => [REPLACEMENT]
                    | x4 :: tl4 =>
                        let c4 := byte.unsigned x4 in
                        if is_cont c4
                        then ((c - 0xF0) * 262144 + (c2 - 0x80) * 4096
                              + (c3 - 0x80) * 64 + (c4 - 0x80))
                               :: decode_utf8_replace tl4
                        else REPLACEMENT :: decode_utf8_replace tl3
                    end
              end
        end
      else REPLACEMENT :: decode_utf8_replace tl
  end.

End Text.

(* ===================================================================== *)
(** * The [socket] address conversions (as the C library does them) *)
(* ===================================================================== *)

Module Socket.
Import Text.

Definition DOT : Z := 46.
Definition COLON : Z := 58.

(** The scanner of dotted quads: [done] are the finished octets, [cur] the
    octet being read, [saw_digit] whether it has a digit yet.  No leading
    zeros, no octet above 255, exactly four octets. *)
Fixpoint pton4_loop (src : str) (done : list Z) (cur : Z) (saw_digit : bool)
  : option (list Z) :=
  match src with
  | [] =>
      if saw_digit && Nat.eqb (length done) 3 then Some (done ++ [cur]) else None
  | ch :: tl =>
      if is_digit ch then
        let new := cur * 10 + (ch - 48) in
        if saw_digit && (cur =? 0) then None
        else if 255 <? new then None
        else if negb saw_digit && Nat.leb 4 (length done) then None
        else pton4_loop tl done new true
      else if (ch =? DOT) && saw_digit then
        if Nat.eqb (length done) 3 then None
        else pton4_loop tl (done ++ [cur]) 0 false
      else None
  end.

Definition pton4 (s : str) : option bytes :=
  option_map (map byte.of_Z) (pton4_loop s [] 0 false).

Definition has_nul (s : str) : bool := existsb (Z.eqb 0) s.

(** [socket.inet_pton(socket.AF_INET, s)] *)
Definition inet_pton4 (s : str) : result bytes :=
  if has_nul s then Raise (ValueError "embedded null character")
  else match pton4 s with
       | Some b => Ok b
       | None => Raise OSError
       end.

(** ["%d.%d.%d.%d"] *)
Definition dotted (a b c d : Z) : str :=
  digits_of a ++ [DOT] ++ digits_of b ++ [DOT] ++ digits_of c ++ [DOT] ++ digits_of d.

(** [socket.inet_ntoa(b)] *)
Definition inet_ntoa (b : bytes) : result str :=
  match b with
  | [b0; b1; b2; b3] =>
      Ok (dotted (byte.unsigned b0) (byte.unsigned b1) (byte.unsigned b2)
                 (byte.unsigned b3))
  | _ => Raise OSError
  end.

(** The text of a 4-byte address (empty for another length). *)
Definition ntoa (b : bytes) : str :=
  match inet_ntoa b with
  | Ok s => s
  | Raise _ => []
  end.

Definition hex_digit_value (c : Z) : option Z :=
  if is_digit c then Some (c - 48)
  else if (97 <=? c) && (c <=? 102) then Some (c - 87)
  else if (65 <=? c) && (c <=? 70) then Some (c - 55)
  else None.

(** The end of the IPv6 scanner: store a pending group, then expand the
    [::] found at [colonp] to the zero bytes that are missing. *)
Definition pton6_finish (tp : bytes) (colonp : option nat) (seen : nat) (val : Z)
  : option bytes :=
  let tp1 :=
    if Nat.ltb 0 seen
    then if Nat.ltb 16 (length tp + 2) then None
         else Some (tp ++ [byte.of_Z (val / 256); byte.of_Z (val mod 256)])
    else Some tp in
  match tp1 with
  | None => None
  | Some tp2 =>
      let tp3 :=
        match colonp with
        | Some p =>
            if Nat.eqb (length tp2) 16 then None
            else Some (firstn p tp2 ++ zeros (16 - length tp2) ++ skipn p tp2)
        | None => Some tp2
        end in
      match tp3 with
      | Some r => if Nat.eqb (length r) 16 then Some r else None
      | None => None
      end
  end.

(** The IPv6 scanner: [curtok] is the text from the start of the current
    group (where a dotted quad may begin), [tp] the bytes stored so far,
    [seen] and [val] the hexadecimal digits of the current group. *)
Fixpoint pton6_loop (src curtok : str) (tp : bytes) (colonp : option nat)
         (seen : nat) (val : Z) : option bytes :=
  match src with
  | [] => pton6_finish tp colonp seen val
  | ch :: tl =>
      match hex_digit_value ch with
      | Some d =>
          if Nat.eqb seen 4 then None
          else let val' := val * 16 + d in
               if 0xffff <? val' then None
               else pton6_loop tl curtok tp colonp (S seen) val'
      | None =>
          if ch =? COLON then
            if Nat.eqb seen 0 then
              match colonp with
              | Some _ => None
              | None => pton6_loop tl tl tp (Some (length tp)) 0 0
              end
            else match tl with
                 | [] => None
                 | _ =>
                     if Nat.ltb 16 (length tp + 2) then None
                     else pton6_loop tl tl
                            (tp ++ [byte.of_Z (val / 256); byte.of_Z (val mod 256)])
                            colonp 0 0
                 end
          else if (ch =? DOT) && Nat.leb (length tp + 4) 16 then
            match pton4 curtok with
            | Some b4 => pton6_finish (tp ++ b4) colonp 0 0
            | None => None
            end
          else None
      end
  end.

Definition pton6 (s : str) : option bytes :=
  match s with
  | [] => None
  | c :: tl =>
      if c =? COLON then
        match tl with
        | c2 :: _ => if c2 =? COLON then pton6_loop tl tl [] None 0 0 else None
        | [] => None
        end
      else pton6_loop s s [] None 0 0
  end.

(** [socket.inet_pton(socket.AF_INET6, s)] *)
Definition inet_pton6 (s : str) : result bytes :=
  if has_nul s then Raise (ValueError "embedded null character")
  else match pton6 s with
       | Some b => Ok b
       | None => Raise OSError
       end.

(** The eight 16-bit groups of a 16-byte address. *)
Definition words_of (b : bytes) : list Z :=
  map (fun i => byte.unsigned (nth (2 * i) b Byte.x00) * 256
                + byte.unsigned (nth (2 * i + 1) b Byte.x00))
      (seq 0 8).

(** A run of zero groups: where it starts and how long it is. *)
Definition run := option (nat * nat).

Definition better (best cur : run) : run :=
  match cur with
  | None => best
  | Some (_, cl) =>
      match best with
      | None => cur
      | Some (_, bl) => if Nat.ltb bl cl then cur else best
      end
  end.

(** The first longest run of zero groups, if it has at least two. *)
Definition best_run (words : list Z) : run :=
  let '(best, cur, _) :=
    fold_left
      (fun (st : run * run * nat) w =>
         let '(best, cur, i) := st in
         if w =? 0 then
           match cur with
           | None => (best, Some (i, 1%nat), S i)
           | Some (cb, cl) => (best, Some (cb, S cl), S i)
           end
         else (better best cur, None, S i))
      words (None, None, 0%nat) in
  match better best cur with
  | Some (b, l) => if Nat.ltb l 2 then None else Some (b, l)
  | None => None
  end.

Fixpoint ntop6_print (idx : list nat) (words : list Z) (best : run)
         (v4 : str) : str :=
  match idx with
  | [] => []
  | i :: rest =>
      let in_best :=
        match best with
        | Some (b, l) => Nat.leb b i && Nat.ltb i (b + l)
        | None => false
        end in
      if in_best then
        (match best with
         | Some (b, _) => if Nat.eqb i b then [COLON] else []
         | None => []
         end) ++ ntop6_print rest words best v4
      else
        (if Nat.eqb i 0 then [] else [COLON]) ++
        (let embedded :=
           match best with
           | Some (0%nat, l) =>
               Nat.eqb i 6
               && (Nat.eqb l 6 || (Nat.eqb l 5 && (nth 5 words 0 =? 0xffff)))
           | _ => false
           end in
         if embedded then v4
         else hex_of (nth i words 0) ++ ntop6_print rest words best v4)
  end.

(** [socket.inet_ntop(socket.AF_INET6, b)] *)
Definition inet_ntop6 (b : bytes) : result str :=
  if negb (Nat.eqb (length b) 16)
  then Raise (ValueError "invalid length of packed IP address string")
  else
    let words := words_of b in
    let best := best_run words in
    v4 <- inet_ntoa (skipn 12 b) ;;
    let body := ntop6_print (seq 0 8) words best v4 in
    let trailing :=
      match best with
      | Some (bb, l) => Nat.eqb (bb + l) 8
      | None => false
      end in
    Ok (body ++ (if trailing then [COLON] else [])).

End Socket.
(* ===================================================================== *)
(** * config.py: [ChainConfig] *)
(* ===================================================================== *)

Record ChainConfig := {
  name : str;
  ticker : str;
  p2p_port : Z;
  rpc_port : Z;
  protocol_version : Z;
  magic_bytes : bytes;
  dns_seeds : list str;
  seed_nodes : list str;
  current_version : str;
  minimum_version : str;
  user_agent_pattern : str
}.

(* ===================================================================== *)
(** * protocol.py: version and addr payloads *)
(* ===================================================================== *)

Import Text Socket.

Definition SERVICES_NODE_NETWORK : Z := 1.

Record NetAddr := {
  na_services : Z;
  na_ip : str;
  na_port : Z;
  na_timestamp : option Z
}.

Record VersionPayload := {
  version : Z;
  services : Z;
  timestamp : Z;
  addr_recv : NetAddr;
  addr_from : NetAddr;
  nonce : Z;
  user_agent : str;
  start_height : Z;
  relay : bool
}.

(** The payload built by [create_version_message]; [timestamp] stands for
    [int(time.time())] and [nonce] for [random.getrandbits(64)]. *)
Definition version_payload_bytes (chain_config : ChainConfig) (recv_ip : str)
           (recv_port start_height timestamp nonce : Z) : result bytes :=
  let user_agent := lit "/" ++ name chain_config ++ lit "NodesCrawler:0.1.0/" in
  user_agent_bytes <- encode_utf8 user_agent ;;
  let payload := [] in
  (* Version (4 bytes) *)
  p <- Struct.pack_le 4 (protocol_version chain_config) ;;
  let payload := payload ++ p in
  (* Services (8 bytes) *)
  p <- Struct.pack_le 8 SERVICES_NODE_NETWORK ;;
  let payload := payload ++ p in
  (* Timestamp (8 bytes) *)
  p <- Struct.pack_q timestamp ;;
  let payload := payload ++ p in
  (* Addr_recv (26 bytes) *)
  p <- Struct.pack_le 8 SERVICES_NODE_NETWORK ;;
  let payload := payload ++ p in
  payload <-
    (if existsb (Z.eqb COLON) recv_ip then
       (* Native IPv6 *)
       p <- inet_pton6 recv_ip ;;
       Ok (payload ++ p)
     else
       (* IPv4-mapped IPv6 *)
       let payload := payload ++ (zeros 10 ++ [Byte.xff; Byte.xff]) in
       p <- inet_pton4 recv_ip ;;
       Ok (payload ++ p)) ;;
  p <- Struct.pack_be16 recv_port ;;
  let payload := payload ++ p in
  (* Addr_from (26 bytes) *)
  p <- Struct.pack_le 8 SERVICES_NODE_NETWORK ;;
  let payload := payload ++ p in
  let payload := payload ++ (zeros 10 ++ [Byte.xff; Byte.xff]) in
  p <- inet_pton4 (lit "0.0.0.0") ;;
  let payload := payload ++ p in
  p <- Struct.pack_be16 0 ;;
  let payload := payload ++ p in
  (* Nonce (8 bytes) *)
  p <- Struct.pack_le 8 nonce ;;
  let payload := payload ++ p in
  (* User agent (variable) *)
  p <- Struct.pack_le 1 (len user_agent_bytes) ;;
  let payload := payload ++ p in
  let payload := payload ++ user_agent_bytes in
  (* Start height (4 bytes) *)
  p <- Struct.pack_le 4 start_height ;;
  let payload := payload ++ p in
  (* Relay (1 byte) *)
  let payload := payload ++ Struct.pack_bool true in
  Ok payload.

(** [create_version_message(chain_config, recv_ip, recv_port, start_height)] *)
Definition create_version_message (chain_config : ChainConfig) (recv_ip : str)
           (recv_port start_height timestamp nonce : Z) : result bytes :=
  payload <- version_payload_bytes chain_config recv_ip recv_port start_height
                                   timestamp nonce ;;
  create_message (magic_bytes chain_config) (lit "version") payload.

(** [create_verack_message], [create_getaddr_message] *)
Definition create_verack_message (chain_config : ChainConfig) : result bytes :=
  create_message (magic_bytes chain_config) (lit "verack") [].

Definition create_getaddr_message (chain_config : ChainConfig) : result bytes :=
  create_message (magic_bytes chain_config) (lit "getaddr") [].

(** [parse_version_payload(payload)] *)
Definition parse_version_payload (payload : bytes) : result VersionPayload :=
  let offset := 0 in
  (* Version *)
  version <- Struct.unpack_le 4 (slice payload offset (offset + 4)) ;;
  let offset := offset + 4 in
  (* Services *)
  services <- Struct.unpack_le 8 (slice payload offset (offset + 8)) ;;
  let offset := offset + 8 in
  (* Timestamp *)
  timestamp <- Struct.unpack_q (slice payload offset (offset + 8)) ;;
  let offset := offset + 8 in
  (* Addr_recv *)
  recv_services <- Struct.unpack_le 8 (slice payload offset (offset + 8)) ;;
  let offset := offset + 8 in
  let recv_ip_bytes := slice payload (offset + 12) (offset + 16) in
  recv_ip <- inet_ntoa recv_ip_bytes ;;
  let offset := offset + 16 in
  recv_port <- Struct.unpack_be16 (slice payload offset (offset + 2)) ;;
  let offset := offset + 2 in
  let addr_recv := Build_NetAddr recv_services recv_ip recv_port None in
  (* Addr_from *)
  from_services <- Struct.unpack_le 8 (slice payload offset (offset + 8)) ;;
  let offset := offset + 8 in
  let from_ip_bytes := slice payload (offset + 12) (offset + 16) in
  from_ip <- inet_ntoa from_ip_bytes ;;
  let offset := offset + 16 in
  from_port <- Struct.unpack_be16 (slice payload offset (offset + 2)) ;;
  let offset := offset + 2 in
  let addr_from := Build_NetAddr from_services from_ip from_port None in
  (* Nonce *)
  nonce <- Struct.unpack_le 8 (slice payload offset (offset + 8)) ;;
  let offset := offset + 8 in
  (* User agent *)
  user_agent_len <- index payload offset ;;
  let offset := offset + 1 in
  let user_agent :=
    decode_utf8_replace (slice payload offset (offset + user_agent_len)) in
  let offset := offset + user_agent_len in
  (* Start height *)
  start_height <- Struct.unpack_le 4 (slice payload offset (offset + 4)) ;;
  let offset := offset + 4 in
  (* Relay (optional) *)
  relay <-
    (if offset <? len payload
     then b <- index payload offset ;; Ok (negb (b =? 0))
     else Ok true) ;;
  Ok {| version := version;
        services := services;
        timestamp := timestamp;
        addr_recv := addr_recv;
        addr_from := addr_from;
        nonce := nonce;
        user_agent := user_agent;
        start_height := start_height;
        relay := relay |}.

(** [read_varint(data, offset)], returning the value and the next offset. *)
Definition read_varint (data : bytes) (offset : Z) : result (Z * Z) :=
  first_byte <- index data offset ;;
  if first_byte <? 0xFD then Ok (first_byte, offset + 1)
  else if first_byte =? 0xFD then
    v <- Struct.unpack_le 2 (slice data (offset + 1) (offset + 3)) ;;
    Ok (v, offset + 3)
  else if first_byte =? 0xFE then
    v <- Struct.unpack_le 4 (slice data (offset + 1) (offset + 5)) ;;
    Ok (v, offset + 5)
  else
    v <- Struct.unpack_le 8 (slice data (offset + 1) (offset + 9)) ;;
    Ok (v, offset + 9).

Definition IPV4_MAPPED_PREFIX : bytes := zeros 10 ++ [Byte.xff; Byte.xff].

(** One pass through the body of the loop of [parse_addr_payload], entered
    with at least 30 bytes left at [offset]. *)
Definition parse_addr_entry (payload : bytes) (offset : Z) : result NetAddr :=
  (* Timestamp (4 bytes) *)
  timestamp <- Struct.unpack_le 4 (slice payload offset (offset + 4)) ;;
  let offset := offset + 4 in
  (* Services (8 bytes) *)
  services <- Struct.unpack_le 8 (slice payload offset (offset + 8)) ;;
  let offset := offset + 8 in
  (* IP address (16 bytes - IPv6 or IPv4-mapped) *)
  let ip_bytes := slice payload offset (offset + 16) in
  let offset := offset + 16 in
  ip <-
    (if bytes_eqb (slice ip_bytes 0 12) IPV4_MAPPED_PREFIX
     then inet_ntoa (slice ip_bytes 12 16)
     else inet_ntop6 ip_bytes) ;;
  (* Port (2 bytes, big endian) *)
  port <- Struct.unpack_be16 (slice payload offset (offset + 2)) ;;
  Ok (Build_NetAddr services ip port (Some timestamp)).

(** The loop [for _ in range(count)] of [parse_addr_payload].  Every pass
    that does not break moves [offset] 30 bytes forward, so the loop runs
    at most [len(payload) / 30] times whatever [count] is; [fuel] is that
    bound (see [addr_loop_fuel] below: more fuel never changes the result). *)
Fixpoint addr_loop (fuel : nat) (count : Z) (payload : bytes) (offset : Z)
         (addresses : list NetAddr) : result (list NetAddr) :=
  match fuel with
  | O => Ok addresses
  | S fuel' =>
      if count <=? 0 then Ok addresses
      else if len payload <? offset + 30 then Ok addresses
      else
        a <- parse_addr_entry payload offset ;;
        addr_loop fuel' (count - 1) payload (offset + 30) (addresses ++ [a])
  end.

(** [parse_addr_payload(payload)] *)
Definition parse_addr_payload (payload : bytes) : result (list NetAddr) :=
  let addresses := [] in
  let offset := 0 in
  (* Read varint count *)
  r <- read_varint payload offset ;;
  let '(count, offset) := r in
  addr_loop (S (length payload / 30)) count payload offset addresses.
(* ===================================================================== *)
(** * config.py: the crawler settings of [load_config] *)
(* ===================================================================== *)

(** Python's [float], as far as [load_config] uses it: conversion from and
    to text and the two comparisons of the validation. *)
Class PyFloat := {
  float : Type;
  float_of_str : str -> result float;   (* float(s) *)
  float_str : float -> str;             (* str(x) *)
  float_le0 : float -> bool;            (* x <= 0 *)
  float_lt1 : float -> bool;            (* x < 1 *)
  (* the one exception of [float(s)] on a [str] *)
  float_of_str_raises : forall s e,
    float_of_str s = Raise e ->
    e = ValueError "could not convert string to float"
}.

(* ===================================================================== *)
(** * Python's [float]: IEEE 754 binary64, to and from text *)
(* ===================================================================== *)

Module Float64.
Import Text.

(** A float: not a number, an infinity, or [m * 2^e] with its sign
    ([m = 0] for the two zeros).  Numbers are kept normal: [m] has 53 bits,
    or fewer with [e = -1074]. *)
Inductive f64 : Type :=
| NaN
| Inf (neg : bool)
| Fin (neg : bool) (m e : Z).

(** [num / den > 0] rounded to the nearest float, ties to even. *)
Definition round_ratio (neg : bool) (num den : Z) : f64 :=
  let l := Z.log2 num - Z.log2 den in
  (* 2^(l-1) <= num/den < 2^(l+1) *)
  let e0 := l - 52 in
  let below := if 0 <=? e0 then num <? den * 2 ^ (52 + e0)
               else num * 2 ^ (- e0) <? den * 2 ^ 52 in
  let e1 := Z.max (if below then e0 - 1 else e0) (- 1074) in
  let n := if 0 <=? e1 then num else num * 2 ^ (- e1) in
  let d := if 0 <=? e1 then den * 2 ^ e1 else den in
  let q := n / d in
  let r := n mod d in
  let m := if d <? 2 * r then q + 1
           else if d =? 2 * r then q + q mod 2
           else q in
  let '(m, e) := if m =? 2 ^ 53 then (2 ^ 52, e1 + 1) else (m, e1) in
  if 971 <? e then Inf neg
  else if m =? 0 then Fin neg 0 0
  else Fin neg m e.

(** The float nearest to [c * 10^e10] for an integer [c >= 0]. *)
Definition of_decimal (neg : bool) (c e10 : Z) : f64 :=
  if c =? 0 then Fin neg 0 0
  else if 0 <=? e10 then round_ratio neg (c * 10 ^ e10) 1
  else round_ratio neg c (10 ^ (- e10)).

Fixpoint rstrip_rev (s : str) : str :=
  match s with
  | c :: tl => if is_space c then rstrip_rev tl else s
  | [] => []
  end.

(** [s.strip()] for the blanks [float()] skips *)
Definition strip (s : str) : str := rev (rstrip_rev (rev (lstrip s))).

Definition lower (c : Z) : Z := if (65 <=? c) && (c <=? 90) then c + 32 else c.

Fixpoint str_eqb (a b : str) : bool :=
  match a, b with
  | [], [] => true
  | x :: a', y :: b' => (x =? y) && str_eqb a' b'
  | _, _ => false
  end.

(** A run of digits with single underscores between them: the digits
    read (as a number and a count) and the rest.  [None] when an
    underscore is not between two digits. *)
Fixpoint digit_run (s : str) (acc count : Z) (prev : Z) : option (Z * Z * str) :=
  match s with
  | c :: tl =>
      if is_digit c then digit_run tl (acc * 10 + (c - 48)) (count + 1) c
      else if c =? 95 then
        if is_digit prev
        then match tl with
             | c2 :: _ => if is_digit c2 then digit_run tl acc count c else None
             | [] => None
             end
        else None
      else Some (acc, count, s)
  | [] => Some (acc, count, [])
  end.

(** The exponent part: [e], an optional sign, digits. *)
Definition exponent (s : str) : option Z :=
  match s with
  | [] => Some 0
  | c :: tl =>
      if (c =? 101) || (c =? 69) then
        let '(sign, tl2) := split_sign tl in
        match digit_run tl2 0 0 0 with
        | Some (v, n, []) => if 0 <? n then Some (sign * v) else None
        | _ => None
        end
      else None
  end.

(** A decimal literal without its sign. *)
Definition decimal (neg : bool) (s : str) : option f64 :=
  match digit_run s 0 0 0 with
  | None => None
  | Some (ip, n1, rest) =>
      match rest with
      | 46 :: rest2 =>
          match digit_run rest2 ip 0 0 with
          | None => None
          | Some (c, n2, rest3) =>
              if (0 <? n1 + n2) then
                match exponent rest3 with
                | Some x => Some (of_decimal neg c (x - n2))
                | None => None
                end
              else None
          end
      | _ =>
          if 0 <? n1 then
            match exponent rest with
            | Some x => Some (of_decimal neg ip x)
            | None => None
            end
          else None
      end
  end.

(** The float a [str] denotes, if any.  As for [int()], code points above
    U+007F are rejected. *)
Definition parse (s : str) : option f64 :=
  let '(sign, body) := split_sign (strip s) in
  let neg := sign <? 0 in
  let low := map lower body in
  if str_eqb low (lit "inf") || str_eqb low (lit "infinity") then Some (Inf neg)
  else if str_eqb low (lit "nan") then Some NaN
  else decimal neg body.

(** [float(s)] for a [str] *)
Definition of_str (s : str) : result f64 :=
  match parse s with
  | Some x => Ok x
  | None => Raise (ValueError "could not convert string to float")
  end.

(** [x <= 0] and [x < 1] *)
Definition le0 (x : f64) : bool :=
  match x with
  | NaN => false
  | Inf neg => neg
  | Fin neg m _ => neg || (m =? 0)
  end.

Definition lt1 (x : f64) : bool :=
  match x with
  | NaN => false
  | Inf neg => neg
  | Fin true _ _ => true
  | Fin false m e => if 0 <=? e then m =? 0 else m <? 2 ^ (- e)
  end.

Definition f64_eqb (x y : f64) : bool :=
  match x, y with
  | NaN, NaN => true
  | Inf a, Inf b => Bool.eqb a b
  | Fin a m e, Fin b m' e' => Bool.eqb a b && (m =? m') && (e =? e')
  | _, _ => false
  end.

(** [k] with [10^k <= num/den < 10^(k+1)], for [num/den > 0]. *)
Definition floor_log10 (num den : Z) : Z :=
  let k0 := (Z.log2 num - Z.log2 den) * 30103 / 100000 in
  let ge k := if 0 <=? k then den * 10 ^ k <=? num else den <=? num * 10 ^ (- k) in
  (* 10^k <= num/den *)
  if ge (k0 + 1) then k0 + 1
  else if ge k0 then k0
  else if ge (k0 - 1) then k0 - 1
  else k0 - 2.

(** The decimals with [nd] digits next to [num/den] that read back as
    [x]: the nearer one first. *)
Definition candidates (x : f64) (num den k nd : Z) : list (Z * Z) :=
  let p := nd - 1 - k in
  let n := if 0 <=? p then num * 10 ^ p else num in
  let d := if 0 <=? p then den else den * 10 ^ (- p) in
  let lo := n / d in
  let r := n mod d in
  let order := if d <? 2 * r then [lo + 1; lo]
               else if d =? 2 * r then (if Z.even lo then [lo; lo + 1] else [lo + 1; lo])
               else [lo; lo + 1] in
  flat_map (fun c => if f64_eqb (of_decimal false c (- p)) x then [(c, - p)] else [])
           order.

(** The shortest decimal that reads back as [x > 0]: its digits as a
    number, and its exponent. *)
Fixpoint shortest_from (x : f64) (num den k : Z) (nds : list nat) : Z * Z :=
  match nds with
  | [] => (0, 0)
  | nd :: rest =>
      match candidates x num den k (Z.of_nat nd) with
      | c :: _ => c
      | [] => shortest_from x num den k rest
      end
  end.

Definition shortest (m e : Z) : Z * Z :=
  let num := if 0 <=? e then m * 2 ^ e else m in
  let den := if 0 <=? e then 1 else 2 ^ (- e) in
  shortest_from (Fin false m e) num den (floor_log10 num den) (seq 1 17).

Fixpoint strip_zeros (fuel : nat) (c e10 : Z) : Z * Z :=
  match fuel with
  | O => (c, e10)
  | S f => if (c mod 10 =? 0) && negb (c =? 0) then strip_zeros f (c / 10) (e10 + 1)
           else (c, e10)
  end.

Definition zeros_str (n : Z) : str := repeat 48 (Z.to_nat n).

(** [repr(x)], which is [str(x)] *)
Definition to_str (x : f64) : str :=
  match x with
  | NaN => lit "nan"
  | Inf neg => if neg then lit "-inf" else lit "inf"
  | Fin neg m e =>
      (if neg then [45] else []) ++
      (if m =? 0 then lit "0.0"
       else
         let '(c, e10) := shortest m e in
         let '(c, e10) := strip_zeros 20 c e10 in
         let ds := digits_of c in
         let nd := len ds in
         let decpt := nd + e10 in
         if (decpt <=? -4) || (16 <? decpt) then
           let x10 := decpt - 1 in
           firstn 1 ds ++ (if 1 <? nd then [46] ++ skipn 1 ds else [])
           ++ [101] ++ (if x10 <? 0 then [45] else [43])
           ++ (if Z.abs x10 <? 10 then [48] else []) ++ digits_of (Z.abs x10)
         else if decpt <=? 0 then
           lit "0." ++ zeros_str (- decpt) ++ ds
         else if nd <=? decpt then
           ds ++ zeros_str (decpt - nd) ++ lit ".0"
         else
           firstn (Z.to_nat decpt) ds ++ [46] ++ skipn (Z.to_nat decpt) ds)
  end.

End Float64.

(** [float(s)] raises nothing but its [ValueError]. *)
Definition Float64_of_str_raises (s : str) (e : exn) :
  Float64.of_str s = Raise e -> e = ValueError "could not convert string to float" :=
  match Float64.parse s as o
        return (match o with
                | Some x => Ok x
                | None => Raise (ValueError "could not convert string to float")
                end = Raise e -> e = ValueError "could not convert string to float")
  with
  | Some x =>
      fun H => match H in (_ = r)
                     return (match r with Ok _ => True | Raise _ => _ end)
               with eq_refl => I end
  | None =>
      fun H => f_equal (fun r : result Float64.f64 =>
                          match r with Ok _ => e | Raise e' => e' end) (eq_sym H)
  end.

(** The floats of the interpreter. *)
#[export] Instance Binary64 : PyFloat :=
  {| float := Float64.f64;
     float_of_str := Float64.of_str;
     float_str := Float64.to_str;
     float_le0 := Float64.le0;
     float_lt1 := Float64.lt1;
     float_of_str_raises := Float64_of_str_raises |}.
Module Config.
Import stdpp.base stdpp.gmap stdpp.strings.
Import Text.
Local Open Scope Z_scope.
Local Open Scope py_scope.

Section Loader.
Context {F : PyFloat}.

(** The values [yaml.safe_load] builds. *)
#[local] Unset Elimination Schemes.
Inductive pyval : Type :=
| PyNone
| PyBool (b : bool)
| PyInt (z : Z)
| PyFloat_ (x : float)
| PyStr (s : str)
| PyList (l : list pyval)
| PyDict (d : list (pyval * pyval)).
#[local] Set Elimination Schemes.

Definition join_comma (parts : list str) : str :=
  match parts with
  | [] => []
  | p :: ps => p ++ flat_map (fun q => lit ", " ++ q) ps
  end.

(** [repr(v)].  The quoting of a [str] is kept to the plain case (single
    quotes, nothing to escape); it only shows inside the text of a list
    or dict, which neither [int()] nor [float()] accepts. *)
Fixpoint py_repr (v : pyval) : str :=
  match v with
  | PyNone => lit "None"
  | PyBool true => lit "True"
  | PyBool false => lit "False"
  | PyInt z => str_of_int z
  | PyFloat_ x => float_str x
  | PyStr s => lit "'" ++ s ++ lit "'"
  | PyList l => lit "[" ++ join_comma (map py_repr l) ++ lit "]"
  | PyDict d =>
      lit "{"
      ++ join_comma (map (fun kv => py_repr (fst kv) ++ lit ": " ++ py_repr (snd kv)) d)
      ++ lit "}"
  end.

(** [str(v)] *)
Definition py_str (v : pyval) : str :=
  match v with
  | PyStr s => s
  | _ => py_repr v
  end.

(** [isinstance(v, int)]: [bool] is a subclass of [int]. *)
Definition isinstance_int (v : pyval) : bool :=
  match v with
  | PyInt _ | PyBool _ => true
  | _ => false
  end.

(** [os.getenv(name)] and [os.getenv(name, default)] *)
Definition getenv (env : gmap string str) (name : string) : option str :=
  env !! name.
Definition getenv_or (env : gmap string str) (name : string) (dflt : str) : str :=
  default dflt (env !! name).

(** [d.get(key, default)] *)
Definition dict_get (d : gmap string pyval) (key : string) (dflt : pyval) : pyval :=
  default dflt (d !! key).

(** The fields of [CrawlerConfig] that [load_config] computes from the
    environment and the [crawlerConfig] section.  [chain],
    [geoip_db_path] and [alerts_enabled], which no property below reads
    and which need the file system or Unicode case mapping, are left
    out. *)
Record CrawlerConfig := {
  chain_config : ChainConfig;
  supabase_url : str;
  supabase_key : str;
  rpc_host : option str;
  cfg_rpc_port : Z;
  rpc_user : option str;
  rpc_pass : option str;
  interval_minutes : Z;
  max_concurrent : Z;
  connection_timeout : Z;
  extended_timeout : Z;
  getaddr_delay_ms : Z;
  prune_after_hours : Z;
  max_retries : Z;
  initial_retry_delay : float;
  retry_backoff_multiplier : float;
  fallback_protocol_versions : list pyval;
  require_version_for_save : pyval;
  web_app_url : str;
  alerts_api_key : option str
}.

(** [load_config()], from the point where the chain configuration and
    the [crawlerConfig] section [crawler_yaml] have been read; [env] is
    the process environment.  The result carries the lines printed. *)
Definition load_config (chain_cfg : ChainConfig) (env : gmap string str)
           (crawler_yaml : gmap string pyval)
  : result (list str * CrawlerConfig) :=
  (* YAML values with environment variable overrides *)
  prune_after_hours <-
    int_of_str (getenv_or env "PRUNE_AFTER_HOURS"
                  (py_str (dict_get crawler_yaml "pruneAfterHours" (PyInt 168)))) ;;
  interval_minutes <-
    int_of_str (getenv_or env "CRAWLER_INTERVAL_MINUTES"
                  (py_str (dict_get crawler_yaml "scanIntervalMinutes" (PyInt 5)))) ;;
  max_concurrent <-
    int_of_str (getenv_or env "MAX_CONCURRENT_CONNECTIONS"
                  (py_str (dict_get crawler_yaml "maxConcurrentConnections" (PyInt 100)))) ;;
  connection_timeout <-
    int_of_str (getenv_or env "CONNECTION_TIMEOUT_SECONDS"
                  (py_str (dict_get crawler_yaml "connectionTimeoutSeconds" (PyInt 10)))) ;;
  extended_timeout <-
    int_of_str (getenv_or env "EXTENDED_TIMEOUT_SECONDS"
                  (py_str (dict_get crawler_yaml "extendedTimeoutSeconds" (PyInt 30)))) ;;
  max_retries <-
    int_of_str (getenv_or env "MAX_RETRIES"
                  (py_str (dict_get crawler_yaml "maxRetries" (PyInt 3)))) ;;
  initial_retry_delay <-
    float_of_str (getenv_or env "INITIAL_RETRY_DELAY_SECONDS"
                    (py_str (dict_get crawler_yaml "initialRetryDelaySeconds" (PyInt 1)))) ;;
  retry_backoff_multiplier <-
    float_of_str (getenv_or env "RETRY_BACKOFF_MULTIPLIER"
                    (py_str (dict_get crawler_yaml "retryBackoffMultiplier" (PyInt 2)))) ;;
  let fallback_protocol_versions :=
    dict_get crawler_yaml "fallbackProtocolVersions" (PyList []) in
  let require_version_for_save :=
    dict_get crawler_yaml "requireVersionForSave" (PyBool true) in
  (* Validate configuration *)
  if max_retries <? 0 then Raise (ValueError "maxRetries must be >= 0") else
  let stdout :=
    if 10 <? max_retries
    then [lit "WARNING: maxRetries=" ++ str_of_int max_retries
          ++ lit " is very high, crawler may be slow"]
    else [] in
  if connection_timeout <=? 0
  then Raise (ValueError "connectionTimeoutSeconds must be > 0") else
  if extended_timeout <? connection_timeout
  then Raise (ValueError "extendedTimeoutSeconds must be >= connectionTimeoutSeconds") else
  if float_le0 initial_retry_delay
  then Raise (ValueError "initialRetryDelaySeconds must be > 0") else
  if float_lt1 retry_backoff_multiplier
  then Raise (ValueError "retryBackoffMultiplier must be >= 1") else
  (* Validate protocol versions are integers *)
  fallback_protocol_versions <-
    match fallback_protocol_versions with
    | PyList l =>
        if forallb isinstance_int l then Ok l
        else Raise (ValueError "fallbackProtocolVersions must be integers")
    | _ => Ok []
    end ;;
  rpc_port <-
    int_of_str (getenv_or env "RPC_PORT" (str_of_int (rpc_port chain_cfg))) ;;
  getaddr_delay_ms <- int_of_str (getenv_or env "GETADDR_DELAY_MS" (lit "100")) ;;
  Ok (stdout,
      {| chain_config := chain_cfg;
         supabase_url := getenv_or env "SUPABASE_URL" [];
         supabase_key := getenv_or env "SUPABASE_SERVICE_ROLE_KEY" [];
         rpc_host := getenv env "RPC_HOST";
         cfg_rpc_port := rpc_port;
         rpc_user := getenv env "RPC_USER";
         rpc_pass := getenv env "RPC_PASS";
         interval_minutes := interval_minutes;
         max_concurrent := max_concurrent;
         connection_timeout := connection_timeout;
         extended_timeout := extended_timeout;
         getaddr_delay_ms := getaddr_delay_ms;
         prune_after_hours := prune_after_hours;
         max_retries := max_retries;
         initial_retry_delay := initial_retry_delay;
         retry_backoff_multiplier := retry_backoff_multiplier;
         fallback_protocol_versions := fallback_protocol_versions;
         require_version_for_save := require_version_for_save;
         web_app_url := getenv_or env "WEB_APP_URL" (lit "http://localhost:4000");
         alerts_api_key := getenv env "ALERTS_PROCESS_KEY" |}).

End Loader.

End Config.
(* ===================================================================== *)
(** * geoip.py: [GeoIPLookup.lookup] and its cache *)
(* ===================================================================== *)

Module GeoIP.

Fixpoint str_eqb (a b : str) : bool :=
  match a, b with
  | [], [] => true
  | x :: a', y :: b' => (x =? y) && str_eqb a' b'
  | _, _ => false
  end.

Section Lookup.
(** The attribute values of the database records (text and numbers). *)
Variable V : Type.

(** The dict that [lookup] returns. *)
Record GeoResult := {
  country_code : option V;
  country_name : option V;
  region : option V;
  city : option V;
  latitude : option V;
  longitude : option V;
  timezone : option V;
  isp : option V;
  org : option V;
  asn : option V;
  asn_org : option V
}.

(** What a call to a database reader does. *)
Inductive answer (A : Type) : Type :=
| Found (a : A)
| AddressNotFoundError
| OtherException.
Arguments Found {A} a.
Arguments AddressNotFoundError {A}.
Arguments OtherException {A}.

Record Traits := {
  t_isp : option V;            (* getattr(traits, "isp", None) *)
  t_organization : option V    (* getattr(traits, "organization", None) *)
}.

Record CityResponse := {
  country_iso_code : option V;
  country_name_ : option V;
  subdivisions : list (option V);   (* names, the most specific last *)
  city_name : option V;
  location_latitude : option V;
  location_longitude : option V;
  location_time_zone : option V;
  traits : option Traits            (* None: no attribute "traits" *)
}.

Record AsnResponse := {
  autonomous_system_number : option V;
  autonomous_system_organization : option V
}.

(** A dict with [str] keys: its items in insertion order, keys distinct. *)
Definition dict := list (str * GeoResult).

Definition dict_find (d : dict) (k : str) : option GeoResult :=
  option_map snd (find (fun kv => str_eqb (fst kv) k) d).

(** [d[k] = v] *)
Fixpoint dict_set (d : dict) (k : str) (v : GeoResult) : dict :=
  match d with
  | [] => [(k, v)]
  | (k', v') :: tl =>
      if str_eqb k' k then (k', v) :: tl else (k', v') :: dict_set tl k v
  end.

(** [del d[k]] for a key of [d] *)
Fixpoint dict_del (d : dict) (k : str) : dict :=
  match d with
  | [] => []
  | (k', v') :: tl => if str_eqb k' k then tl else (k', v') :: dict_del tl k
  end.

Definition dict_keys (d : dict) : list str := map fst d.

(** The object: the two readers ([None] when a database is missing)
    and [_cache]. *)
Record GeoIPLookup := {
  reader : option (str -> answer CityResponse);
  asn_reader : option (str -> answer AsnResponse);
  _cache : dict
}.

Definition with_cache (self : GeoIPLookup) (c : dict) : GeoIPLookup :=
  {| reader := reader self; asn_reader := asn_reader self; _cache := c |}.

(** The object after [__init__]. *)
Definition init (r : option (str -> answer CityResponse))
           (a : option (str -> answer AsnResponse)) : GeoIPLookup :=
  {| reader := r; asn_reader := a; _cache := [] |}.

Definition null_result : GeoResult :=
  {| country_code := None; country_name := None; region := None;
     city := None; latitude := None; longitude := None; timezone := None;
     isp := None; org := None; asn := None; asn_org := None |}.

(** The first [try] block of [lookup]. *)
Definition city_lookup (rd : str -> answer CityResponse) (ip : str)
           (result : GeoResult) : GeoResult :=
  match rd ip with
  | Found response =>
      {| country_code := country_iso_code response;
         country_name := country_name_ response;
         region := match subdivisions response with
                   | [] => None
                   | s :: ss => last ss s
                   end;
         city := city_name response;
         latitude := location_latitude response;
         longitude := location_longitude response;
         timezone := location_time_zone response;
         isp := match traits response with
                | Some t => t_isp t
                | None => isp result
                end;
         org := match traits response with
                | Some t => t_organization t
                | None => org result
                end;
         asn := asn result;
         asn_org := asn_org result |}
  | _ => result
  end.

(** The second [try] block of [lookup]. *)
Definition asn_lookup (rd : option (str -> answer AsnResponse)) (ip : str)
           (result : GeoResult) : GeoResult :=
  match rd with
  | Some f =>
      match f ip with
      | Found asn_response =>
          {| country_code := country_code result;
             country_name := country_name result;
             region := region result;
             city := city result;
             latitude := latitude result;
             longitude := longitude result;
             timezone := timezone result;
             isp := isp result;
             org := org result;
             asn := autonomous_system_number asn_response;
             asn_org := autonomous_system_organization asn_response |}
      | _ => result
      end
  | None => result
  end.

(** [for key in keys: del cache[key]] *)
Definition delete_keys (cache : dict) (keys : list str) : dict :=
  fold_left dict_del keys cache.

(** [self.lookup(ip)]: the dict returned and the object afterwards. *)
Definition lookup (self : GeoIPLookup) (ip : str) : GeoResult * GeoIPLookup :=
  (* Check cache *)
  match dict_find (_cache self) ip with
  | Some r => (r, self)
  | None =>
      let result := null_result in
      match reader self with
      | None => (result, self)
      | Some rd =>
          let result := city_lookup rd ip result in
          (* Look up ASN information from separate database *)
          let result := asn_lookup (asn_reader self) ip result in
          (* Cache result *)
          let cache := dict_set (_cache self) ip result in
          (* Limit cache size *)
          let cache :=
            if 10000 <? len cache
            then
              (* Remove oldest entries *)
              let keys := slice (dict_keys cache) 0 5000 in
              delete_keys cache keys
            else cache in
          (result, with_cache self cache)
      end
  end.

(** The cache right after [self._cache[ip] = result], when [lookup]
    gets there (no cache hit, and a city database is loaded). *)
Definition cache_after_insert (self : GeoIPLookup) (ip : str) : option dict :=
  match dict_find (_cache self) ip with
  | Some _ => None
  | None =>
      match reader self with
      | None => None
      | Some rd =>
          Some (dict_set (_cache self) ip
                  (asn_lookup (asn_reader self) ip (city_lookup rd ip null_result)))
      end
  end.

(** The object after looking up [ips] one after the other. *)
Definition run (self : GeoIPLookup) (ips : list str) : GeoIPLookup :=
  fold_left (fun s ip => snd (lookup s ip)) ips self.

End Lookup.

End GeoIP.
(* ===================================================================== *)
(** * Predicates used in the statements *)
(* ===================================================================== *)

(** A [str] that [encode("ascii")] accepts. *)
Definition ascii_str (s : str) : Prop := Forall (fun c => 0 <= c < 128) s.

(** A string of decimal digits. *)
Definition all_digits (s : str) : Prop := Forall (fun c => 48 <= c <= 57) s.

(** The number a string of digits denotes, continuing from [acc]. *)
Definition decimal_value (s : str) (acc : Z) : Z :=
  fold_left (fun a c => a * 10 + (c - 48)) s acc.

Definition octet (v : Z) : Prop := 0 <= v <= 255.

(** The text read so far by the scanner of dotted quads. *)
Definition rendered (done : list Z) (cur : Z) (saw_digit : bool) : str :=
  flat_map (fun o => Text.digits_of o ++ [Socket.DOT]) done
  ++ (if saw_digit then Text.digits_of cur else []).

(** The fields of a version payload in wire order; the 16-byte address of
    the receiver is given as its first 12 and last 4 bytes. *)
Definition version_fields (pv ts port nc h : Z) (ip12 ip4 uab : bytes) : list bytes :=
  [ le_split 4 pv; le_split 8 SERVICES_NODE_NETWORK; le_split 8 (ts mod 2 ^ 64);
    le_split 8 SERVICES_NODE_NETWORK; ip12; ip4; rev (le_split 2 port);
    le_split 8 SERVICES_NODE_NETWORK; IPV4_MAPPED_PREFIX;
    [Byte.x00; Byte.x00; Byte.x00; Byte.x00]; rev (le_split 2 0);
    le_split 8 nc; le_split 1 (len uab); uab; le_split 4 h; [Byte.x01] ].

(** The user agent the crawler announces. *)
Definition crawler_user_agent (chain_config : ChainConfig) : str :=
  lit "/" ++ name chain_config ++ lit "NodesCrawler:0.1.0/".

(** [":" in recv_ip] *)
Definition has_colon (s : str) : bool := existsb (Z.eqb Socket.COLON) s.

(** Arguments with which [create_version_message] raises nothing. *)
Definition version_args_ok (chain_config : ChainConfig) (recv_ip : str)
           (recv_port start_height timestamp nonce : Z) : Prop :=
  (exists uab, Text.encode_utf8 (crawler_user_agent chain_config) = Ok uab
               /\ len uab < 256)
  /\ 0 <= protocol_version chain_config < 2 ^ 32
  /\ - 2 ^ 63 <= timestamp < 2 ^ 63
  /\ (exists b, if has_colon recv_ip then Socket.inet_pton6 recv_ip = Ok b
                else Socket.inet_pton4 recv_ip = Ok b)
  /\ 0 <= recv_port < 2 ^ 16
  /\ 0 <= nonce < 2 ^ 64
  /\ 0 <= start_height < 2 ^ 32.

(** A chain configuration for the examples (the Bitcoin main network). *)
Definition bitcoin_config : ChainConfig :=
  {| name := lit "Bitcoin";
     ticker := lit "BTC";
     p2p_port := 8333;
     rpc_port := 8332;
     protocol_version := 70016;
     magic_bytes := [Byte.xf9; Byte.xbe; Byte.xb4; Byte.xd9];
     dns_seeds := [lit "seed.bitcoin.sipa.be"];
     seed_nodes := [];
     current_version := lit "27.0.0";
     minimum_version := lit "25.0.0";
     user_agent_pattern := lit "/Satoshi:([0-9.]+)/" |}.

(** The first 80 bytes of a version payload, up to the user agent. *)
Definition version_head : bytes :=
  concat (firstn 12 (version_fields 70016 1700000000 8333 7 0 IPV4_MAPPED_PREFIX
                                    [Byte.x01; Byte.x02; Byte.x03; Byte.x04] [])).

(** A version payload as a peer following the Bitcoin wire format sends it
    when its user agent has 253 bytes (here 253 times "a"): the length is
    the varint fd fd 00.  Start height 800000, relay true. *)
Definition long_user_agent_payload : bytes :=
  version_head ++ [Byte.xfd; Byte.xfd; Byte.x00] ++ repeat Byte.x61 253
  ++ le_split 4 800000 ++ [Byte.x01].

(** A version payload of an older peer: user agent "/old:0.1/", start
    height 7, and no relay byte. *)
Definition payload_without_relay : bytes :=
  version_head ++ [Byte.x09] ++ list_byte_of_string "/old:0.1/" ++ le_split 4 7.

(** The text of a 16-byte address (empty for another length). *)
Definition ntop6 (b : bytes) : str :=
  match Socket.inet_ntop6 b with
  | Ok s => s
  | Raise _ => []
  end.

(** The address read from the 30 bytes of an addr entry: timestamp,
    services, 16-byte IP, port. *)
Definition addr_of_entry (e : bytes) : NetAddr :=
  {| na_services := le_combine (slice e 4 12);
     na_ip := if bytes_eqb (slice e 12 24) IPV4_MAPPED_PREFIX
              then Socket.ntoa (slice e 24 28)
              else ntop6 (slice e 12 28);
     na_port := le_combine (rev (slice e 28 30));
     na_timestamp := Some (le_combine (slice e 0 4)) |}.

(** The [i]-th entry of an addr payload whose entries start at [offset]. *)
Definition addr_entry (payload : bytes) (offset : Z) (i : nat) : bytes :=
  slice payload (offset + 30 * Z.of_nat i) (offset + 30 * Z.of_nat i + 30).

(** The number of whole entries after [offset]. *)
Definition whole_entries (payload : bytes) (offset : Z) : Z :=
  (len payload - offset) / 30.

(** An addr payload for the examples: count 3, then the entry of
    1.2.3.4:8333 (IPv4-mapped), the entry of [2001:db8::1]:8333, and the
    first 10 bytes of an entry that was cut off. *)
Definition addr_payload_example : bytes :=
  [Byte.x03]
  ++ (le_split 4 1700000000 ++ le_split 8 1 ++ IPV4_MAPPED_PREFIX
      ++ [Byte.x01; Byte.x02; Byte.x03; Byte.x04] ++ [Byte.x20; Byte.x8d])
  ++ (le_split 4 1700000001 ++ le_split 8 1033
      ++ [Byte.x20; Byte.x01; Byte.x0d; Byte.xb8] ++ zeros 11 ++ [Byte.x01]
      ++ [Byte.x20; Byte.x8d])
  ++ (le_split 4 1700000002 ++ le_split 6 0).

Module ConfigExamples.
Import stdpp.base stdpp.gmap stdpp.strings.
Import Config.
Local Open Scope Z_scope.

(** The text [load_config] converts for an option that has an environment
    variable [name] and a YAML key [key]:
    [os.getenv(name, str(crawler_yaml.get(key, default)))]. *)
Definition resolved {F : PyFloat} (env : gmap string str) (crawler_yaml : gmap string pyval)
           (name key : string) (dflt : pyval) : str :=
  getenv_or env name (py_str (dict_get crawler_yaml key dflt)).

(** The line printed for a high [maxRetries]. *)
Definition retries_warning (max_retries : Z) : str :=
  lit "WARNING: maxRetries=" ++ Text.str_of_int max_retries
  ++ lit " is very high, crawler may be slow".

(** No environment variable set, no [crawlerConfig] section. *)
Definition no_env : gmap string str := ∅.
Definition no_yaml : gmap string (@pyval Binary64) := ∅.

(** [MAX_RETRIES=11] in the environment. *)
Definition env_retries_11 : gmap string str := <["MAX_RETRIES"%string := lit "11"]> ∅.

(** [RETRY_BACKOFF_MULTIPLIER=0.5] in the environment. *)
Definition env_multiplier_half : gmap string str :=
  <["RETRY_BACKOFF_MULTIPLIER"%string := lit "0.5"]> ∅.

(** A [crawlerConfig] section that sets the getaddr delay to 250, under
    the name of the option and under a key spelled like the other keys,
    and the scan interval to 15. *)
Definition yaml_getaddr_250 : gmap string (@pyval Binary64) :=
  <["getaddr_delay_ms"%string := PyInt 250]>
    (<["getaddrDelayMs"%string := PyInt 250]>
       (<["scanIntervalMinutes"%string := PyInt 15]> ∅)).

End ConfigExamples.
(* ===================================================================== *)
(** * Further predicates used in the statements *)
(* ===================================================================== *)

(** The number of bytes a varint takes when its first byte is [first]. *)
Definition varint_width (first : Z) : Z :=
  if first <? 0xFD then 1
  else if first =? 0xFD then 3
  else if first =? 0xFE then 5
  else 9.

(* ===================================================================== *)
(** * More of [str] *)
(* ===================================================================== *)

Module PyStr.

(** [s.startswith(p)] *)
Fixpoint starts_with (p s : str) : bool :=
  match p, s with
  | [], _ => true
  | c :: p', d :: s' => (c =? d) && starts_with p' s'
  | _ :: _, [] => false
  end.

(** The scan of [s.replace(old, new)] for an [old] that is not empty, from
    left to right; [skip] counts the characters of the occurrence just
    replaced that are still to be passed over. *)
Fixpoint replace_from (skip : nat) (old new s : str) : str :=
  match s with
  | [] => []
  | c :: tl =>
      match skip with
      | S k => replace_from k old new tl
      | O =>
          if starts_with old s
          then new ++ replace_from (length old - 1) old new tl
          else c :: replace_from 0 old new tl
      end
  end.

(** [s.replace(old, new)]: every occurrence of [old], none overlapping
    another; an empty [old] occurs before every character and at the end. *)
Definition replace (s old new : str) : str :=
  match old with
  | [] => new ++ flat_map (fun c => c :: new) s
  | _ :: _ => replace_from 0 old new s
  end.

End PyStr.

(* ===================================================================== *)
(** * geoip.py: the constructor and [close] *)
(* ===================================================================== *)

Module GeoIPObject.
Import GeoIP PyStr.

Section Object.
Variable V : Type.

(** What the constructor sees of the outside: whether the [geoip2] library
    could be imported, which paths exist, and what
    [geoip2.database.Reader(path)] gives, as the behaviour of its method
    [city] and of its method [asn] ([None]: opening raises). *)
Record World := {
  HAS_GEOIP : bool;
  path_exists : str -> bool;
  open_city : str -> option (str -> answer (CityResponse V));
  open_asn : str -> option (str -> answer (AsnResponse V))
}.

(** [GeoIPLookup(db_path)] *)
Definition __init__ (w : World) (db_path : str) : GeoIPLookup V :=
  if HAS_GEOIP w && path_exists w db_path then
    let reader := open_city w db_path in
    (* Try to load ASN database *)
    let asn_db_path := replace db_path (lit "City") (lit "ASN") in
    let asn_reader :=
      if path_exists w asn_db_path then open_asn w asn_db_path else None in
    {| reader := reader; asn_reader := asn_reader; _cache := [] |}
  else
    {| reader := None; asn_reader := None; _cache := [] |}.

(** [self.close()] *)
Definition close (self : GeoIPLookup V) : GeoIPLookup V :=
  {| reader := None; asn_reader := None; _cache := _cache V self |}.

(** The ASN fields of every cached dict are [None]. *)
Definition no_asn (c : dict V) : Prop :=
  Forall (fun kv => asn V (snd kv) = None /\ asn_org V (snd kv) = None) c.

End Object.

End GeoIPObject.

(* ===================================================================== *)
(** * config.py: the options of [load_config] as a table *)
(* ===================================================================== *)

Module ConfigTables.
Import stdpp.base stdpp.gmap stdpp.strings.
Import Config.
Local Open Scope Z_scope.

Section Tables.
Context {F : PyFloat}.

(** The text an option is read from under the precedence "environment
    variable, then YAML value, then default". *)
Definition by_precedence (env : gmap string str) (crawler_yaml : gmap string pyval)
           (name key : string) (dflt : pyval) : str :=
  match env !! name with
  | Some s => s
  | None =>
      match crawler_yaml !! key with
      | Some v => py_str v
      | None => py_str dflt
      end
  end.

(** The integer options that have both sources: environment variable, YAML
    key, default, and the field of [CrawlerConfig] they end in. *)
Definition int_options : list (string * string * Z * (CrawlerConfig -> Z)) :=
  [ ("PRUNE_AFTER_HOURS"%string, "pruneAfterHours"%string, 168, prune_after_hours);
    ("CRAWLER_INTERVAL_MINUTES"%string, "scanIntervalMinutes"%string, 5, interval_minutes);
    ("MAX_CONCURRENT_CONNECTIONS"%string, "maxConcurrentConnections"%string, 100,
     max_concurrent);
    ("CONNECTION_TIMEOUT_SECONDS"%string, "connectionTimeoutSeconds"%string, 10,
     connection_timeout);
    ("EXTENDED_TIMEOUT_SECONDS"%string, "extendedTimeoutSeconds"%string, 30,
     extended_timeout);
    ("MAX_RETRIES"%string, "maxRetries"%string, 3, max_retries) ].

(** The two options converted with [float]. *)
Definition float_options : list (string * string * Z * (CrawlerConfig -> float)) :=
  [ ("INITIAL_RETRY_DELAY_SECONDS"%string, "initialRetryDelaySeconds"%string, 1,
     initial_retry_delay);
    ("RETRY_BACKOFF_MULTIPLIER"%string, "retryBackoffMultiplier"%string, 2,
     retry_backoff_multiplier) ].

End Tables.

End ConfigTables.

(* ===================================================================== *)
(** * config.py: reading [config/project.config.yaml] *)
(* ===================================================================== *)

Module ConfigFiles.
Import stdpp.base stdpp.gmap stdpp.strings.
Import Text Config.
Local Open Scope Z_scope.

(** Exceptions besides those of the codec. *)
Inductive exception : Type :=
| Builtin (e : exn)
| FileNotFoundError
| TypeError
| AttributeError
| KeyError.

Inductive outcome (A : Type) : Type :=
| Returns (a : A)
| Fails (e : exception).
Arguments Returns {A} a.
Arguments Fails {A} e.

Definition and_then {A B} (m : outcome A) (k : A -> outcome B) : outcome B :=
  match m with
  | Returns a => k a
  | Fails e => Fails e
  end.

(** [bytes.fromhex(s)] for a [str] (Python 3.7 and later): pairs of hex
    digits, with ASCII whitespace allowed between the pairs; [None] stands
    for its [ValueError]. *)
Definition is_hex_space (c : Z) : bool := (c =? 32) || ((9 <=? c) && (c <=? 13)).

Definition hex_value (c : Z) : option Z :=
  if (48 <=? c) && (c <=? 57) then Some (c - 48)
  else if (97 <=? c) && (c <=? 102) then Some (c - 87)
  else if (65 <=? c) && (c <=? 70) then Some (c - 55)
  else None.

Fixpoint fromhex (s : str) : option bytes :=
  match s with
  | [] => Some []
  | c :: tl =>
      if is_hex_space c then fromhex tl
      else
        match hex_value c, tl with
        | Some top, d :: tl' =>
            match hex_value d with
            | Some bot => option_map (cons (byte.of_Z (16 * top + bot))) (fromhex tl')
            | None => None
            end
        | _, _ => None
        end
  end.

Section Crawler.
Context {F : PyFloat}.

(** The document [yaml.safe_load] returns for a file whose sections are
    mappings with [str] keys: its sections by name.  (On any other
    document the loaders fail at their first [.get] or [in].) *)
Definition document : Type := gmap string (gmap string pyval).


End Crawler.

Section Chain.
(** [str.upper], which needs the case mappings of Unicode. *)
Variable upper : str -> str.

(** The truth value of a YAML value. *)
Definition truthy (v : @pyval Binary64) : bool :=
  match v with
  | PyNone => false
  | PyBool b => b
  | PyInt z => negb (z =? 0)
  | PyFloat_ (Float64.Fin _ m _) => negb (m =? 0)
  | PyFloat_ _ => true
  | PyStr s => match s with [] => false | _ :: _ => true end
  | PyList l => match l with [] => false | _ :: _ => true end
  | PyDict d => match d with [] => false | _ :: _ => true end
  end.

(** A dict key that equals [0]. *)
Definition is_zero_key (k : @pyval Binary64) : bool :=
  match k with
  | PyInt z => z =? 0
  | PyBool b => negb b
  | PyFloat_ (Float64.Fin _ m _) => m =? 0
  | _ => false
  end.

(** [v[0]] *)
Definition getitem0 (v : @pyval Binary64) : outcome (@pyval Binary64) :=
  match v with
  | PyStr (c :: _) => Returns (PyStr [c])
  | PyList (x :: _) => Returns x
  | PyStr [] | PyList [] => Fails (Builtin IndexError)
  | PyDict d =>
      match find (fun kv => is_zero_key (fst kv)) d with
      | Some kv => Returns (snd kv)
      | None => Fails KeyError
      end
  | _ => Fails TypeError
  end.

(** [v[:5].upper()] (up to Python 3.11, where a slice is no dict key) *)
Definition slice5_upper (v : @pyval Binary64) : outcome (@pyval Binary64) :=
  match v with
  | PyStr s => Returns (PyStr (upper (firstn 5 s)))
  | PyList _ => Fails AttributeError
  | _ => Fails TypeError
  end.

(** The [ChainConfig] object as the loader builds it: apart from
    [magic_bytes] every field holds the YAML value as it came. *)
Record LoadedChainConfig := {
  l_name : @pyval Binary64;
  l_ticker : @pyval Binary64;
  l_p2p_port : @pyval Binary64;
  l_rpc_port : @pyval Binary64;
  l_protocol_version : @pyval Binary64;
  l_magic_bytes : bytes;
  l_dns_seeds : @pyval Binary64;
  l_seed_nodes : @pyval Binary64;
  l_current_version : @pyval Binary64;
  l_minimum_version : @pyval Binary64;
  l_user_agent_pattern : @pyval Binary64
}.

Definition required_fields : list string :=
  ["name"%string; "magicBytes"%string; "p2pPort"%string; "protocolVersion"%string].

(** [load_chain_config_from_yaml()]; [found] as above. *)
Definition load_chain_config_from_yaml (found : option (@document Binary64))
  : outcome LoadedChainConfig :=
  match found with
  | None => Fails FileNotFoundError
  | Some project_config =>
      let chain_config_data := default ∅ (project_config !! "chainConfig"%string) in
      (* Validate required fields - fail fast if not configured *)
      let missing :=
        List.filter (fun f => bool_decide (chain_config_data !! f = None)) required_fields in
      if negb (bool_decide (missing = [])) then
        Fails (Builtin (ValueError
                 "Missing required chainConfig fields in project.config.yaml"))
      else
      (* Parse magic bytes from config (hex string like "c1c1c1c1") *)
      let magic_bytes_hex := dict_get chain_config_data "magicBytes" PyNone in
      let invalid :=
        Fails (Builtin (ValueError "Invalid magicBytes in project.config.yaml")) in
      match
        match magic_bytes_hex with
        | PyStr s =>
            match fromhex s with
            | Some magic_bytes =>
                if negb (length magic_bytes =? 4)%nat then None else Some magic_bytes
            | None => None
            end
        | _ => None
        end
      with
      | None => invalid
      | Some magic_bytes =>
          (* Parse user agent patterns from config *)
          let user_agent_patterns :=
            dict_get chain_config_data "userAgentPatterns" (PyList []) in
          and_then
            (if truthy user_agent_patterns then getitem0 user_agent_patterns
             else
               let chain_name :=
                 dict_get chain_config_data "name" (PyStr (lit "Unknown")) in
               Returns (PyStr (lit "/(" ++ py_str chain_name ++ lit "):([0-9.]+)/")))
            (fun user_agent_pattern =>
          (* Parse DNS seeds from chainConfig (at least one seed source required) *)
          let dns_seeds := dict_get chain_config_data "dnsSeeds" (PyList []) in
          let seed_nodes := dict_get chain_config_data "seedNodes" (PyList []) in
          if negb (truthy dns_seeds) && negb (truthy seed_nodes) then
            Fails (Builtin (ValueError
                     "No seed sources configured in project.config.yaml"))
          else
          and_then
            (slice5_upper (dict_get chain_config_data "name" (PyStr (lit "UNKNOWN"))))
            (fun default_ticker =>
          Returns
            {| l_name := dict_get chain_config_data "name" PyNone;
               l_ticker := dict_get chain_config_data "ticker" default_ticker;
               l_p2p_port := dict_get chain_config_data "p2pPort" PyNone;
               l_rpc_port :=
                 dict_get chain_config_data "rpcPort"
                          (dict_get chain_config_data "p2pPort" PyNone);
               l_protocol_version := dict_get chain_config_data "protocolVersion" PyNone;
               l_magic_bytes := magic_bytes;
               l_dns_seeds := dns_seeds;
               l_seed_nodes := seed_nodes;
               l_current_version :=
                 dict_get chain_config_data "currentVersion" (PyStr (lit "0.0.0"));
               l_minimum_version :=
                 dict_get chain_config_data "minimumVersion" (PyStr (lit "0.0.0"));
               l_user_agent_pattern := user_agent_pattern |}))
      end
  end.

(** [b.hex()] *)
Definition hex_digit (v : Z) : Z := if v <? 10 then 48 + v else 87 + v.

Definition hex (b : bytes) : str :=
  flat_map (fun x => [hex_digit (byte.unsigned x / 16);
                      hex_digit (byte.unsigned x mod 16)]) b.

End Chain.

(** A document for the examples: the chainConfig section of the Bitcoin
    main network. *)
Definition example_document : @document Binary64 :=
  {[ "chainConfig"%string :=
       list_to_map
         [ ("name"%string, PyStr (lit "Bitcoin"));
           ("magicBytes"%string, PyStr (lit "f9beb4d9"));
           ("p2pPort"%string, PyInt 8333);
           ("protocolVersion"%string, PyInt 70016);
           ("dnsSeeds"%string, PyList [PyStr (lit "seed.bitcoin.sipa.be")]) ] ]}.

End ConfigFiles.

(* ===================================================================== *)
(** * [pathlib]: pure POSIX paths *)
(* ===================================================================== *)

Module PurePath.

Definition SEP : Z := 47.
Definition DOT : Z := 46.

(** [s.split("/")] *)
Fixpoint split_sep (s : str) : list str :=
  match s with
  | [] => [[]]
  | c :: tl =>
      if c =? SEP then [] :: split_sep tl
      else match split_sep tl with
           | x :: xs => (c :: x) :: xs
           | [] => [[c]]
           end
  end.

(** [s.lstrip("/")] *)
Fixpoint lstrip_sep (s : str) : str :=
  match s with
  | c :: tl => if c =? SEP then lstrip_sep tl else s
  | [] => []
  end.

(** [splitroot]: the root ("", "/" or "//") and the rest.  Exactly two
    leading slashes are kept as they are, any other number is one. *)
Definition splitroot (part : str) : str * str :=
  match part with
  | c :: _ =>
      if c =? SEP then
        let stripped_part := lstrip_sep part in
        if (length part - length stripped_part =? 2)%nat
        then ([SEP; SEP], stripped_part)
        else ([SEP], stripped_part)
      else ([], part)
  | [] => ([], part)
  end.

(** A parsed path: its root and its other parts. *)
Record path := { p_root : str; p_parts : list str }.

Definition is_part (x : str) : bool :=
  match x with
  | [] => false
  | [c] => negb (c =? DOT)
  | _ => true
  end.

(** [PurePosixPath(s)]: empty components and "." are dropped. *)
Definition Path (s : str) : path :=
  let '(root, rel) := splitroot s in
  {| p_root := root; p_parts := filter is_part (split_sep rel) |}.

(** [p.name] *)
Definition name (p : path) : str := last (p_parts p) [].

(** [s.rfind(".")], counting from [i]; [None] for -1. *)
Fixpoint rfind_dot (i : nat) (s : str) (found : option nat) : option nat :=
  match s with
  | [] => found
  | c :: tl => rfind_dot (S i) tl (if c =? DOT then Some i else found)
  end.

(** [p.stem]: the name without its last suffix. *)
Definition stem (p : path) : str :=
  let name := name p in
  match rfind_dot 0 name None with
  | Some i => if (0 <? i)%nat && (i <? length name - 1)%nat then firstn i name else name
  | None => name
  end.

(** [p.parent] *)
Definition parent (p : path) : path :=
  {| p_root := p_root p; p_parts := removelast (p_parts p) |}.

Definition join_sep (parts : list str) : str :=
  match parts with
  | [] => []
  | x :: xs => x ++ flat_map (fun y => SEP :: y) xs
  end.

(** [str(p)] *)
Definition to_str (p : path) : str :=
  match p_root p, p_parts p with
  | [], [] => [DOT]
  | root, parts => root ++ join_sep parts
  end.

End PurePath.

(* ===================================================================== *)
(** * geoip_download.py *)
(* ===================================================================== *)

Module GeoIPDownload.
Import stdpp.base stdpp.gmap stdpp.strings.
Import PurePath.
Local Open Scope Z_scope.

Definition EDITIONS : list str :=
  [lit "GeoLite2-City"; lit "GeoLite2-Country"; lit "GeoLite2-ASN"].

(** The arguments of a call of [download_database]. *)
Record call := {
  c_account_id : str;
  c_license_key : str;
  c_edition : str;
  c_output_dir : str
}.

(** [a or b] and [not a] on an optional [str]: [None] and the empty
    string are false. *)
Definition or_else (a b : option str) : option str :=
  match a with
  | Some (_ :: _) => a
  | _ => b
  end.

Definition nonempty (a : option str) : option str :=
  match a with
  | Some (_ :: _) => a
  | _ => None
  end.

Section Download.
(** [os.path.exists], the environment, and what the [n]-th call of
    [download_database] returns for its arguments (a path, or [None] on
    failure). *)
Variable path_exists : str -> bool.
Variable env : gmap string str.
Variable download_database : nat -> call -> option str.

(** [ensure_database(db_path, account_id, license_key)]: the value
    returned and the calls of [download_database] made. *)
Definition ensure_database (db_path : str) (account_id license_key : option str)
  : bool * list call :=
  if path_exists db_path then (true, [])
  else
    (* Get credentials from environment if not provided *)
    let account_id := or_else account_id (env !! "MAXMIND_ACCOUNT_ID"%string) in
    let license_key := or_else license_key (env !! "MAXMIND_LICENSE_KEY"%string) in
    match nonempty account_id, nonempty license_key with
    | Some account_id, Some license_key =>
        (* Determine edition from path *)
        let path := Path db_path in
        let edition := stem path in
        let output_dir := to_str (parent path) in
        let c := {| c_account_id := account_id; c_license_key := license_key;
                    c_edition := edition; c_output_dir := output_dir |} in
        let result := download_database 0 c in
        (match result with Some _ => true | None => false end, [c])
    | _, _ => (false, [])
    end.

(** [results[edition] = path] on a dict kept as its items in insertion
    order. *)
Fixpoint results_set (results : list (str * option str)) (edition : str)
         (path : option str) : list (str * option str) :=
  match results with
  | [] => [(edition, path)]
  | (k, v) :: tl =>
      if GeoIP.str_eqb k edition then (k, path) :: tl
      else (k, v) :: results_set tl edition path
  end.

(** The loop of [download_all_databases], entered after [n] calls. *)
Fixpoint download_loop (account_id license_key output_dir : str) (editions : list str)
         (n : nat) (results : list (str * option str)) (calls : list call)
  : list (str * option str) * list call :=
  match editions with
  | [] => (results, calls)
  | edition :: rest =>
      let c := {| c_account_id := account_id; c_license_key := license_key;
                  c_edition := edition; c_output_dir := output_dir |} in
      let path := download_database n c in
      download_loop account_id license_key output_dir rest (S n)
                    (results_set results edition path) (calls ++ [c])
  end.

(** [download_all_databases(account_id, license_key, output_dir, editions)] *)
Definition download_all_databases (account_id license_key output_dir : str)
           (editions : option (list str)) : list (str * option str) * list call :=
  let editions := match editions with None => EDITIONS | Some l => l end in
  download_loop account_id license_key output_dir editions 0 [] [].

End Download.

End GeoIPDownload.

(* ********************************************************************* *)
(** * Properties *)
(* ********************************************************************* *)

Arguments double_sha256 : simpl never.
Arguments SHA256.sha256 : simpl never.

Lemma Ok_inj {A} (a b : A) : Ok a = Ok b -> a = b.
Proof.
  intros H.
  exact (f_equal (fun r => match r with Ok x => x | Raise _ => a end) H).
Qed.

Lemma Raise_inj {A} (e1 e2 : exn) : @Raise A e1 = Raise e2 -> e1 = e2.
Proof.
  intros H.
  exact (f_equal (fun r => match r with Ok _ => e1 | Raise e => e end) H).
Qed.

(* ===================================================================== *)
(** ** Lists, slices and byte strings *)
(* ===================================================================== *)

Section Slices.
Context {A : Type}.
Implicit Types a b l : list A.

Lemma len_app a b : len (a ++ b) = len a + len b.
Proof. unfold len. rewrite length_app. lia. Qed.

Lemma len_nonneg l : 0 <= len l.
Proof. unfold len. lia. Qed.

Lemma len_cons x l : len (x :: l) = 1 + len l.
Proof. unfold len. simpl length. lia. Qed.

Lemma len_nil : len (@nil A) = 0.
Proof. reflexivity. Qed.

(** A slice that starts at or after the end of a prefix is a slice of what follows it. *)
Lemma slice_app_r a b lo hi :
  len a <= lo -> slice (a ++ b) lo hi = slice b (lo - len a) (hi - len a).
Proof.
  intros Hlo. unfold slice, len in *.
  rewrite skipn_app.
  rewrite skipn_all2 by lia. simpl.
  f_equal; [lia|]. f_equal. lia.
Qed.

(** A slice that ends within a prefix is a slice of the prefix. *)
Lemma slice_app_l a b lo hi :
  0 <= lo -> hi <= len a -> slice (a ++ b) lo hi = slice a lo hi.
Proof.
  intros H0 Hhi. unfold slice, len in *.
  rewrite skipn_app, firstn_app.
  rewrite length_skipn.
  replace (Z.to_nat (hi - lo) - (length a - Z.to_nat lo))%nat with 0%nat by lia.
  simpl. apply app_nil_r.
Qed.

Lemma slice_all l hi : hi = len l -> slice l 0 hi = l.
Proof.
  intros ->. unfold slice, len. simpl.
  rewrite Z.sub_0_r, Nat2Z.id. apply firstn_all.
Qed.

Lemma slice_prefix a b hi : hi = len a -> slice (a ++ b) 0 hi = a.
Proof.
  intros ->. rewrite slice_app_l by (pose proof (len_nonneg a); lia).
  now apply slice_all.
Qed.

Lemma slice_from_app a b lo : lo = len a -> slice_from (a ++ b) lo = b.
Proof.
  intros ->. unfold slice_from, len. rewrite Nat2Z.id.
  rewrite skipn_app, skipn_all, Nat.sub_diag. reflexivity.
Qed.

Lemma length_slice l lo hi :
  0 <= lo -> lo <= hi -> hi <= len l -> length (slice l lo hi) = Z.to_nat (hi - lo).
Proof.
  intros. unfold slice, len in *. rewrite length_firstn, length_skipn. lia.
Qed.

Lemma len_slice l lo hi :
  0 <= lo -> lo <= hi -> hi <= len l -> len (slice l lo hi) = hi - lo.
Proof.
  intros. unfold len at 1. rewrite length_slice by assumption. lia.
Qed.

Lemma length_slice_le l lo hi : (length (slice l lo hi) <= Z.to_nat (hi - lo))%nat.
Proof. unfold slice. rewrite length_firstn. lia. Qed.

Lemma slice_nth_error l lo hi (i : nat) :
  0 <= lo -> Z.of_nat i < hi - lo ->
  nth_error (slice l lo hi) i = nth_error l (Z.to_nat lo + i).
Proof.
  intros. unfold slice.
  rewrite nth_error_firstn.
  destruct (Nat.ltb_spec i (Z.to_nat (hi - lo))); [|lia].
  apply nth_error_skipn.
Qed.

End Slices.

Lemma byte_eqb_refl x : Byte.eqb x x = true.
Proof. apply Byte.byte_dec_lb. reflexivity. Qed.

Lemma byte_eqb_eq x y : Byte.eqb x y = true <-> x = y.
Proof.
  split.
  - apply Byte.byte_dec_bl.
  - intros ->. apply byte_eqb_refl.
Qed.

Lemma bytes_eqb_eq a b : bytes_eqb a b = true <-> a = b.
Proof.
  revert b. induction a as [|x a IH]; intros [|y b]; simpl; split; intros H;
    try reflexivity; try discriminate.
  - apply andb_true_iff in H as [H1 H2].
    apply byte_eqb_eq in H1. apply IH in H2. congruence.
  - inversion H; subst. apply andb_true_iff. split.
    + apply byte_eqb_refl.
    + now apply IH.
Qed.

Lemma bytes_eqb_refl a : bytes_eqb a a = true.
Proof. now apply bytes_eqb_eq. Qed.

Lemma byte_unsigned_range b : 0 <= byte.unsigned b < 256.
Proof. apply byte.unsigned_range. Qed.

Lemma byte_unsigned_of_Z_small z : 0 <= z < 256 -> byte.unsigned (byte.of_Z z) = z.
Proof.
  intros. rewrite byte.unsigned_of_Z. unfold byte.wrap.
  apply Z.mod_small. lia.
Qed.

Lemma byte_of_Z_unsigned b : byte.of_Z (byte.unsigned b) = b.
Proof. apply byte.of_Z_unsigned. Qed.

Lemma length_zeros n : length (zeros n) = n.
Proof. apply repeat_length. Qed.

(* ===================================================================== *)
(** ** The [struct] formats *)
(* ===================================================================== *)

Lemma pack_le_ok n v :
  0 <= v < 2 ^ (8 * Z.of_nat n) -> Struct.pack_le n v = Ok (le_split n v).
Proof.
  intros [H1 H2]. unfold Struct.pack_le.
  destruct (Z.leb_spec 0 v); [|lia].
  destruct (Z.ltb_spec v (2 ^ (8 * Z.of_nat n))); [|lia]. reflexivity.
Qed.

Lemma pack_le_length n v b : Struct.pack_le n v = Ok b -> length b = n.
Proof.
  unfold Struct.pack_le. destruct (_ && _); [|discriminate].
  intros [= <-]. apply length_le_split.
Qed.

Lemma pack_le_inv n v b :
  Struct.pack_le n v = Ok b -> b = le_split n v /\ 0 <= v < 2 ^ (8 * Z.of_nat n).
Proof.
  unfold Struct.pack_le.
  destruct (Z.leb_spec 0 v); destruct (Z.ltb_spec v (2 ^ (8 * Z.of_nat n)));
    simpl; try discriminate.
  intros [= <-]. split; [reflexivity | lia].
Qed.

Lemma unpack_le_split n v :
  0 <= v < 2 ^ (8 * Z.of_nat n) -> Struct.unpack_le n (le_split n v) = Ok v.
Proof.
  intros H. unfold Struct.unpack_le.
  rewrite length_le_split, Nat.eqb_refl, le_combine_split.
  f_equal. apply Z.mod_small. rewrite Z.mul_comm. exact H.
Qed.

Lemma unpack_le_ok n b :
  length b = n -> Struct.unpack_le n b = Ok (le_combine b).
Proof. intros H. unfold Struct.unpack_le. rewrite H, Nat.eqb_refl. reflexivity. Qed.

Lemma unpack_be16_ok b :
  length b = 2%nat -> Struct.unpack_be16 b = Ok (le_combine (rev b)).
Proof. intros H. unfold Struct.unpack_be16. rewrite H. reflexivity. Qed.

Lemma pack_be16_inv v b :
  Struct.pack_be16 v = Ok b -> b = rev (le_split 2 v) /\ 0 <= v < 2 ^ 16.
Proof.
  unfold Struct.pack_be16.
  destruct (Z.leb_spec 0 v); destruct (Z.ltb_spec v (2 ^ 16)); simpl; try discriminate.
  intros [= <-]. split; [reflexivity | lia].
Qed.

Lemma unpack_be16_pack v b :
  Struct.pack_be16 v = Ok b -> Struct.unpack_be16 b = Ok v.
Proof.
  intros H. apply pack_be16_inv in H as [-> Hv].
  unfold Struct.unpack_be16. rewrite length_rev, length_le_split. simpl Nat.eqb.
  cbv iota. rewrite rev_involutive, le_combine_split.
  f_equal. apply Z.mod_small. simpl. lia.
Qed.

Lemma pack_q_inv v b :
  Struct.pack_q v = Ok b -> b = le_split 8 (v mod 2 ^ 64) /\ - 2 ^ 63 <= v < 2 ^ 63.
Proof.
  unfold Struct.pack_q.
  destruct (Z.leb_spec (- 2 ^ 63) v); destruct (Z.ltb_spec v (2 ^ 63)); simpl;
    try discriminate.
  intros [= <-]. split; [reflexivity | lia].
Qed.

Lemma unpack_q_pack v b :
  Struct.pack_q v = Ok b -> Struct.unpack_q b = Ok v.
Proof.
  intros H. apply pack_q_inv in H as [-> Hv].
  unfold Struct.unpack_q, Struct.signed64. rewrite length_le_split. simpl Nat.eqb. cbv iota zeta.
  rewrite le_combine_split. change (Z.of_nat 8 * 8) with 64.
  rewrite Z.mod_mod by lia. f_equal.
  destruct (Z.ltb_spec (v mod 2 ^ 64) (2 ^ 63)) as [H|H].
  - destruct (Z.leb_spec 0 v) as [H0|H0].
    + apply Z.mod_small. lia.
    + rewrite <- (Z.mod_add v 1 (2 ^ 64)) in H by lia.
      rewrite Z.mod_small in H by lia. lia.
  - destruct (Z.leb_spec 0 v) as [H0|H0].
    + rewrite Z.mod_small in H by lia. lia.
    + rewrite <- (Z.mod_add v 1 (2 ^ 64)) by lia.
      rewrite Z.mod_small by lia. lia.
Qed.

(** A digest has 32 bytes. *)
Lemma sha256_length m : length (SHA256.sha256 m) = 32%nat.
Proof.
  unfold SHA256.sha256. cbv zeta.
  set (h := fold_left _ _ _). clearbody h.
  cbn [flat_map]. rewrite !length_app.
  unfold SHA256.be_split. rewrite !length_rev, !length_le_split. reflexivity.
Qed.

Lemma checksum_length payload : length (slice (double_sha256 payload) 0 4) = 4%nat.
Proof.
  rewrite length_slice; try lia.
  unfold len, double_sha256. rewrite sha256_length. lia.
Qed.

(** The constants, first and last, and the standard test vectors. *)
Example sha256_constants :
  hd 0 SHA256.K = 0x428a2f98 /\ last SHA256.K 0 = 0xc67178f2
  /\ length SHA256.K = 64%nat
  /\ hd 0 SHA256.init_words = 0x6a09e667 /\ last SHA256.init_words 0 = 0x5be0cd19.
Proof. vm_compute. repeat split; reflexivity. Qed.


Example sha256_empty :
  map byte.unsigned (SHA256.sha256 []) =
  [0xe3; 0xb0; 0xc4; 0x42; 0x98; 0xfc; 0x1c; 0x14; 0x9a; 0xfb; 0xf4; 0xc8; 0x99; 0x6f; 0xb9; 0x24;
   0x27; 0xae; 0x41; 0xe4; 0x64; 0x9b; 0x93; 0x4c; 0xa4; 0x95; 0x99; 0x1b; 0x78; 0x52; 0xb8; 0x55].
Proof. vm_compute. reflexivity. Qed.

Example sha256_abc :
  map byte.unsigned (SHA256.sha256 (list_byte_of_string "abc")) =
  [0xba; 0x78; 0x16; 0xbf; 0x8f; 0x01; 0xcf; 0xea; 0x41; 0x41; 0x40; 0xde; 0x5d; 0xae; 0x22; 0x23;
   0xb0; 0x03; 0x61; 0xa3; 0x96; 0x17; 0x7a; 0x9c; 0xb4; 0x10; 0xff; 0x61; 0xf2; 0x00; 0x15; 0xad].
Proof. vm_compute. reflexivity. Qed.

(** Two blocks: "abcdbcdecdefdefgefghfghighijhijkijkljklmklmnlmnomnopnopq". *)
Example sha256_two_blocks :
  map byte.unsigned
      (SHA256.sha256
         (list_byte_of_string "abcdbcdecdefdefgefghfghighijhijkijkljklmklmnlmnomnopnopq")) =
  [0x24; 0x8d; 0x6a; 0x61; 0xd2; 0x06; 0x38; 0xb8; 0xe5; 0xc0; 0x26; 0x93; 0x0c; 0x3e; 0x60; 0x39;
   0xa3; 0x3c; 0xe4; 0x59; 0x64; 0xff; 0x21; 0x67; 0xf6; 0xec; 0xed; 0xd4; 0x19; 0xdb; 0x06; 0xc1].
Proof. vm_compute. reflexivity. Qed.
(* ===================================================================== *)
(** ** Numerals and [int()] *)
(* ===================================================================== *)

Section Numerals.
Import Text.
Variable base : Z.
Hypothesis base_ge_2 : 2 <= base.

Lemma numeral_fuel_acc fuel n acc :
  numeral_fuel fuel base n acc = numeral_fuel fuel base n [] ++ acc.
Proof.
  revert n acc. induction fuel as [|f IH]; intros n acc; [reflexivity|].
  simpl. destruct (n <? base); [reflexivity|].
  rewrite IH. rewrite (IH _ [_]). rewrite <- app_assoc. reflexivity.
Qed.

Lemma numeral_fuel_S f n acc :
  numeral_fuel (S f) base n acc =
    if n <? base then digit_char (n mod base) :: acc
    else numeral_fuel f base (n / base) (digit_char (n mod base) :: acc).
Proof. reflexivity. Qed.

Lemma div_base_lt n k :
  0 <= n < 2 * 2 ^ k -> 0 <= k -> 0 <= n / base < 2 ^ k.
Proof.
  intros Hn Hk.
  assert (n / base <= n / 2) by (apply Z.div_le_compat_l; lia).
  assert (0 <= n / base) by (apply Z.div_pos; lia).
  assert (n / 2 < 2 ^ k) by (apply Z.div_lt_upper_bound; lia).
  lia.
Qed.

(** Fuel beyond the binary length of [n] is never used. *)
Lemma numeral_fuel_enough f1 : forall f2 n acc,
  0 <= n < 2 ^ Z.of_nat (S f1) -> n < 2 ^ Z.of_nat (S f2) ->
  numeral_fuel (S f1) base n acc = numeral_fuel (S f2) base n acc.
Proof.
  induction f1 as [|f1 IH]; intros f2 n acc H1 H2.
  - rewrite !numeral_fuel_S.
    destruct (Z.ltb_spec n base); [reflexivity | simpl in H1; lia].
  - rewrite (numeral_fuel_S (S f1)), (numeral_fuel_S f2).
    destruct (Z.ltb_spec n base) as [Hlt|Hge]; [reflexivity|].
    destruct f2 as [|f2].
    { simpl in H2. lia. }
    rewrite Nat2Z.inj_succ, Z.pow_succ_r in H1, H2 by lia.
    apply IH.
    + apply div_base_lt; lia.
    + apply div_base_lt; lia.
Qed.

Lemma numeral_small n : 0 <= n < base -> numeral base n = [digit_char n].
Proof.
  intros Hn. unfold numeral. rewrite numeral_fuel_S.
  destruct (Z.ltb_spec n base); [|lia].
  rewrite Z.mod_small by lia. reflexivity.
Qed.

Lemma numeral_step n :
  base <= n -> numeral base n = numeral base (n / base) ++ [digit_char (n mod base)].
Proof.
  intros Hn. unfold numeral.
  assert (Hlog : 1 <= Z.log2 n) by (apply Z.log2_le_pow2; simpl; lia).
  assert (Hn2 : n < 2 ^ Z.succ (Z.log2 n)) by (apply Z.log2_spec; lia).
  rewrite Z.pow_succ_r in Hn2 by lia.
  rewrite numeral_fuel_S. destruct (Z.ltb_spec n base); [lia|].
  rewrite numeral_fuel_acc. f_equal.
  destruct (Z.to_nat (Z.log2 n)) as [|f] eqn:Ef; [lia|].
  assert (Hq : 1 <= n / base).
  { apply Z.div_le_lower_bound; lia. }
  apply numeral_fuel_enough.
  - replace (Z.of_nat (S f)) with (Z.log2 n) by lia.
    apply div_base_lt; lia.
  - rewrite Nat2Z.inj_succ, Z2Nat.id by apply Z.log2_nonneg.
    apply Z.log2_spec. lia.
Qed.

(** Induction along the digits of a number. *)
Lemma numeral_ind (P : Z -> Prop) :
  (forall n, 0 <= n < base -> P n) ->
  (forall n, base <= n -> P (n / base) -> P n) ->
  forall n, 0 <= n -> P n.
Proof.
  intros Hs Hb n Hn. revert n Hn.
  apply (Zlt_0_ind P). intros n IH Hn.
  destruct (Z.ltb_spec n base) as [Hlt|Hge].
  - apply Hs. lia.
  - apply Hb; [lia|]. apply IH. split.
    + apply Z.div_pos; lia.
    + apply Z.div_lt; lia.
Qed.

End Numerals.

Section Decimal.
Import Text.

Lemma is_digit_iff c : is_digit c = true <-> 48 <= c <= 57.
Proof. unfold is_digit. rewrite andb_true_iff, Z.leb_le, Z.leb_le. tauto. Qed.

Lemma digit_char_dec d : 0 <= d < 10 -> digit_char d = 48 + d.
Proof. intros H. unfold digit_char. destruct (Z.ltb_spec d 10); [reflexivity | lia]. Qed.

Lemma digits_of_small n : 0 <= n < 10 -> digits_of n = [48 + n].
Proof.
  intros H. unfold digits_of. rewrite numeral_small by lia.
  now rewrite digit_char_dec.
Qed.

Lemma digits_of_step n :
  10 <= n -> digits_of n = digits_of (n / 10) ++ [48 + n mod 10].
Proof.
  intros H. unfold digits_of. rewrite numeral_step by lia.
  rewrite digit_char_dec by (apply Z.mod_pos_bound; lia). reflexivity.
Qed.

(** Appending a digit to the numeral of a positive number. *)
Lemma digits_of_snoc n d :
  1 <= n -> 0 <= d < 10 -> digits_of (n * 10 + d) = digits_of n ++ [48 + d].
Proof.
  intros Hn Hd. rewrite digits_of_step by lia.
  replace ((n * 10 + d) / 10) with n
    by (apply Z.div_unique with d; lia).
  replace ((n * 10 + d) mod 10) with d
    by (apply Z.mod_unique with n; lia).
  reflexivity.
Qed.

Lemma digits_of_all_digits n : 0 <= n -> all_digits (digits_of n).
Proof.
  revert n. apply (numeral_ind 10 ltac:(lia)); intros n Hn.
  - rewrite digits_of_small by lia. constructor; [lia | constructor].
  - intros IH. rewrite digits_of_step by lia.
    apply Forall_app. split; [exact IH|].
    pose proof (Z.mod_pos_bound n 10 ltac:(lia)).
    constructor; [lia | constructor].
Qed.

Lemma digits_of_nonempty n : 0 <= n -> digits_of n <> [].
Proof.
  intros Hn. destruct (Z.ltb_spec n 10).
  - rewrite digits_of_small by lia. discriminate.
  - rewrite digits_of_step by lia. intros E. now apply app_eq_nil in E as [_ E].
Qed.

Lemma decimal_value_digits n : 0 <= n -> decimal_value (digits_of n) 0 = n.
Proof.
  revert n. apply (numeral_ind 10 ltac:(lia)); intros n Hn.
  - rewrite digits_of_small by lia. simpl. lia.
  - intros IH. rewrite digits_of_step by lia.
    unfold decimal_value in *. rewrite fold_left_app, IH. simpl.
    pose proof (Z.div_mod n 10 ltac:(lia)). lia.
Qed.

Lemma scan_all_digits s : forall acc prev,
  all_digits s -> (s <> [] \/ is_digit prev = true) ->
  scan_digits s acc prev = Some (decimal_value s acc).
Proof.
  induction s as [|c s IH]; intros acc prev Hs Hne.
  - destruct Hne as [Hne|Hp]; [congruence|]. simpl. rewrite Hp. reflexivity.
  - inversion Hs as [|? ? Hc Hs']; subst.
    cbn [scan_digits]. rewrite (proj2 (is_digit_iff c) Hc).
    apply IH; [assumption|]. right. now apply is_digit_iff.
Qed.

(** [int(str(z)) == z] *)
Lemma int_of_str_of_int z : int_of_str (str_of_int z) = Ok z.
Proof.
  unfold int_of_str, str_of_int.
  destruct (Z.ltb_spec z 0) as [Hneg|Hpos].
  - cbn [lstrip]. change (is_space 45) with false. cbv iota.
    cbn [split_sign]. change (45 =? 43) with false. change (45 =? 45) with true.
    cbv iota.
    rewrite scan_all_digits.
    + rewrite decimal_value_digits by lia. f_equal. lia.
    + apply digits_of_all_digits. lia.
    + left. apply digits_of_nonempty. lia.
  - pose proof (digits_of_all_digits z Hpos) as Hd.
    pose proof (digits_of_nonempty z Hpos) as Hne.
    destruct (digits_of z) as [|c s] eqn:E; [congruence|].
    inversion Hd as [|? ? Hc Hs]; subst.
    assert (Hsp : is_space c = false).
    { unfold is_space. destruct (Z.leb_spec 9 c); destruct (Z.leb_spec c 13);
        destruct (Z.eqb_spec c 32); simpl; try reflexivity; lia. }
    cbn [lstrip]. rewrite Hsp. cbn [split_sign].
    destruct (Z.eqb_spec c 43); [lia|]. destruct (Z.eqb_spec c 45); [lia|].
    rewrite scan_all_digits by (auto; left; discriminate).
    rewrite <- E, decimal_value_digits by lia. f_equal. lia.
Qed.

End Decimal.

(* ===================================================================== *)
(** ** Dotted quads *)
(* ===================================================================== *)

Section DottedQuad.
Import Text Socket.

Lemma inet_ntoa_ok b : length b = 4%nat -> inet_ntoa b = Ok (ntoa b).
Proof.
  destruct b as [|b0 [|b1 [|b2 [|b3 [|b4 b]]]]]; try discriminate.
  reflexivity.
Qed.

Lemma rendered_digit done cur sd ch :
  (sd = false -> cur = 0) -> 0 <= cur ->
  48 <= ch <= 57 ->
  (sd = true -> cur <> 0) ->
  rendered done cur sd ++ [ch] = rendered done (cur * 10 + (ch - 48)) true.
Proof.
  intros H0 Hc Hch Hnz. unfold rendered. rewrite <- app_assoc. f_equal.
  destruct sd.
  - rewrite digits_of_snoc by (try lia; specialize (Hnz eq_refl); lia).
    f_equal. f_equal. lia.
  - rewrite (H0 eq_refl). simpl Z.add.
    rewrite digits_of_small by lia. simpl. f_equal. lia.
Qed.

Lemma rendered_dot done cur :
  rendered done cur true ++ [DOT] = rendered (done ++ [cur]) 0 false.
Proof.
  unfold rendered. rewrite flat_map_app. simpl.
  rewrite !app_nil_r, <- app_assoc. reflexivity.
Qed.

(** What the scanner accepts is the text of the octets it returns: four
    octets, written without leading zeros and separated by dots. *)
Lemma pton4_loop_sound src : forall done cur sd r,
  (sd = false -> cur = 0) -> octet cur -> Forall octet done ->
  pton4_loop src done cur sd = Some r ->
  exists a b c d,
    r = [a; b; c; d] /\ Forall octet r
    /\ rendered done cur sd ++ src = dotted a b c d.
Proof.
  induction src as [|ch tl IH]; intros done cur sd r H0 Hcur Hdone.
  - cbn [pton4_loop]. destruct sd; [|discriminate].
    destruct (Nat.eqb_spec (length done) 3) as [Hl|]; [|discriminate].
    intros [= <-].
    destruct done as [|a [|b [|c [|? ?]]]]; try discriminate.
    exists a, b, c, cur. split; [reflexivity|]. split.
    + apply Forall_app. split; [assumption | constructor; [assumption | constructor]].
    + unfold rendered, dotted. simpl. rewrite app_nil_r, <- !app_assoc. reflexivity.
  - cbn [pton4_loop]. destruct (is_digit ch) eqn:Ed.
    + apply is_digit_iff in Ed.
      destruct (sd && (cur =? 0)) eqn:E1; [discriminate|].
      destruct (Z.ltb_spec 255 (cur * 10 + (ch - 48))) as [|Hnew]; [discriminate|].
      destruct (negb sd && Nat.leb 4 (length done)); [discriminate|].
      intros Hr. unfold octet in Hcur.
      apply IH in Hr; try assumption; try discriminate; [|unfold octet; lia].
      destruct Hr as (a & b & c & d & -> & Hoct & Hren).
      exists a, b, c, d. repeat split; try assumption.
      rewrite <- Hren, <- (rendered_digit done cur sd ch); try assumption; try lia.
      * rewrite <- app_assoc. reflexivity.
      * intros ->. simpl in E1. now apply Z.eqb_neq in E1.
    + destruct ((ch =? DOT) && sd) eqn:E2; [|discriminate].
      apply andb_true_iff in E2 as [Hdot ->]. apply Z.eqb_eq in Hdot. subst ch.
      destruct (Nat.eqb (length done) 3); [discriminate|].
      intros Hr. apply IH in Hr; try reflexivity.
      * destruct Hr as (a & b & c & d & -> & Hoct & Hren).
        exists a, b, c, d. repeat split; try assumption.
        rewrite <- Hren, <- (rendered_dot done cur), <- app_assoc. reflexivity.
      * unfold octet. lia.
      * apply Forall_app. split; [assumption | constructor; [assumption | constructor]].
Qed.

Lemma pton4_sound s b :
  pton4 s = Some b -> length b = 4%nat /\ ntoa b = s.
Proof.
  unfold pton4. destruct (pton4_loop s [] 0 false) as [r|] eqn:E; [|discriminate].
  intros [= <-].
  apply pton4_loop_sound in E; try reflexivity; [| unfold octet; lia | constructor].
  destruct E as (a & b & c & d & -> & Hoct & Hren).
  split; [reflexivity|].
  unfold ntoa. cbn [map inet_ntoa].
  repeat match goal with
         | H : Forall octet (_ :: _) |- _ => inversion H; clear H; subst
         end.
  unfold octet in *.
  rewrite !byte_unsigned_of_Z_small by lia.
  rewrite <- Hren. reflexivity.
Qed.

(** [inet_ntoa(inet_pton(AF_INET, s)) == s] *)
Lemma inet_ntoa_pton4 s b :
  inet_pton4 s = Ok b -> length b = 4%nat /\ inet_ntoa b = Ok s.
Proof.
  unfold inet_pton4. destruct (has_nul s); [discriminate|].
  destruct (pton4 s) as [b'|] eqn:E; [|discriminate].
  intros [= <-]. destruct (pton4_sound _ _ E) as [Hl Hn].
  split; [exact Hl|]. rewrite inet_ntoa_ok by exact Hl. now rewrite Hn.
Qed.

End DottedQuad.
(* ===================================================================== *)
(** ** UTF-8 *)
(* ===================================================================== *)

Section UTF8.
Import Text.

Ltac cmp_cases :=
  repeat match goal with
         | |- context [Z.ltb ?a ?b] => destruct (Z.ltb_spec a b); try lia
         | |- context [Z.leb ?a ?b] => destruct (Z.leb_spec a b); try lia
         | |- context [Z.eqb ?a ?b] => destruct (Z.eqb_spec a b); try lia
         end.

Lemma decode_ascii_byte x tl :
  byte.unsigned x < 0x80 ->
  decode_utf8_replace (x :: tl) = byte.unsigned x :: decode_utf8_replace tl.
Proof.
  intros H. cbn [decode_utf8_replace]. cbv zeta.
  destruct (Z.ltb_spec (byte.unsigned x) 0x80); [reflexivity | lia].
Qed.

Lemma decode_two x x2 tl :
  0xC2 <= byte.unsigned x < 0xE0 -> 0x80 <= byte.unsigned x2 < 0xC0 ->
  decode_utf8_replace (x :: x2 :: tl) =
    ((byte.unsigned x - 0xC0) * 64 + (byte.unsigned x2 - 0x80))
      :: decode_utf8_replace tl.
Proof.
  intros H1 H2. cbn [decode_utf8_replace]. cbv zeta. unfold is_cont.
  cmp_cases. reflexivity.
Qed.

Lemma decode_three x x2 x3 tl :
  0xE0 <= byte.unsigned x < 0xF0 ->
  0x80 <= byte.unsigned x2 < 0xC0 ->
  (byte.unsigned x = 0xE0 -> 0xA0 <= byte.unsigned x2) ->
  (byte.unsigned x = 0xED -> byte.unsigned x2 < 0xA0) ->
  0x80 <= byte.unsigned x3 < 0xC0 ->
  decode_utf8_replace (x :: x2 :: x3 :: tl) =
    ((byte.unsigned x - 0xE0) * 4096 + (byte.unsigned x2 - 0x80) * 64
     + (byte.unsigned x3 - 0x80)) :: decode_utf8_replace tl.
Proof.
  intros H1 H2 Ha Hb H3. cbn [decode_utf8_replace]. cbv zeta.
  unfold bad_second3, is_cont.
  cmp_cases; reflexivity.
Qed.

Lemma decode_four x x2 x3 x4 tl :
  0xF0 <= byte.unsigned x < 0xF5 ->
  0x80 <= byte.unsigned x2 < 0xC0 ->
  (byte.unsigned x = 0xF0 -> 0x90 <= byte.unsigned x2) ->
  (byte.unsigned x = 0xF4 -> byte.unsigned x2 < 0x90) ->
  0x80 <= byte.unsigned x3 < 0xC0 ->
  0x80 <= byte.unsigned x4 < 0xC0 ->
  decode_utf8_replace (x :: x2 :: x3 :: x4 :: tl) =
    ((byte.unsigned x - 0xF0) * 262144 + (byte.unsigned x2 - 0x80) * 4096
     + (byte.unsigned x3 - 0x80) * 64 + (byte.unsigned x4 - 0x80))
      :: decode_utf8_replace tl.
Proof.
  intros H1 H2 Ha Hb H3 H4. cbn [decode_utf8_replace]. cbv zeta.
  unfold bad_second4, is_cont.
  cmp_cases; reflexivity.
Qed.

Lemma decode_encode_three c tl :
  0x800 <= c < 0x10000 -> ~ (0xD800 <= c < 0xE000) ->
  decode_utf8_replace
    (byte.of_Z (0xE0 + c / 4096) :: byte.of_Z (0x80 + (c / 64) mod 64)
       :: byte.of_Z (0x80 + c mod 64) :: tl) = c :: decode_utf8_replace tl.
Proof.
  intros Hc Hs.
  pose proof (Z.div_mod c 64 ltac:(lia)) as E1.
  pose proof (Z.mod_pos_bound c 64 ltac:(lia)) as Hr1.
  pose proof (Z.div_mod (c / 64) 64 ltac:(lia)) as E2.
  pose proof (Z.mod_pos_bound (c / 64) 64 ltac:(lia)) as Hr2.
  assert (E3 : c / 4096 = c / 64 / 64) by (rewrite Z.div_div by lia; reflexivity).
  assert (Hq : 0 <= c / 4096 < 16)
    by (split; [apply Z.div_pos | apply Z.div_lt_upper_bound]; lia).
  rewrite decode_three; rewrite !byte_unsigned_of_Z_small by lia; try lia.
  f_equal. lia.
Qed.

Lemma decode_encode_four c tl :
  0x10000 <= c < 0x110000 ->
  decode_utf8_replace
    (byte.of_Z (0xF0 + c / 262144) :: byte.of_Z (0x80 + (c / 4096) mod 64)
       :: byte.of_Z (0x80 + (c / 64) mod 64) :: byte.of_Z (0x80 + c mod 64) :: tl)
  = c :: decode_utf8_replace tl.
Proof.
  intros Hc.
  pose proof (Z.div_mod c 64 ltac:(lia)) as E1.
  pose proof (Z.mod_pos_bound c 64 ltac:(lia)) as Hr1.
  pose proof (Z.div_mod (c / 64) 64 ltac:(lia)) as E2.
  pose proof (Z.mod_pos_bound (c / 64) 64 ltac:(lia)) as Hr2.
  pose proof (Z.div_mod (c / 4096) 64 ltac:(lia)) as E3.
  pose proof (Z.mod_pos_bound (c / 4096) 64 ltac:(lia)) as Hr3.
  assert (E4 : c / 4096 = c / 64 / 64) by (rewrite Z.div_div by lia; reflexivity).
  assert (E5 : c / 262144 = c / 4096 / 64) by (rewrite Z.div_div by lia; reflexivity).
  assert (Hq : 0 <= c / 262144 < 5)
    by (split; [apply Z.div_pos | apply Z.div_lt_upper_bound]; lia).
  rewrite decode_four; rewrite !byte_unsigned_of_Z_small by lia; try lia.
  f_equal. lia.
Qed.

(** Decoding what [encode] wrote for one code point gives it back. *)
Lemma decode_encode_char c bs rest :
  encode_utf8_char c = Ok bs ->
  decode_utf8_replace (bs ++ rest) = c :: decode_utf8_replace rest.
Proof.
  unfold encode_utf8_char.
  destruct (Z.ltb_spec c 0); [discriminate|].
  destruct (Z.ltb_spec c 0x80).
  { intros [= <-]. cbn [app]. rewrite decode_ascii_byte;
      rewrite byte_unsigned_of_Z_small by lia; [reflexivity | lia]. }
  destruct (Z.ltb_spec c 0x800).
  { intros [= <-]. cbn [app].
    pose proof (Z.div_mod c 64 ltac:(lia)) as E.
    pose proof (Z.mod_pos_bound c 64 ltac:(lia)) as Hr.
    assert (Hq : 2 <= c / 64 < 32)
      by (split; [apply Z.div_le_lower_bound | apply Z.div_lt_upper_bound]; lia).
    rewrite decode_two; rewrite !byte_unsigned_of_Z_small by lia; try lia.
    f_equal. lia. }
  destruct ((0xD800 <=? c) && (c <? 0xE000)) eqn:Hsur; [discriminate|].
  assert (~ (0xD800 <= c < 0xE000)).
  { intros [Ha Hb]. apply Z.leb_le in Ha. apply Z.ltb_lt in Hb.
    rewrite Ha, Hb in Hsur. discriminate. }
  destruct (Z.ltb_spec c 0x10000).
  { intros [= <-]. cbn [app]. apply decode_encode_three; [lia | assumption]. }
  destruct (Z.ltb_spec c 0x110000); [|discriminate].
  intros [= <-]. cbn [app]. apply decode_encode_four; lia.
Qed.

(** [s.encode("utf-8").decode("utf-8", errors="replace") == s] *)
Lemma decode_encode_utf8 s : forall b rest,
  encode_utf8 s = Ok b ->
  decode_utf8_replace (b ++ rest) = s ++ decode_utf8_replace rest.
Proof.
  induction s as [|c s IH]; intros b rest.
  - intros [= <-]. reflexivity.
  - cbn [encode_utf8].
    destruct (encode_utf8_char c) as [bc|] eqn:Ec; cbn [bind]; [|discriminate].
    destruct (encode_utf8 s) as [bs|] eqn:Es; cbn [bind]; [|discriminate].
    intros [= <-]. rewrite <- app_assoc.
    rewrite (decode_encode_char _ _ _ Ec), (IH bs rest eq_refl). reflexivity.
Qed.

End UTF8.
(* ===================================================================== *)
(** ** Message framing: [create_message] and [parse_message] *)
(* ===================================================================== *)

Lemma encode_ascii_ok s : ascii_str s -> encode_ascii s = Ok (map byte.of_Z s).
Proof.
  induction 1 as [|c s Hc _ IH]; [reflexivity|].
  simpl. destruct (Z.leb_spec 0 c); [|lia]. destruct (Z.ltb_spec c 128); [|lia].
  simpl. rewrite IH. reflexivity.
Qed.

Lemma encode_ascii_inv s b :
  encode_ascii s = Ok b -> ascii_str s /\ b = map byte.of_Z s.
Proof.
  revert b. induction s as [|c s IH]; simpl; intros b H.
  - inversion H. split; [constructor | reflexivity].
  - destruct (Z.leb_spec 0 c); destruct (Z.ltb_spec c 128); simpl in H; try discriminate.
    destruct (encode_ascii s) as [r|] eqn:E; simpl in H; [|discriminate].
    inversion H; subst. destruct (IH r eq_refl) as [Hs ->].
    split; [constructor; [lia | assumption] | reflexivity].
Qed.

Lemma decode_ascii_encode s : ascii_str s -> decode_ascii (map byte.of_Z s) = Ok s.
Proof.
  induction 1 as [|c s Hc _ IH]; [reflexivity|].
  simpl. rewrite byte_unsigned_of_Z_small by lia.
  destruct (Z.ltb_spec c 128); [|lia]. rewrite IH. reflexivity.
Qed.

Lemma rstrip0_zeros k : rstrip0 (zeros k) = [].
Proof. induction k as [|k IH]; [reflexivity|]. simpl. unfold zeros in IH. rewrite IH. reflexivity. Qed.

Lemma rstrip0_app_zeros b k : rstrip0 (b ++ zeros k) = rstrip0 b.
Proof.
  induction b as [|x b IH]; simpl.
  - apply rstrip0_zeros.
  - rewrite IH. reflexivity.
Qed.

(** Stripping leaves alone a byte string that does not end in a zero byte. *)
Lemma rstrip0_id b : last b Byte.x01 <> Byte.x00 -> rstrip0 b = b.
Proof.
  induction b as [|x b IH]; [reflexivity|].
  intros H. destruct b as [|y b].
  - simpl in *. destruct (Byte.eqb x Byte.x00) eqn:E; [|reflexivity].
    apply byte_eqb_eq in E. contradiction.
  - change (last (x :: y :: b) Byte.x01) with (last (y :: b) Byte.x01) in H.
    change (rstrip0 (x :: y :: b)) with
      (match rstrip0 (y :: b) with
       | [] => if Byte.eqb x Byte.x00 then [] else [x]
       | tl' => x :: tl'
       end).
    rewrite (IH H). reflexivity.
Qed.

Lemma last_map_default {A B} (f : A -> B) (l : list A) (d : A) :
  last (map f l) (f d) = f (last l d).
Proof.
  induction l as [|x l IH]; [reflexivity|].
  destruct l; [reflexivity | exact IH].
Qed.

Lemma last_encoded_nonzero s :
  ascii_str s -> last s 1 <> 0 -> last (map byte.of_Z s) Byte.x01 <> Byte.x00.
Proof.
  intros Hs Hl.
  change Byte.x01 with (byte.of_Z 1). rewrite last_map_default.
  assert (Hr : 0 <= last s 1 < 128).
  { clear Hl. induction Hs as [|c s Hc Hs IH]; [simpl; lia|].
    destruct s; [simpl; lia | exact IH]. }
  intros E. apply (f_equal byte.unsigned) in E.
  rewrite byte_unsigned_of_Z_small in E by lia.
  change (byte.unsigned Byte.x00) with 0 in E. contradiction.
Qed.

(** Where the fields of a frame lie. *)
Lemma slice_mid {A} (a b c : list A) lo hi :
  lo = len a -> hi = len a + len b -> slice (a ++ b ++ c) lo hi = b.
Proof.
  intros -> ->. rewrite slice_app_r by lia.
  rewrite Z.sub_diag. apply slice_prefix. lia.
Qed.

Lemma frame_layout (magic cmd lenb cs payload rest : bytes) :
  length magic = 4%nat -> length cmd = 12%nat -> length lenb = 4%nat ->
  length cs = 4%nat ->
  let data := (magic ++ cmd ++ lenb ++ cs ++ payload) ++ rest in
  len data = 24 + len payload + len rest
  /\ slice data 0 4 = magic
  /\ slice data 4 16 = cmd
  /\ slice data 16 20 = lenb
  /\ slice data 20 24 = cs
  /\ slice data 24 (24 + len payload) = payload
  /\ slice_from data (24 + len payload) = rest.
Proof.
  intros Hm Hc Hl Hs data.
  assert (Lm : len magic = 4) by (unfold len; lia).
  assert (Lc : len cmd = 12) by (unfold len; lia).
  assert (Ll : len lenb = 4) by (unfold len; lia).
  assert (Ls : len cs = 4) by (unfold len; lia).
  repeat split.
  - unfold data. rewrite !len_app. lia.
  - unfold data. rewrite <- !app_assoc. apply slice_prefix. lia.
  - unfold data. rewrite <- !app_assoc. apply slice_mid; lia.
  - replace data with ((magic ++ cmd) ++ lenb ++ (cs ++ payload ++ rest))
      by (unfold data; rewrite <- !app_assoc; reflexivity).
    apply slice_mid; rewrite ?len_app; lia.
  - replace data with ((magic ++ cmd ++ lenb) ++ cs ++ (payload ++ rest))
      by (unfold data; rewrite <- !app_assoc; reflexivity).
    apply slice_mid; rewrite ?len_app; lia.
  - replace data with ((magic ++ cmd ++ lenb ++ cs) ++ payload ++ rest)
      by (unfold data; rewrite <- !app_assoc; reflexivity).
    apply slice_mid; rewrite ?len_app; lia.
  - apply slice_from_app. rewrite !len_app. lia.
Qed.

(** What [parse_message] does once the header is there, the magic right
    and the command field ASCII: the declared length is only compared with
    the bytes at hand, then the checksum decides. *)
Lemma parse_message_header data magic command :
  24 <= len data ->
  slice data 0 4 = magic ->
  decode_ascii (rstrip0 (slice data 4 16)) = Ok command ->
  let length := le_combine (slice data 16 20) in
  parse_message data magic =
    if len data <? 24 + length then Raise (ValueError "Incomplete message")
    else if bytes_eqb (slice (double_sha256 (slice data 24 (24 + length))) 0 4)
                      (slice data 20 24)
         then Ok (command, slice data 24 (24 + length), slice_from data (24 + length))
         else Raise (ValueError "Invalid checksum").
Proof.
  intros Hlen Hmagic Hcmd length0. unfold parse_message.
  destruct (Z.ltb_spec (len data) 24); [lia|].
  rewrite Hmagic, bytes_eqb_refl. cbn [negb].
  rewrite Hcmd. cbn [bind].
  rewrite unpack_le_ok by (rewrite length_slice; lia). cbn [bind].
  fold length0.
  destruct (len data <? 24 + length0); [reflexivity|].
  destruct (bytes_eqb _ _); reflexivity.
Qed.

(** The only exceptions of [parse_message]. *)
Lemma parse_message_raises data magic e :
  parse_message data magic = Raise e ->
  e = ValueError "Message too short" \/ e = ValueError "Invalid magic bytes"
  \/ e = UnicodeDecodeError \/ e = ValueError "Incomplete message"
  \/ e = ValueError "Invalid checksum".
Proof.
  unfold parse_message.
  destruct (Z.ltb_spec (len data) 24); [intros [= <-]; auto|].
  destruct (negb _); [intros [= <-]; auto|].
  destruct (decode_ascii _) as [c|e'] eqn:E; cbn [bind].
  - rewrite unpack_le_ok by (rewrite length_slice; lia). cbn [bind].
    destruct (_ <? _); [intros [= <-]; auto 6|].
    destruct (negb _); [intros [= <-]; auto 6 | discriminate].
  - intros [= <-].
    assert (Hd : forall b e0, decode_ascii b = Raise e0 -> e0 = UnicodeDecodeError).
    { clear. induction b as [|x b IH]; simpl; intros e0; [discriminate|].
      destruct (_ <? _); [|intros [= <-]; reflexivity].
      destruct (decode_ascii b); simpl; [discriminate|].
      intros [= <-]. now apply IH. }
    apply Hd in E. auto.
Qed.

(** A frame made by [create_message], followed by anything, parses back
    to its command, its payload and what followed. *)
Lemma parse_create_message magic command payload rest :
  length magic = 4%nat ->
  ascii_str command ->
  (length command <= 12)%nat ->
  last command 1 <> 0 ->
  len payload < 2 ^ 32 ->
  exists msg,
    create_message magic command payload = Ok msg
    /\ parse_message (msg ++ rest) magic = Ok (command, payload, rest).
Proof.
  intros Hm Hascii Hlen Hlast Hpay.
  unfold create_message.
  rewrite (encode_ascii_ok _ Hascii). cbn [bind].
  rewrite pack_le_ok by (pose proof (len_nonneg payload); simpl; lia). cbn [bind].
  eexists. split; [reflexivity|].
  set (cmd := ljust0 (map byte.of_Z command) 12).
  set (lenb := le_split 4 (len payload)).
  set (cs := slice (double_sha256 payload) 0 4).
  assert (Hc : length cmd = 12%nat).
  { unfold cmd, ljust0. rewrite length_app, length_zeros, length_map. lia. }
  destruct (frame_layout magic cmd lenb cs payload rest Hm Hc
              (length_le_split _ _) (checksum_length payload))
    as (L & S0 & S1 & S2 & S3 & S4 & S5).
  assert (Hcombine : le_combine lenb = len payload).
  { unfold lenb. rewrite le_combine_split. apply Z.mod_small.
    pose proof (len_nonneg payload). simpl. lia. }
  rewrite (parse_message_header _ magic command).
  - cbv zeta. rewrite S2, Hcombine, S3, S4, S5.
    pose proof (len_nonneg rest).
    destruct (Z.ltb_spec (len ((magic ++ cmd ++ lenb ++ cs ++ payload) ++ rest))
                (24 + len payload)); [lia|].
    fold cs. rewrite bytes_eqb_refl. reflexivity.
  - pose proof (len_nonneg rest). pose proof (len_nonneg payload). lia.
  - exact S0.
  - rewrite S1. unfold cmd, ljust0. rewrite rstrip0_app_zeros.
    rewrite rstrip0_id by (now apply last_encoded_nonzero).
    now apply decode_ascii_encode.
Qed.

(** The command field is padded with NUL bytes and stripped of them again:
    a command that itself ends in NUL does not come back.  With magic
    f9beb4d9 the command ["a\x00"] comes back as ["a"]. *)
Lemma message_roundtrip_trailing_nul :
  let magic := [Byte.xf9; Byte.xbe; Byte.xb4; Byte.xd9] in
  let command := [97; 0] in
  length magic = 4%nat /\ ascii_str command /\ (length command <= 12)%nat
  /\ exists msg,
       create_message magic command [] = Ok msg
       /\ parse_message (msg ++ []) magic = Ok ([97], [], [])
       /\ parse_message (msg ++ []) magic <> Ok (command, [], []).
Proof.
  cbv zeta. split; [reflexivity|]. split.
  { repeat (apply Forall_cons; [lia|]). apply Forall_nil. }
  split; [simpl; lia|].
  eexists. split; [vm_compute; reflexivity|].
  split; [vm_compute; reflexivity|].
  vm_compute. discriminate.
Qed.

(** A payload of 2^32 bytes or more has no frame: [struct.pack("<I", ...)]
    raises. *)
Lemma create_message_payload_too_long magic command payload :
  ascii_str command -> 2 ^ 32 <= len payload ->
  create_message magic command payload = Raise StructError.
Proof.
  intros Ha Hp. unfold create_message.
  rewrite (encode_ascii_ok _ Ha). cbn [bind].
  unfold Struct.pack_le.
  destruct (Z.ltb_spec (len payload) (2 ^ (8 * Z.of_nat 4))) as [H|H].
  - simpl in H. lia.
  - rewrite andb_false_r. reflexivity.
Qed.

(** C1 (as amended).  For every 4-byte magic, every ASCII command of at
    most 12 characters that does not end in a NUL character, every payload
    of less than 2^32 bytes and every trailing byte string [rest],
    [create_message] returns a frame, and [parse_message] applied to that
    frame followed by [rest], with the same magic, returns exactly
    [(command, payload, rest)]. *)
Theorem message_roundtrip magic command payload rest :
  length magic = 4%nat ->
  ascii_str command ->
  (length command <= 12)%nat ->
  last command 1 <> 0 ->
  len payload < 2 ^ 32 ->
  exists msg,
    create_message magic command payload = Ok msg
    /\ parse_message (msg ++ rest) magic = Ok (command, payload, rest).
Proof. apply parse_create_message. Qed.

Lemma message_roundtrip_witness :
  exists msg,
    create_message [Byte.xf9; Byte.xbe; Byte.xb4; Byte.xd9]
                   [118; 101; 114; 115; 105; 111; 110] [Byte.x2a; Byte.x00] = Ok msg
    /\ parse_message (msg ++ [Byte.xff]) [Byte.xf9; Byte.xbe; Byte.xb4; Byte.xd9]
       = Ok ([118; 101; 114; 115; 105; 111; 110], [Byte.x2a; Byte.x00], [Byte.xff]).
Proof.
  apply (message_roundtrip [Byte.xf9; Byte.xbe; Byte.xb4; Byte.xd9]
           [118; 101; 114; 115; 105; 111; 110] [Byte.x2a; Byte.x00] [Byte.xff]).
  - reflexivity.
  - repeat (apply Forall_cons; [lia|]). apply Forall_nil.
  - simpl. lia.
  - simpl. lia.
  - vm_compute. reflexivity.
Defined.

(** A header with the right magic that declares 2 MiB + 1 byte of payload
    and carries none of it: the parser reports a message that is not
    complete yet, as it does for any declared length; no exception of
    [parse_message] speaks of the size. *)
Lemma oversize_header_is_incomplete :
  let magic := [Byte.xf9; Byte.xbe; Byte.xb4; Byte.xd9] in
  let data := magic ++ ljust0 (map byte.of_Z [97; 100; 100; 114]) 12
              ++ le_split 4 2097153 ++ zeros 4 in
  24 <= len data
  /\ slice data 0 4 = magic
  /\ 2 * 1024 * 1024 < le_combine (slice data 16 20)
  /\ parse_message data magic = Raise (ValueError "Incomplete message").
Proof. vm_compute. repeat split; congruence. Qed.

(** C2 (as amended).  For every buffer of at least 24 bytes with correct
    magic and an ASCII command field whose header declares a payload length
    greater than 2 MiB, [parse_message] does what it does for any declared
    length: when fewer than 24 + length bytes are there it fails with
    "Incomplete message" (the short-payload error), so the declared bytes
    are required; when they are there the checksum alone decides between
    the parsed triple and "Invalid checksum". *)
Theorem oversize_declared_length data magic command :
  24 <= len data ->
  slice data 0 4 = magic ->
  decode_ascii (rstrip0 (slice data 4 16)) = Ok command ->
  2 * 1024 * 1024 < le_combine (slice data 16 20) ->
  let length := le_combine (slice data 16 20) in
  (len data < 24 + length ->
   parse_message data magic = Raise (ValueError "Incomplete message"))
  /\ (24 + length <= len data ->
      parse_message data magic =
        if bytes_eqb (slice (double_sha256 (slice data 24 (24 + length))) 0 4)
                     (slice data 20 24)
        then Ok (command, slice data 24 (24 + length), slice_from data (24 + length))
        else Raise (ValueError "Invalid checksum")).
Proof.
  intros Hlen Hmagic Hcmd _ length0.
  pose proof (parse_message_header data magic command Hlen Hmagic Hcmd) as P.
  cbv zeta in P. fold length0 in P. rewrite P. split; intros H.
  - destruct (Z.ltb_spec (len data) (24 + length0)); [reflexivity | lia].
  - destruct (Z.ltb_spec (len data) (24 + length0)); [lia | reflexivity].
Qed.

Lemma oversize_declared_length_witness :
  let magic := [Byte.xf9; Byte.xbe; Byte.xb4; Byte.xd9] in
  let data := magic ++ ljust0 (map byte.of_Z [97; 100; 100; 114]) 12
              ++ le_split 4 2097153 ++ zeros 4 in
  parse_message data magic = Raise (ValueError "Incomplete message").
Proof.
  cbv zeta.
  refine (proj1 (oversize_declared_length
                   ([Byte.xf9; Byte.xbe; Byte.xb4; Byte.xd9]
                      ++ ljust0 (map byte.of_Z [97; 100; 100; 114]) 12
                      ++ le_split 4 2097153 ++ zeros 4)
                   [Byte.xf9; Byte.xbe; Byte.xb4; Byte.xd9]
                   [97; 100; 100; 114] _ _ _ _) _).
  - vm_compute. congruence.
  - vm_compute. reflexivity.
  - vm_compute. reflexivity.
  - vm_compute. reflexivity.
  - vm_compute. reflexivity.
Defined.
(* ===================================================================== *)
(** ** The version payload *)
(* ===================================================================== *)

(** Sums of literal offsets, as the parsers accumulate them. *)
Ltac norm_offsets :=
  repeat match goal with
         | |- context [Z.add Z0 (Zpos ?b)] => change (Z.add Z0 (Zpos b)) with (Zpos b)
         | |- context [Z.add (Zpos ?a) (Zpos ?b)] =>
             let v := eval cbv in (Z.add (Zpos a) (Zpos b)) in
             change (Z.add (Zpos a) (Zpos b)) with v
         end.

Lemma index_inv data i n :
  0 <= i -> index data i = Ok n ->
  i < len data /\ exists b, nth_error data (Z.to_nat i) = Some b /\ n = byte.unsigned b.
Proof.
  intros Hi. unfold index.
  destruct (nth_error data (Z.to_nat i)) as [b|] eqn:E; [|discriminate].
  intros [= <-]. split.
  - assert (Z.to_nat i < length data)%nat by (apply nth_error_Some; congruence).
    unfold len. lia.
  - eauto.
Qed.

Lemma index_ok data i :
  0 <= i < len data -> exists n, index data i = Ok n /\ 0 <= n < 256.
Proof.
  intros Hi. unfold index.
  destruct (nth_error data (Z.to_nat i)) as [b|] eqn:E.
  - eexists. split; [reflexivity | apply byte_unsigned_range].
  - apply nth_error_None in E. unfold len in Hi. lia.
Qed.

(** [parse_version_payload] on a payload that reaches to the end of
    [start_height]: the fields it reads, each at its place.  The length of
    the user agent is the single byte at offset 80. *)
Lemma parse_version_payload_ok payload n :
  index payload 80 = Ok n ->
  85 + n <= len payload ->
  parse_version_payload payload =
    relay <- (if 85 + n <? len payload
              then b <- index payload (85 + n) ;; Ok (negb (b =? 0))
              else Ok true) ;;
    Ok {| version := le_combine (slice payload 0 4);
          services := le_combine (slice payload 4 12);
          timestamp := Struct.signed64 (le_combine (slice payload 12 20));
          addr_recv := {| na_services := le_combine (slice payload 20 28);
                          na_ip := ntoa (slice payload 40 44);
                          na_port := le_combine (rev (slice payload 44 46));
                          na_timestamp := None |};
          addr_from := {| na_services := le_combine (slice payload 46 54);
                          na_ip := ntoa (slice payload 66 70);
                          na_port := le_combine (rev (slice payload 70 72));
                          na_timestamp := None |};
          nonce := le_combine (slice payload 72 80);
          user_agent := decode_utf8_replace (slice payload 81 (81 + n));
          start_height := le_combine (slice payload (81 + n) (85 + n));
          relay := relay |}.
Proof.
  intros Hn Hlen.
  destruct (index_inv payload 80 n ltac:(lia) Hn) as (_ & b & _ & Hb).
  assert (0 <= n) by (subst n; apply byte_unsigned_range).
  unfold parse_version_payload. cbv zeta.
  norm_offsets.
  rewrite !unpack_le_ok by (rewrite length_slice; lia). cbn [bind].
  unfold Struct.unpack_q. rewrite length_slice by lia.
  change (Z.to_nat (20 - 12)) with 8%nat. cbn [Nat.eqb bind].
  rewrite !inet_ntoa_ok by (rewrite length_slice; lia). cbn [bind].
  rewrite !unpack_be16_ok by (rewrite length_slice; lia). cbn [bind].
  rewrite Hn. cbn [bind].
  rewrite !unpack_le_ok by (rewrite length_slice; lia). cbn [bind].
  replace (81 + n + 4) with (85 + n) by lia.
  reflexivity.
Qed.

Lemma slice_empty {A} (l : list A) lo : slice l lo lo = [].
Proof. unfold slice. rewrite Z.sub_diag. reflexivity. Qed.

(** The slice that covers the [i]-th of the byte strings put one after
    another. *)
Lemma slice_concat_nth (segs : list bytes) (i : nat) lo hi :
  lo = len (concat (firstn i segs)) ->
  hi = lo + len (nth i segs []) ->
  slice (concat segs) lo hi = nth i segs [].
Proof.
  intros Hlo Hhi.
  destruct (Nat.ltb_spec i (length segs)) as [Hi|Hi].
  - rewrite <- (firstn_skipn i segs) at 1.
    assert (Hs : skipn i segs = nth i segs [] :: skipn (S i) segs).
    { clear - Hi. revert i Hi. induction segs as [|s segs IH]; intros i Hi.
      - simpl in Hi. lia.
      - destruct i; [reflexivity|]. simpl in Hi. apply IH. lia. }
    rewrite Hs, concat_app. cbn [concat].
    apply slice_mid; lia.
  - rewrite nth_overflow in * by lia.
    replace hi with lo by (rewrite len_nil in Hhi; lia).
    apply slice_empty.
Qed.

Lemma pton6_finish_length tp colonp seen val r :
  Socket.pton6_finish tp colonp seen val = Some r -> length r = 16%nat.
Proof.
  unfold Socket.pton6_finish.
  destruct (if Nat.ltb 0 seen then _ else _) as [tp2|]; [|discriminate].
  destruct colonp as [p|].
  - destruct (Nat.eqb (length tp2) 16); [discriminate|].
    destruct (Nat.eqb_spec (length (firstn p tp2 ++ zeros (16 - length tp2) ++ skipn p tp2)) 16);
      [|discriminate].
    now intros [= <-].
  - destruct (Nat.eqb_spec (length tp2) 16); [|discriminate].
    now intros [= <-].
Qed.

Lemma pton6_loop_length src : forall curtok tp colonp seen val r,
  Socket.pton6_loop src curtok tp colonp seen val = Some r -> length r = 16%nat.
Proof.
  induction src as [|ch tl IH]; intros curtok tp colonp seen val r.
  - apply pton6_finish_length.
  - cbn [Socket.pton6_loop].
    destruct (Socket.hex_digit_value ch) as [d|].
    + destruct (Nat.eqb seen 4); [discriminate|].
      destruct (_ <? _); [discriminate | apply IH].
    + destruct (ch =? Socket.COLON).
      * destruct (Nat.eqb seen 0).
        -- destruct colonp; [discriminate | apply IH].
        -- destruct tl as [|c2 tl2] eqn:Etl; [discriminate|].
           destruct (Nat.ltb 16 (length tp + 2)); [discriminate|]. apply IH.
      * destruct (_ && _); [|discriminate].
        destruct (Socket.pton4 curtok); [|discriminate].
        apply pton6_finish_length.
Qed.

Lemma inet_pton6_length s b : inet_pton6 s = Ok b -> length b = 16%nat.
Proof.
  unfold inet_pton6. destruct (Socket.has_nul s); [discriminate|].
  destruct (Socket.pton6 s) as [r|] eqn:E; [|discriminate].
  intros [= <-]. unfold Socket.pton6 in E.
  destruct s as [|c tl]; [discriminate|].
  destruct (c =? Socket.COLON).
  - destruct tl as [|c2 tl2]; [discriminate|].
    destruct (c2 =? Socket.COLON); [|discriminate].
    eapply pton6_loop_length, E.
  - eapply pton6_loop_length, E.
Qed.

(** What [create_version_message] puts into the payload. *)
Lemma version_payload_bytes_inv cfg recv_ip recv_port h ts nc payload :
  version_payload_bytes cfg recv_ip recv_port h ts nc = Ok payload ->
  exists uab ip12 ip4,
    encode_utf8 (crawler_user_agent cfg) = Ok uab
    /\ len uab < 256
    /\ 0 <= protocol_version cfg < 2 ^ 32
    /\ - 2 ^ 63 <= ts < 2 ^ 63
    /\ 0 <= recv_port < 2 ^ 16
    /\ 0 <= nc < 2 ^ 64
    /\ 0 <= h < 2 ^ 32
    /\ length ip12 = 12%nat /\ length ip4 = 4%nat
    /\ (if has_colon recv_ip
        then inet_pton6 recv_ip = Ok (ip12 ++ ip4)
        else ip12 = IPV4_MAPPED_PREFIX /\ inet_pton4 recv_ip = Ok ip4)
    /\ payload = concat (version_fields (protocol_version cfg) ts recv_port nc h
                                        ip12 ip4 uab).
Proof.
  unfold version_payload_bytes. fold (crawler_user_agent cfg). fold (has_colon recv_ip).
  destruct (encode_utf8 (crawler_user_agent cfg)) as [uab|] eqn:Eua; cbn [bind];
    [|discriminate].
  destruct (Struct.pack_le 4 (protocol_version cfg)) as [b1|] eqn:E1; cbn [bind];
    [|discriminate].
  change (Struct.pack_le 8 SERVICES_NODE_NETWORK) with (Ok (le_split 8 SERVICES_NODE_NETWORK)).
  cbn [bind].
  destruct (Struct.pack_q ts) as [b3|] eqn:E3; cbn [bind]; [|discriminate].
  destruct (if has_colon recv_ip then _ else _) as [p5|] eqn:E5; cbn [bind];
    [|discriminate].
  destruct (Struct.pack_be16 recv_port) as [b6|] eqn:E6; cbn [bind]; [|discriminate].
  change (inet_pton4 (lit "0.0.0.0")) with (Ok [Byte.x00; Byte.x00; Byte.x00; Byte.x00]).
  change (Struct.pack_be16 0) with (Ok (rev (le_split 2 0))).
  cbn [bind].
  destruct (Struct.pack_le 8 nc) as [b8|] eqn:E8; cbn [bind]; [|discriminate].
  destruct (Struct.pack_le 1 (len uab)) as [b9|] eqn:E9; cbn [bind]; [|discriminate].
  destruct (Struct.pack_le 4 h) as [b10|] eqn:E10; cbn [bind]; [|discriminate].
  intros [= <-].
  apply pack_le_inv in E1 as [-> R1]. apply pack_q_inv in E3 as [-> R3].
  apply pack_be16_inv in E6 as [-> R6]. apply pack_le_inv in E8 as [-> R8].
  apply pack_le_inv in E9 as [-> R9]. apply pack_le_inv in E10 as [-> R10].
  assert (Hip : exists ip12 ip4,
             length ip12 = 12%nat /\ length ip4 = 4%nat
             /\ (if has_colon recv_ip
                 then inet_pton6 recv_ip = Ok (ip12 ++ ip4)
                 else ip12 = IPV4_MAPPED_PREFIX /\ inet_pton4 recv_ip = Ok ip4)
             /\ p5 = (((([] ++ le_split 4 (protocol_version cfg))
                        ++ le_split 8 SERVICES_NODE_NETWORK)
                       ++ le_split 8 (ts mod 2 ^ 64))
                      ++ le_split 8 SERVICES_NODE_NETWORK) ++ ip12 ++ ip4).
  { destruct (has_colon recv_ip).
    - destruct (inet_pton6 recv_ip) as [b16|] eqn:E; cbn [bind] in E5; [|discriminate].
      injection E5 as <-.
      pose proof (inet_pton6_length _ _ E) as L.
      exists (firstn 12 b16), (skipn 12 b16).
      rewrite length_firstn, length_skipn, firstn_skipn.
      repeat split; try lia; reflexivity.
    - destruct (inet_pton4 recv_ip) as [b4|] eqn:E; cbn [bind] in E5; [|discriminate].
      injection E5 as <-.
      destruct (inet_ntoa_pton4 _ _ E) as [L _].
      exists IPV4_MAPPED_PREFIX, b4.
      repeat split; try assumption; reflexivity. }
  destruct Hip as (ip12 & ip4 & L12 & L4 & Hip & ->).
  exists uab, ip12, ip4.
  repeat (split; [first [assumption | reflexivity | simpl in *; lia]|]).
  unfold version_fields, Struct.pack_bool. cbn [concat]. rewrite <- !app_assoc.
  reflexivity.
Qed.

Lemma len_le_split n v : len (le_split n v) = Z.of_nat n.
Proof. unfold len. now rewrite length_le_split. Qed.

Lemma len_rev {A} (l : list A) : len (rev l) = len l.
Proof. unfold len. now rewrite length_rev. Qed.

Lemma index_concat_nth (segs : list bytes) (i : nat) lo b :
  lo = len (concat (firstn i segs)) ->
  nth i segs [] = [b] ->
  index (concat segs) lo = Ok (byte.unsigned b).
Proof.
  intros Hlo Hb.
  pose proof (slice_concat_nth segs i lo (lo + 1) Hlo) as S.
  rewrite Hb in S. specialize (S eq_refl).
  assert (0 <= lo) by (subst lo; apply len_nonneg).
  pose proof (slice_nth_error (concat segs) lo (lo + 1) 0 ltac:(lia) ltac:(lia)) as N.
  rewrite S, Nat.add_0_r in N. simpl in N.
  unfold index. rewrite <- N. reflexivity.
Qed.

(** Lengths of the fields of a version payload. *)
Ltac field_lengths :=
  unfold version_fields; cbn [firstn nth concat];
  rewrite ?len_app, ?len_rev, ?len_le_split, ?len_nil;
  repeat match goal with
         | H : length ?l = _ |- context [len ?l] =>
             replace (len l) with (Z.of_nat (length l)) by reflexivity; rewrite H
         end;
  change (len IPV4_MAPPED_PREFIX) with 12;
  change (len [Byte.x00; Byte.x00; Byte.x00; Byte.x00]) with 4;
  change (len [Byte.x01]) with 1;
  try reflexivity; try lia.

(** [parse_version_payload] on the fields written by the encoder. *)
Lemma parse_version_fields pv ts port nc h ip12 ip4 uab :
  0 <= pv < 2 ^ 32 -> - 2 ^ 63 <= ts < 2 ^ 63 -> 0 <= port < 2 ^ 16 ->
  0 <= nc < 2 ^ 64 -> 0 <= h < 2 ^ 32 ->
  length ip12 = 12%nat -> length ip4 = 4%nat -> len uab < 256 ->
  parse_version_payload (concat (version_fields pv ts port nc h ip12 ip4 uab)) =
    Ok {| version := pv;
          services := SERVICES_NODE_NETWORK;
          timestamp := ts;
          addr_recv := {| na_services := SERVICES_NODE_NETWORK;
                          na_ip := ntoa ip4;
                          na_port := port;
                          na_timestamp := None |};
          addr_from := {| na_services := SERVICES_NODE_NETWORK;
                          na_ip := lit "0.0.0.0";
                          na_port := 0;
                          na_timestamp := None |};
          nonce := nc;
          user_agent := decode_utf8_replace uab;
          start_height := h;
          relay := true |}.
Proof.
  intros Rpv Rts Rport Rnc Rh L12 L4 Lua.
  pose proof (len_nonneg uab) as Hua0.
  set (segs := version_fields pv ts port nc h ip12 ip4 uab).
  assert (Hidx : index (concat segs) 80 = Ok (len uab)).
  { rewrite (index_concat_nth segs 12 80 (byte.of_Z (len uab))).
    - now rewrite byte_unsigned_of_Z_small by lia.
    - unfold segs. field_lengths.
    - reflexivity. }
  assert (Hlen : len (concat segs) = 86 + len uab).
  { unfold segs. field_lengths. }
  rewrite (parse_version_payload_ok _ (len uab) Hidx) by lia.
  destruct (Z.ltb_spec (85 + len uab) (len (concat segs))); [|lia].
  rewrite (index_concat_nth segs 15 (85 + len uab) Byte.x01);
    [| unfold segs; field_lengths | reflexivity].
  cbn [bind]. change (negb (byte.unsigned Byte.x01 =? 0)) with true.
  rewrite (slice_concat_nth segs 0 0 4) by (unfold segs; field_lengths).
  rewrite (slice_concat_nth segs 1 4 12) by (unfold segs; field_lengths).
  rewrite (slice_concat_nth segs 2 12 20) by (unfold segs; field_lengths).
  rewrite (slice_concat_nth segs 3 20 28) by (unfold segs; field_lengths).
  rewrite (slice_concat_nth segs 5 40 44) by (unfold segs; field_lengths).
  rewrite (slice_concat_nth segs 6 44 46) by (unfold segs; field_lengths).
  rewrite (slice_concat_nth segs 7 46 54) by (unfold segs; field_lengths).
  rewrite (slice_concat_nth segs 9 66 70) by (unfold segs; field_lengths).
  rewrite (slice_concat_nth segs 10 70 72) by (unfold segs; field_lengths).
  rewrite (slice_concat_nth segs 11 72 80) by (unfold segs; field_lengths).
  rewrite (slice_concat_nth segs 13 81 (81 + len uab)) by (unfold segs; field_lengths).
  rewrite (slice_concat_nth segs 14 (81 + len uab) (85 + len uab))
    by (unfold segs; field_lengths).
  unfold segs, version_fields. cbn [nth].
  rewrite !rev_involutive, !le_combine_split.
  change (ntoa [Byte.x00; Byte.x00; Byte.x00; Byte.x00]) with (lit "0.0.0.0").
  assert (Hts : Struct.signed64 ((ts mod 2 ^ 64) mod 2 ^ (Z.of_nat 8 * 8)) = ts).
  { pose proof (unpack_q_pack ts (le_split 8 (ts mod 2 ^ 64))) as U.
    unfold Struct.pack_q, Struct.unpack_q in U.
    destruct (Z.leb_spec (- 2 ^ 63) ts); [|lia].
    destruct (Z.ltb_spec ts (2 ^ 63)); [|lia].
    specialize (U eq_refl). rewrite length_le_split in U. simpl Nat.eqb in U.
    rewrite le_combine_split in U. now injection U. }
  rewrite Hts.
  rewrite !Z.mod_small by (simpl; unfold SERVICES_NODE_NETWORK; lia).
  reflexivity.
Qed.

Lemma ascii_version : ascii_str (lit "version").
Proof.
  let v := eval vm_compute in (lit "version") in change (lit "version") with v.
  repeat (apply Forall_cons; [lia|]). apply Forall_nil.
Qed.

Lemma len_version_fields pv ts port nc h ip12 ip4 uab :
  length ip12 = 12%nat -> length ip4 = 4%nat ->
  len (concat (version_fields pv ts port nc h ip12 ip4 uab)) = 86 + len uab.
Proof. intros L12 L4. field_lengths. Qed.

(** The frame of a version message parses back to its payload. *)
Lemma version_message_frame cfg recv_ip recv_port h ts nc msg :
  length (magic_bytes cfg) = 4%nat ->
  create_version_message cfg recv_ip recv_port h ts nc = Ok msg ->
  exists payload,
    version_payload_bytes cfg recv_ip recv_port h ts nc = Ok payload
    /\ parse_message msg (magic_bytes cfg) = Ok (lit "version", payload, []).
Proof.
  intros Hm. unfold create_version_message.
  destruct (version_payload_bytes cfg recv_ip recv_port h ts nc) as [payload|] eqn:E;
    cbn [bind]; [|discriminate].
  intros Hc. exists payload. split; [reflexivity|].
  assert (Hlen : len payload < 2 ^ 32).
  { apply version_payload_bytes_inv in E
      as (uab & ip12 & ip4 & _ & Hu & _ & _ & _ & _ & _ & L12 & L4 & _ & ->).
    rewrite len_version_fields by assumption. lia. }
  assert (H12 : (length (lit "version") <= 12)%nat) by (vm_compute; lia).
  assert (Hnul : last (lit "version") 1 <> 0) by (vm_compute; discriminate).
  destruct (parse_create_message (magic_bytes cfg) (lit "version") payload []
              Hm ascii_version H12 Hnul Hlen)
    as (msg' & Hc' & Hp).
  rewrite Hc in Hc'. injection Hc' as <-.
  now rewrite app_nil_r in Hp.
Qed.

(** What comes back from a version message: every field as announced,
    except that the receiver address is read from the last four bytes of
    its 16-byte field. *)
Lemma version_message_parsed cfg recv_ip recv_port h ts nc payload :
  version_payload_bytes cfg recv_ip recv_port h ts nc = Ok payload ->
  exists ip12 ip4,
    length ip12 = 12%nat /\ length ip4 = 4%nat
    /\ (if has_colon recv_ip
        then inet_pton6 recv_ip = Ok (ip12 ++ ip4)
        else ip12 = IPV4_MAPPED_PREFIX /\ inet_pton4 recv_ip = Ok ip4)
    /\ parse_version_payload payload =
         Ok {| version := protocol_version cfg;
               services := SERVICES_NODE_NETWORK;
               timestamp := ts;
               addr_recv := {| na_services := SERVICES_NODE_NETWORK;
                               na_ip := ntoa ip4;
                               na_port := recv_port;
                               na_timestamp := None |};
               addr_from := {| na_services := SERVICES_NODE_NETWORK;
                               na_ip := lit "0.0.0.0";
                               na_port := 0;
                               na_timestamp := None |};
               nonce := nc;
               user_agent := crawler_user_agent cfg;
               start_height := h;
               relay := true |}.
Proof.
  intros E.
  apply version_payload_bytes_inv in E
    as (uab & ip12 & ip4 & Hua & Hu & Rpv & Rts & Rport & Rnc & Rh & L12 & L4 & Hip & ->).
  exists ip12, ip4. repeat split; try assumption.
  rewrite parse_version_fields by assumption.
  pose proof (decode_encode_utf8 _ uab [] Hua) as D.
  rewrite !app_nil_r in D. cbn [decode_utf8_replace] in D.
  rewrite ?app_nil_r in D. now rewrite D.
Qed.

(** For an IPv4 receiver the version message gives back what was sent. *)
Lemma version_roundtrip_ipv4 cfg recv_ip recv_port h ts nc msg :
  length (magic_bytes cfg) = 4%nat ->
  has_colon recv_ip = false ->
  create_version_message cfg recv_ip recv_port h ts nc = Ok msg ->
  exists payload v,
    parse_message msg (magic_bytes cfg) = Ok (lit "version", payload, [])
    /\ parse_version_payload payload = Ok v
    /\ version v = protocol_version cfg
    /\ na_ip (addr_recv v) = recv_ip
    /\ na_port (addr_recv v) = recv_port
    /\ user_agent v = crawler_user_agent cfg
    /\ start_height v = h
    /\ relay v = true.
Proof.
  intros Hm Hc Hmsg.
  destruct (version_message_frame _ _ _ _ _ _ _ Hm Hmsg) as (payload & Hp & Hf).
  destruct (version_message_parsed _ _ _ _ _ _ _ Hp) as (ip12 & ip4 & _ & _ & Hip & Hv).
  rewrite Hc in Hip. destruct Hip as [_ Hip].
  apply inet_ntoa_pton4 in Hip as [L Hn].
  rewrite inet_ntoa_ok in Hn by assumption. injection Hn as Hn.
  eexists payload, _. split; [exact Hf|]. split; [exact Hv|].
  cbn. repeat split; try reflexivity. exact Hn.
Qed.

(** For a native IPv6 receiver the address that comes back is the dotted
    quad of the last four bytes of the address sent. *)
Lemma version_roundtrip_ipv6 cfg recv_ip recv_port h ts nc msg :
  length (magic_bytes cfg) = 4%nat ->
  has_colon recv_ip = true ->
  create_version_message cfg recv_ip recv_port h ts nc = Ok msg ->
  exists payload v b16,
    parse_message msg (magic_bytes cfg) = Ok (lit "version", payload, [])
    /\ parse_version_payload payload = Ok v
    /\ inet_pton6 recv_ip = Ok b16
    /\ na_ip (addr_recv v) = ntoa (skipn 12 b16)
    /\ version v = protocol_version cfg
    /\ na_port (addr_recv v) = recv_port
    /\ user_agent v = crawler_user_agent cfg
    /\ start_height v = h
    /\ relay v = true.
Proof.
  intros Hm Hc Hmsg.
  destruct (version_message_frame _ _ _ _ _ _ _ Hm Hmsg) as (payload & Hp & Hf).
  destruct (version_message_parsed _ _ _ _ _ _ _ Hp) as (ip12 & ip4 & L12 & _ & Hip & Hv).
  rewrite Hc in Hip.
  eexists payload, _, (ip12 ++ ip4). split; [exact Hf|]. split; [exact Hv|].
  split; [exact Hip|]. cbn. repeat split; try reflexivity.
  rewrite skipn_app, skipn_all2 by lia.
  replace (12 - length ip12)%nat with 0%nat by lia. reflexivity.
Qed.

(** With arguments in range the message is built. *)
Lemma create_version_message_ok cfg recv_ip recv_port h ts nc :
  version_args_ok cfg recv_ip recv_port h ts nc ->
  exists msg, create_version_message cfg recv_ip recv_port h ts nc = Ok msg.
Proof.
  intros ((uab & Hua & Lua) & Rpv & Rts & (b & Hip) & Rport & Rnc & Rh).
  assert (Hp : exists payload,
             version_payload_bytes cfg recv_ip recv_port h ts nc = Ok payload).
  { unfold version_payload_bytes. fold (crawler_user_agent cfg). fold (has_colon recv_ip).
    rewrite Hua. cbn [bind].
    rewrite (pack_le_ok 4) by (simpl; lia). cbn [bind].
    rewrite (pack_le_ok 8 SERVICES_NODE_NETWORK) by (unfold SERVICES_NODE_NETWORK; simpl; lia).
    cbn [bind].
    unfold Struct.pack_q. destruct (Z.leb_spec (- 2 ^ 63) ts); [|lia].
    destruct (Z.ltb_spec ts (2 ^ 63)); [|lia]. cbn [andb bind].
    assert (Hsel : exists p5, (if has_colon recv_ip
                     then p <- inet_pton6 recv_ip ;; Ok (((((([] ++ le_split 4 (protocol_version cfg)) ++ le_split 8 SERVICES_NODE_NETWORK) ++ le_split 8 (ts mod 2 ^ 64)) ++ le_split 8 SERVICES_NODE_NETWORK)) ++ p)
                     else p <- inet_pton4 recv_ip ;; Ok ((((((([] ++ le_split 4 (protocol_version cfg)) ++ le_split 8 SERVICES_NODE_NETWORK) ++ le_split 8 (ts mod 2 ^ 64)) ++ le_split 8 SERVICES_NODE_NETWORK)) ++ (zeros 10 ++ [Byte.xff; Byte.xff])) ++ p)) = Ok p5).
    { destruct (has_colon recv_ip); rewrite Hip; cbn [bind]; eauto. }
    destruct Hsel as (p5 & ->). cbn [bind].
    unfold Struct.pack_be16 at 1. destruct (Z.leb_spec 0 recv_port); [|lia].
    destruct (Z.ltb_spec recv_port (2 ^ 16)); [|lia]. cbn [andb bind].
    change (inet_pton4 (lit "0.0.0.0")) with (Ok [Byte.x00; Byte.x00; Byte.x00; Byte.x00]).
    change (Struct.pack_be16 0) with (Ok (rev (le_split 2 0))). cbn [bind].
    rewrite (pack_le_ok 8 nc) by (simpl; lia). cbn [bind].
    rewrite (pack_le_ok 1) by (pose proof (len_nonneg uab); simpl; lia). cbn [bind].
    rewrite (pack_le_ok 4 h) by (simpl; lia). cbn [bind].
    eauto. }
  destruct Hp as (payload & Hp).
  unfold create_version_message. rewrite Hp. cbn [bind].
  unfold create_message. rewrite (encode_ascii_ok _ ascii_version). cbn [bind].
  pose proof Hp as Hinv.
  apply version_payload_bytes_inv in Hinv
    as (uab' & ip12 & ip4 & _ & Hu & _ & _ & _ & _ & _ & L12 & L4 & _ & ->).
  rewrite pack_le_ok.
  - cbn [bind]. eauto.
  - rewrite len_version_fields by assumption.
    pose proof (len_nonneg uab'). simpl. lia.
Qed.
(** C3.  The version message built for the native IPv6 receiver
    2001:db8::1 parses back with the announced protocol version, port, user
    agent, start height and relay flag, but the receiver address comes back
    as 0.0.0.1: [parse_version_payload] reads the last four bytes of the
    16-byte address field as a dotted quad whatever the first twelve are,
    where [parse_addr_payload] looks at the IPv4-mapped prefix first. *)
Theorem version_roundtrip_loses_ipv6 :
  exists msg payload v,
    create_version_message bitcoin_config (lit "2001:db8::1") 8333 0 1700000000 7 = Ok msg
    /\ parse_message msg (magic_bytes bitcoin_config) = Ok (lit "version", payload, [])
    /\ parse_version_payload payload = Ok v
    /\ version v = 70016
    /\ na_port (addr_recv v) = 8333
    /\ user_agent v = lit "/BitcoinNodesCrawler:0.1.0/"
    /\ start_height v = 0
    /\ relay v = true
    /\ na_ip (addr_recv v) = lit "0.0.0.1"
    /\ na_ip (addr_recv v) <> lit "2001:db8::1".
Proof.
  eexists _, _, _.
  split; [vm_compute; reflexivity|].
  split; [vm_compute; reflexivity|].
  split; [vm_compute; reflexivity|].
  cbn [version addr_recv na_port na_ip user_agent start_height relay].
  repeat (split; [vm_compute; reflexivity|]).
  vm_compute. discriminate.
Qed.
(** C4.  The user agent of [long_user_agent_payload] has 253 bytes and is
    announced by the varint fd fd 00.  [read_varint] reads that length and
    finds the text at offset 83; [parse_version_payload] takes the first
    byte alone for the length, so its user agent starts with the two other
    bytes of the varint (an invalid byte, replaced by U+FFFD, and a NUL) and
    loses its last two characters, which it reads into the start height. *)
Theorem user_agent_length_is_one_byte :
  read_varint long_user_agent_payload 80 = Ok (253, 83)
  /\ Text.decode_utf8_replace (slice long_user_agent_payload 83 (83 + 253)) = repeat 97 253
  /\ Struct.unpack_le 4 (slice long_user_agent_payload (83 + 253) (83 + 253 + 4)) = Ok 800000
  /\ exists v,
       parse_version_payload long_user_agent_payload = Ok v
       /\ user_agent v = Text.REPLACEMENT :: 0 :: repeat 97 251
       /\ user_agent v <> repeat 97 253
       /\ start_height v = le_combine [Byte.x61; Byte.x61; Byte.x00; Byte.x35]
       /\ start_height v <> 800000.
Proof.
  split; [vm_compute; reflexivity|].
  split; [vm_compute; reflexivity|].
  split; [vm_compute; reflexivity|].
  eexists. split; [vm_compute; reflexivity|].
  cbn [user_agent start_height].
  split; [vm_compute; reflexivity|].
  split; [vm_compute; discriminate|].
  split; [vm_compute; reflexivity|].
  vm_compute. discriminate.
Qed.

(** Below 0xFD the single length byte of [parse_version_payload] and the
    varint of [read_varint] are the same thing. *)
Lemma user_agent_length_short payload n :
  index payload 80 = Ok n -> n < 0xFD -> read_varint payload 80 = Ok (n, 81).
Proof.
  intros Hn Hlt. unfold read_varint. rewrite Hn. cbn [bind].
  destruct (Z.ltb_spec n 0xFD); [reflexivity | lia].
Qed.
Lemma version_payload_ends cfg recv_ip recv_port h ts nc payload :
  version_payload_bytes cfg recv_ip recv_port h ts nc = Ok payload ->
  exists body, payload = body ++ [Byte.x01].
Proof.
  intros Hp.
  apply version_payload_bytes_inv in Hp
    as (uab & ip12 & ip4 & _ & _ & _ & _ & _ & _ & _ & _ & _ & _ & ->).
  exists (concat (firstn 15 (version_fields (protocol_version cfg) ts recv_port nc h
                                            ip12 ip4 uab))).
  unfold version_fields. cbn [firstn concat]. rewrite !app_nil_r, <- !app_assoc.
  reflexivity.
Qed.

Lemma create_message_ends magic command payload msg :
  create_message magic command payload = Ok msg ->
  exists header, msg = header ++ payload.
Proof.
  unfold create_message.
  destruct (encode_ascii command) as [c|]; cbn [bind]; [|discriminate].
  destruct (Struct.pack_le 4 (len payload)) as [l|]; cbn [bind]; [|discriminate].
  intros H. apply Ok_inj in H. subst msg.
  exists (magic ++ ljust0 c 12 ++ l ++ slice (double_sha256 payload) 0 4).
  rewrite <- !app_assoc. reflexivity.
Qed.

(** C5.  [parse_version_payload] returns relay = true for every payload
    that ends right after [start_height], and the truth value of the relay
    byte (non-zero) for every payload that has one; the payload built by
    [create_version_message] always ends in a relay byte 1, whatever the
    protocol version, and parses back with relay = true.  With arguments in
    range [create_version_message] does build its message. *)
Theorem relay_flag :
  (forall payload n,
      index payload 80 = Ok n -> len payload = 85 + n ->
      exists v, parse_version_payload payload = Ok v /\ relay v = true)
  /\ (forall payload n r,
         index payload 80 = Ok n -> index payload (85 + n) = Ok r ->
         exists v, parse_version_payload payload = Ok v /\ relay v = negb (r =? 0))
  /\ (forall cfg recv_ip recv_port h ts nc payload,
         version_payload_bytes cfg recv_ip recv_port h ts nc = Ok payload ->
         last payload Byte.x00 = Byte.x01
         /\ exists v, parse_version_payload payload = Ok v /\ relay v = true)
  /\ (forall cfg recv_ip recv_port h ts nc,
         version_args_ok cfg recv_ip recv_port h ts nc ->
         exists payload msg,
           version_payload_bytes cfg recv_ip recv_port h ts nc = Ok payload
           /\ create_version_message cfg recv_ip recv_port h ts nc = Ok msg
           /\ last msg Byte.x00 = Byte.x01).
Proof.
  split; [|split; [|split]].
  - intros payload n Hn Hlen.
    rewrite (parse_version_payload_ok payload n Hn) by lia.
    destruct (Z.ltb_spec (85 + n) (len payload)); [lia|].
    cbn [bind]. eexists. split; reflexivity.
  - intros payload n r Hn Hr.
    destruct (index_inv payload 80 n ltac:(lia) Hn) as (_ & b & _ & ->).
    pose proof (byte_unsigned_range b).
    destruct (index_inv payload (85 + byte.unsigned b) r ltac:(lia) Hr) as (Hlt & _).
    rewrite (parse_version_payload_ok payload _ Hn) by lia.
    destruct (Z.ltb_spec (85 + byte.unsigned b) (len payload)); [|lia].
    rewrite Hr. cbn [bind]. eexists. split; reflexivity.
  - intros cfg recv_ip recv_port h ts nc payload Hp.
    destruct (version_message_parsed _ _ _ _ _ _ _ Hp) as (ip12 & ip4 & _ & _ & _ & Hv).
    split.
    + destruct (version_payload_ends _ _ _ _ _ _ _ Hp) as (body & ->).
      apply last_last.
    + eexists. split; [exact Hv | reflexivity].
  - intros cfg recv_ip recv_port h ts nc Hok.
    destruct (create_version_message_ok _ _ _ _ _ _ Hok) as (msg & Hmsg).
    pose proof Hmsg as Hm2. unfold create_version_message in Hm2.
    destruct (version_payload_bytes cfg recv_ip recv_port h ts nc) as [payload|] eqn:Hp;
      cbn [bind] in Hm2; [|discriminate].
    exists payload, msg. split; [reflexivity|]. split; [exact Hmsg|].
    destruct (create_message_ends _ _ _ _ Hm2) as (header & ->).
    destruct (version_payload_ends _ _ _ _ _ _ _ Hp) as (body & ->).
    rewrite app_assoc. apply last_last.
Qed.

Lemma relay_flag_witness :
  exists v, parse_version_payload payload_without_relay = Ok v /\ relay v = true.
Proof.
  apply (proj1 relay_flag payload_without_relay 9).
  - vm_compute. reflexivity.
  - vm_compute. reflexivity.
Defined.
(* ===================================================================== *)
(** ** The addr payload *)
(* ===================================================================== *)

Lemma slice_slice {A} (l : list A) a b c d :
  0 <= a -> 0 <= c -> c <= d -> d <= b - a ->
  slice (slice l a b) c d = slice l (a + c) (a + d).
Proof.
  intros Ha Hc Hcd Hd. unfold slice.
  rewrite skipn_firstn_comm, firstn_firstn, skipn_skipn.
  replace (Z.to_nat c + Z.to_nat a)%nat with (Z.to_nat (a + c)) by lia.
  f_equal. lia.
Qed.

Lemma inet_ntop6_ok b : length b = 16%nat -> inet_ntop6 b = Ok (ntop6 b).
Proof.
  intros L. unfold ntop6, inet_ntop6. rewrite L. cbn [Nat.eqb negb].
  rewrite inet_ntoa_ok by (rewrite length_skipn; lia). reflexivity.
Qed.

(** One pass through the loop body, on 30 bytes that are there. *)
Lemma parse_addr_entry_ok payload offset :
  0 <= offset -> offset + 30 <= len payload ->
  parse_addr_entry payload offset =
    Ok (addr_of_entry (slice payload offset (offset + 30))).
Proof.
  intros H0 Hlen. unfold parse_addr_entry, addr_of_entry. cbv zeta.
  rewrite !unpack_le_ok by (rewrite length_slice; lia). cbn [bind].
  rewrite !slice_slice by lia.
  replace (offset + 4 + 8) with (offset + 12) by lia.
  replace (offset + 12 + 16) with (offset + 28) by lia.
  replace (offset + 28 + 2) with (offset + 30) by lia.
  replace (offset + 12 + 0) with (offset + 12) by lia.
  replace (offset + 12 + 12) with (offset + 24) by lia.
  replace (offset + 0) with offset by lia.
  destruct (bytes_eqb (slice payload (offset + 12) (offset + 24)) IPV4_MAPPED_PREFIX).
  - rewrite inet_ntoa_ok by (rewrite length_slice; lia). cbn [bind].
    rewrite unpack_be16_ok by (rewrite length_slice; lia). reflexivity.
  - rewrite inet_ntop6_ok by (rewrite length_slice; lia). cbn [bind].
    rewrite unpack_be16_ok by (rewrite length_slice; lia). reflexivity.
Qed.

(** The loop reads whole entries, [count] of them at most. *)
Lemma addr_loop_spec fuel : forall count payload offset addresses,
  0 <= offset ->
  len payload - offset < 30 * Z.of_nat fuel ->
  addr_loop fuel count payload offset addresses =
    Ok (addresses
        ++ map (fun i => addr_of_entry (addr_entry payload offset i))
               (seq 0 (Z.to_nat (Z.min count (whole_entries payload offset))))).
Proof.
  induction fuel as [|fuel IH]; intros count payload offset addresses H0 Hfuel.
  - cbn [addr_loop]. unfold whole_entries.
    assert ((len payload - offset) / 30 <= 0).
    { destruct (Z.leb_spec 0 (len payload - offset)).
      - rewrite Z.div_small by lia. lia.
      - assert ((len payload - offset) / 30 < 0) by (apply Z.div_lt_upper_bound; lia). lia. }
    replace (Z.to_nat _) with 0%nat by lia. simpl. now rewrite app_nil_r.
  - cbn [addr_loop]. unfold whole_entries.
    destruct (Z.leb_spec count 0) as [Hc|Hc].
    { replace (Z.to_nat _) with 0%nat by lia. simpl. now rewrite app_nil_r. }
    destruct (Z.ltb_spec (len payload) (offset + 30)) as [Hl|Hl].
    { assert ((len payload - offset) / 30 <= 0).
      { destruct (Z.leb_spec 0 (len payload - offset)).
        - rewrite Z.div_small by lia. lia.
        - assert ((len payload - offset) / 30 < 0) by (apply Z.div_lt_upper_bound; lia).
          lia. }
      replace (Z.to_nat _) with 0%nat by lia. simpl. now rewrite app_nil_r. }
    rewrite parse_addr_entry_ok by lia. cbn [bind].
    rewrite IH by lia. unfold whole_entries.
    assert (Hdiv : (len payload - offset) / 30 = (len payload - (offset + 30)) / 30 + 1).
    { replace (len payload - offset) with ((len payload - (offset + 30)) + 1 * 30) by lia.
      rewrite Z.div_add by lia. reflexivity. }
    assert (0 <= (len payload - (offset + 30)) / 30) by (apply Z.div_pos; lia).
    replace (Z.to_nat (Z.min count ((len payload - offset) / 30)))
      with (S (Z.to_nat (Z.min (count - 1) ((len payload - (offset + 30)) / 30))))
      by lia.
    rewrite <- app_assoc. apply f_equal, f_equal. cbn [seq map app].
    rewrite <- seq_shift, map_map.
    apply f_equal2.
    + unfold addr_entry.
      replace (offset + 30 * Z.of_nat 0) with offset by lia. reflexivity.
    + apply map_ext. intros i. unfold addr_entry.
      replace (offset + 30 + 30 * Z.of_nat i) with (offset + 30 * Z.of_nat (S i)) by lia.
      reflexivity.
Qed.

Lemma le_combine_nonneg (b : bytes) : 0 <= le_combine b.
Proof.
  induction b as [|x l IH]; [reflexivity|].
  cbn [le_combine]. pose proof (byte_unsigned_range x).
  apply Z.lor_nonneg. split; [lia|]. apply Z.shiftl_nonneg. exact IH.
Qed.

Lemma read_varint_inv data count offset :
  read_varint data 0 = Ok (count, offset) ->
  0 <= count /\ 1 <= offset <= len data.
Proof.
  unfold read_varint.
  destruct (index data 0) as [fb|] eqn:E; cbn [bind]; [|discriminate].
  destruct (index_inv data 0 fb ltac:(lia) E) as (Hl & b & _ & ->).
  pose proof (byte_unsigned_range b).
  assert (forall n lo hi v,
             Struct.unpack_le n (slice data lo hi) = Ok v ->
             0 <= lo -> (0 < n)%nat -> hi = lo + Z.of_nat n ->
             0 <= v /\ hi <= len data) as U.
  { intros n lo hi v Hu Hlo Hn ->. unfold Struct.unpack_le in Hu.
    destruct (Nat.eqb_spec (length (slice data lo (lo + Z.of_nat n))) n) as [L|];
      [|discriminate].
    apply Ok_inj in Hu. subst v. split.
    - apply le_combine_nonneg.
    - unfold slice in L. rewrite length_firstn, length_skipn in L. unfold len. lia. }
  destruct (Z.ltb_spec (byte.unsigned b) 0xFD).
  { intros [= <- <-]. lia. }
  destruct (Z.eqb_spec (byte.unsigned b) 0xFD).
  { destruct (Struct.unpack_le 2 _) as [v|] eqn:Ev; cbn [bind]; [|discriminate].
    intros [= <- <-]. apply U in Ev; simpl; lia. }
  destruct (Z.eqb_spec (byte.unsigned b) 0xFE).
  { destruct (Struct.unpack_le 4 _) as [v|] eqn:Ev; cbn [bind]; [|discriminate].
    intros [= <- <-]. apply U in Ev; simpl; lia. }
  destruct (Struct.unpack_le 8 _) as [v|] eqn:Ev; cbn [bind]; [|discriminate].
  intros [= <- <-]. apply U in Ev; simpl; lia.
Qed.

(** [parse_addr_payload] once the count is read: the whole entries that
    follow, [count] of them at most, each decoded from its 30 bytes. *)
Lemma parse_addr_payload_spec payload count offset :
  read_varint payload 0 = Ok (count, offset) ->
  parse_addr_payload payload =
    Ok (map (fun i => addr_of_entry (addr_entry payload offset i))
            (seq 0 (Z.to_nat (Z.min count (whole_entries payload offset))))).
Proof.
  intros Hr. unfold parse_addr_payload. rewrite Hr. cbn [bind].
  destruct (read_varint_inv _ _ _ Hr) as (Hc & Ho1 & Ho2).
  rewrite addr_loop_spec; [reflexivity | lia |].
  rewrite Nat2Z.inj_succ.
  assert (Hd : Z.of_nat (length payload / 30) = len payload / 30).
  { unfold len. rewrite Nat2Z.inj_div. reflexivity. }
  rewrite Hd.
  pose proof (Z.div_mod (len payload) 30 ltac:(lia)).
  pose proof (Z.mod_pos_bound (len payload) 30 ltac:(lia)). lia.
Qed.

(** More fuel than the bound of [parse_addr_payload] changes nothing. *)
Lemma addr_loop_fuel fuel1 fuel2 count payload offset addresses :
  0 <= offset ->
  len payload - offset < 30 * Z.of_nat fuel1 ->
  len payload - offset < 30 * Z.of_nat fuel2 ->
  addr_loop fuel1 count payload offset addresses
  = addr_loop fuel2 count payload offset addresses.
Proof. intros. now rewrite !addr_loop_spec by assumption. Qed.

Lemma le_combine_cons_add x (l : bytes) :
  le_combine (x :: l) = byte.unsigned x + 256 * le_combine l.
Proof.
  change (le_combine (x :: l))
    with (Z.lor (byte.unsigned x) (Z.shiftl (le_combine l) 8)).
  pose proof (byte_unsigned_range x) as Hx.
  rewrite Z.shiftl_mul_pow2 by lia. change (2 ^ 8) with 256.
  rewrite Z.mul_comm.
  rewrite <- Z.lxor_lor, <- Z.add_nocarry_lxor; try reflexivity.
  - apply Z.bits_inj'. intros n Hn. rewrite Z.land_spec, Z.bits_0.
    destruct (Z.ltb_spec n 8).
    + replace (256 * le_combine l) with (le_combine l * 2 ^ 8) by (change (2 ^ 8) with 256; lia).
      rewrite (Z.mul_pow2_bits_low _ 8 n) by lia. apply andb_false_r.
    + rewrite (Z.bits_above_log2 (byte.unsigned x) n); [reflexivity | lia |].
      destruct (Z.eq_dec (byte.unsigned x) 0) as [->|]; [simpl; lia|].
      apply Z.lt_le_trans with 8; [|lia]. apply Z.log2_lt_pow2; simpl; lia.
  - apply Z.bits_inj'. intros n Hn. rewrite Z.land_spec, Z.bits_0.
    destruct (Z.ltb_spec n 8).
    + replace (256 * le_combine l) with (le_combine l * 2 ^ 8) by (change (2 ^ 8) with 256; lia).
      rewrite (Z.mul_pow2_bits_low _ 8 n) by lia. apply andb_false_r.
    + rewrite (Z.bits_above_log2 (byte.unsigned x) n); [reflexivity | lia |].
      destruct (Z.eq_dec (byte.unsigned x) 0) as [->|]; [simpl; lia|].
      apply Z.lt_le_trans with 8; [|lia]. apply Z.log2_lt_pow2; simpl; lia.
Qed.

(** Two bytes read big endian. *)
Lemma be16_value p0 p1 :
  le_combine (rev [p0; p1]) = 256 * byte.unsigned p0 + byte.unsigned p1.
Proof.
  cbn [rev app]. rewrite !le_combine_cons_add.
  change (le_combine []) with 0. lia.
Qed.

Lemma whole_entries_ge payload offset k :
  0 <= k -> offset + 30 * k <= len payload -> k <= whole_entries payload offset.
Proof.
  intros Hk H. unfold whole_entries. apply Z.div_le_lower_bound; lia.
Qed.

Lemma nth_error_map_seq {A} (f : nat -> A) n i :
  (i < n)%nat -> nth_error (map f (seq 0 n)) i = Some (f i).
Proof.
  intros H. rewrite nth_error_map, nth_error_seq.
  destruct (Nat.ltb_spec i n); [reflexivity | lia].
Qed.

(** C8.  For every entry of an addr payload that is there in full (its 30
    bytes [e] lie within the payload and its index is below the count),
    [parse_addr_payload] returns at that index a NetAddr whose timestamp is
    the first 4 bytes little endian, whose services are the next 8 bytes
    little endian, whose port is the last 2 bytes big endian, and whose ip
    is the dotted quad of the last 4 bytes of the 16-byte IP field when
    that field starts with 10 zero bytes and ff ff, and the text
    [inet_ntop] gives for the 16 bytes otherwise. *)
Theorem addr_entry_fields payload count offset i :
  read_varint payload 0 = Ok (count, offset) ->
  Z.of_nat i < count ->
  offset + 30 * (Z.of_nat i + 1) <= len payload ->
  let e := addr_entry payload offset i in
  exists addresses a,
    parse_addr_payload payload = Ok addresses
    /\ nth_error addresses i = Some a
    /\ length e = 30%nat
    /\ na_timestamp a = Some (le_combine (slice e 0 4))
    /\ na_services a = le_combine (slice e 4 12)
    /\ (exists p0 p1,
          slice e 28 30 = [p0; p1]
          /\ na_port a = 256 * byte.unsigned p0 + byte.unsigned p1)
    /\ (slice e 12 24 = zeros 10 ++ [Byte.xff; Byte.xff] ->
        exists b0 b1 b2 b3,
          slice e 24 28 = [b0; b1; b2; b3]
          /\ na_ip a = Socket.dotted (byte.unsigned b0) (byte.unsigned b1)
                                     (byte.unsigned b2) (byte.unsigned b3))
    /\ (slice e 12 24 <> zeros 10 ++ [Byte.xff; Byte.xff] ->
        inet_ntop6 (slice e 12 28) = Ok (na_ip a)).
Proof.
  intros Hr Hi Hlen e.
  destruct (read_varint_inv _ _ _ Hr) as (Hc & Ho1 & Ho2).
  pose proof (whole_entries_ge payload offset (Z.of_nat i + 1) ltac:(lia) Hlen) as Hw.
  assert (Le : length e = 30%nat).
  { unfold e, addr_entry. rewrite length_slice; lia. }
  exists (map (fun j => addr_of_entry (addr_entry payload offset j))
              (seq 0 (Z.to_nat (Z.min count (whole_entries payload offset))))),
         (addr_of_entry e).
  split; [exact (parse_addr_payload_spec _ _ _ Hr)|].
  split.
  { unfold e.
    apply (nth_error_map_seq (fun j => addr_of_entry (addr_entry payload offset j))).
    lia. }
  split; [exact Le|].
  unfold addr_of_entry. cbn [na_timestamp na_services na_port na_ip].
  split; [reflexivity|]. split; [reflexivity|].
  assert (Lp : length (slice e 28 30) = 2%nat)
    by (rewrite length_slice; unfold len; lia).
  assert (L4 : length (slice e 24 28) = 4%nat)
    by (rewrite length_slice; unfold len; lia).
  split; [|split].
  - destruct (slice e 28 30) as [|p0 [|p1 [|? ?]]]; try discriminate.
    exists p0, p1. split; [reflexivity | apply be16_value].
  - intros Hpre. fold IPV4_MAPPED_PREFIX in Hpre.
    rewrite (proj2 (bytes_eqb_eq _ _) Hpre).
    destruct (slice e 24 28) as [|b0 [|b1 [|b2 [|b3 [|? ?]]]]]; try discriminate.
    exists b0, b1, b2, b3. split; reflexivity.
  - intros Hpre. fold IPV4_MAPPED_PREFIX in Hpre.
    destruct (bytes_eqb (slice e 12 24) IPV4_MAPPED_PREFIX) eqn:E.
    + apply bytes_eqb_eq in E. contradiction.
    + apply inet_ntop6_ok. rewrite length_slice; unfold len; lia.
Qed.

Lemma addr_entry_fields_witness :
  exists addresses a,
    parse_addr_payload addr_payload_example = Ok addresses
    /\ nth_error addresses 1 = Some a
    /\ na_timestamp a = Some 1700000001
    /\ na_services a = 1033
    /\ na_port a = 8333
    /\ na_ip a = lit "2001:db8::1".
Proof.
  destruct (addr_entry_fields addr_payload_example 3 1 1)
    as (addresses & a & Hp & Hn & _ & Ht & Hs & (p0 & p1 & Hpb & Hport) & _ & Hip).
  - vm_compute. reflexivity.
  - lia.
  - vm_compute. congruence.
  - exists addresses, a. split; [exact Hp|]. split; [exact Hn|].
    split; [rewrite Ht; vm_compute; reflexivity|].
    split; [rewrite Hs; vm_compute; reflexivity|].
    split.
    + rewrite Hport. vm_compute in Hpb.
      apply (f_equal (map byte.unsigned)) in Hpb. cbn [map] in Hpb.
      injection Hpb as <- <-. reflexivity.
    + assert (Hne : slice (addr_entry addr_payload_example 1 1) 12 24
                    <> zeros 10 ++ [Byte.xff; Byte.xff])
        by (vm_compute; discriminate).
      specialize (Hip Hne).
      assert (Hs6 : inet_ntop6 (slice (addr_entry addr_payload_example 1 1) 12 28)
                    = Ok (lit "2001:db8::1")) by (vm_compute; reflexivity).
      rewrite Hs6 in Hip. apply Ok_inj in Hip. symmetry. exact Hip.
Defined.

(** C10.  For every addr payload whose count can be read,
    [parse_addr_payload] raises nothing and returns the entries that are
    there in full, [count] of them at most: as many as the smaller of
    [count] and the number of whole 30-byte entries after the count.  It
    stops at the first place where fewer than 30 bytes are left; what is
    left there is dropped without an error. *)
Theorem addr_payload_truncated payload count offset :
  read_varint payload 0 = Ok (count, offset) ->
  exists addresses,
    parse_addr_payload payload = Ok addresses
    /\ len addresses <= count
    /\ len addresses = Z.min count (whole_entries payload offset)
    /\ (forall i, (i < length addresses)%nat ->
                  offset + 30 * (Z.of_nat i + 1) <= len payload
                  /\ nth_error addresses i
                     = Some (addr_of_entry (addr_entry payload offset i)))
    /\ (len addresses < count ->
        len payload < offset + 30 * len addresses + 30).
Proof.
  intros Hr.
  destruct (read_varint_inv _ _ _ Hr) as (Hc & Ho1 & Ho2).
  assert (Hw : 0 <= whole_entries payload offset)
    by (unfold whole_entries; apply Z.div_pos; lia).
  eexists. split; [exact (parse_addr_payload_spec _ _ _ Hr)|].
  set (n := Z.to_nat (Z.min count (whole_entries payload offset))).
  assert (Hn : Z.of_nat n = Z.min count (whole_entries payload offset)) by lia.
  clearbody n.
  set (f := fun i => addr_of_entry (addr_entry payload offset i)).
  assert (Hl : len (map f (seq 0 n)) = Z.of_nat n)
    by (unfold len; now rewrite length_map, length_seq).
  rewrite Hl, length_map, length_seq.
  pose proof (Z.div_mod (len payload - offset) 30 ltac:(lia)) as Hdm.
  pose proof (Z.mod_pos_bound (len payload - offset) 30 ltac:(lia)) as Hmb.
  fold (whole_entries payload offset) in Hdm.
  split; [lia|]. split; [exact Hn|]. split.
  - intros i Hi. split; [lia|]. apply (nth_error_map_seq f). exact Hi.
  - intros Hlt. lia.
Qed.

Lemma addr_payload_truncated_witness :
  exists addresses,
    parse_addr_payload addr_payload_example = Ok addresses
    /\ len addresses = 2.
Proof.
  destruct (addr_payload_truncated addr_payload_example 3 1)
    as (addresses & Hp & _ & Hl & _).
  - vm_compute. reflexivity.
  - exists addresses. split; [exact Hp|]. rewrite Hl. vm_compute. reflexivity.
Defined.
(* ===================================================================== *)
(** ** The GeoIP cache *)
(* ===================================================================== *)

Section GeoIPCache.
Import GeoIP.
Variable V : Type.
Abbreviation dict := (dict V).
Abbreviation GeoIPLookup := (GeoIPLookup V).

Lemma str_eqb_eq a b : str_eqb a b = true <-> a = b.
Proof.
  revert b. induction a as [|x a IH]; intros [|y b]; simpl; split; intros H;
    try reflexivity; try discriminate.
  - apply andb_true_iff in H as [H1 H2]. apply Z.eqb_eq in H1. apply IH in H2.
    congruence.
  - inversion H; subst. apply andb_true_iff. split; [apply Z.eqb_refl | now apply IH].
Qed.

Lemma str_eqb_refl a : str_eqb a a = true.
Proof. now apply str_eqb_eq. Qed.

(** Storing under a key that is not in the dict appends an item. *)
Lemma dict_set_new (d : dict) k v :
  dict_find V d k = None -> dict_set V d k v = d ++ [(k, v)].
Proof.
  unfold dict_find. induction d as [|[k' v'] d IH]; [reflexivity|].
  cbn [find dict_set fst]. destruct (str_eqb k' k); [discriminate|].
  intros H. now rewrite IH.
Qed.

(** Deleting the first [m] keys removes the first [m] items. *)
Lemma delete_first_keys m : forall d : dict,
  delete_keys V d (firstn m (dict_keys V d)) = skipn m d.
Proof.
  induction m as [|m IH]; intros d; [reflexivity|].
  destruct d as [|[k v] d]; [reflexivity|].
  unfold delete_keys, dict_keys in *. cbn [map firstn fold_left fst dict_del skipn].
  rewrite str_eqb_refl. apply IH.
Qed.

Lemma slice_0 {A} (l : list A) n : slice l 0 n = firstn (Z.to_nat n) l.
Proof. unfold slice. rewrite Z.sub_0_r. reflexivity. Qed.

(** What one call of [lookup] does to the cache. *)
Lemma lookup_cache (self : GeoIPLookup) ip :
  _cache V (snd (lookup V self ip)) =
    match cache_after_insert V self ip with
    | None => _cache V self
    | Some c1 => if 10000 <? len c1 then slice_from c1 5000 else c1
    end.
Proof.
  unfold lookup, cache_after_insert.
  destruct (dict_find V (_cache V self) ip); [reflexivity|].
  destruct (reader V self) as [rd|]; [|reflexivity].
  cbv zeta. cbn [snd with_cache _cache].
  destruct (10000 <? len _); [|reflexivity].
  rewrite slice_0. apply delete_first_keys.
Qed.

Lemma cache_after_insert_app (self : GeoIPLookup) ip c1 :
  cache_after_insert V self ip = Some c1 ->
  c1 = _cache V self ++ [(ip, fst (lookup V self ip))].
Proof.
  unfold cache_after_insert, lookup.
  destruct (dict_find V (_cache V self) ip) eqn:E; [discriminate|].
  destruct (reader V self) as [rd|]; [|discriminate].
  intros [= <-]. cbn [fst]. now apply dict_set_new.
Qed.

Lemma len_slice_from {A} (l : list A) n :
  0 <= n <= len l -> len (slice_from l n) = len l - n.
Proof. intros H. unfold slice_from, len in *. rewrite length_skipn. lia. Qed.

(** One call keeps the cache within its bound. *)
Lemma lookup_bounded (self : GeoIPLookup) ip :
  len (_cache V self) <= 10000 ->
  len (_cache V (snd (lookup V self ip))) <= 10000.
Proof.
  intros Hb. rewrite lookup_cache.
  destruct (cache_after_insert V self ip) as [c1|] eqn:E; [|exact Hb].
  apply cache_after_insert_app in E.
  assert (Hl : len c1 = len (_cache V self) + 1).
  { rewrite E, len_app. reflexivity. }
  destruct (Z.ltb_spec 10000 (len c1)); [|lia].
  rewrite len_slice_from; lia.
Qed.

Lemma run_bounded ips : forall self : GeoIPLookup,
  len (_cache V self) <= 10000 ->
  len (_cache V (run V self ips)) <= 10000.
Proof.
  unfold run. induction ips as [|ip ips IH]; intros self Hb; [exact Hb|].
  cbn [fold_left]. apply IH. now apply lookup_bounded.
Qed.

Lemma run_app (self : GeoIPLookup) ips1 ips2 :
  run V self (ips1 ++ ips2) = run V (run V self ips1) ips2.
Proof. unfold run. apply fold_left_app. Qed.

Lemma lookup_reader (self : GeoIPLookup) ip :
  reader V (snd (lookup V self ip)) = reader V self.
Proof.
  unfold lookup. destruct (dict_find V (_cache V self) ip); [reflexivity|].
  destruct (reader V self) eqn:E; [|exact E].
  cbv zeta. cbn [snd with_cache reader]. exact E.
Qed.

Lemma run_reader ips : forall self : GeoIPLookup,
  reader V (run V self ips) = reader V self.
Proof.
  unfold run. induction ips as [|ip ips IH]; intros self; [reflexivity|].
  cbn [fold_left]. rewrite IH. apply lookup_reader.
Qed.

Lemma dict_find_absent (d : dict) k :
  ~ In k (dict_keys V d) -> dict_find V d k = None.
Proof.
  unfold dict_find, dict_keys. induction d as [|[k' v'] d IH]; [reflexivity|].
  cbn [map In find fst]. intros H.
  destruct (str_eqb k' k) eqn:E.
  - apply str_eqb_eq in E. tauto.
  - apply IH. tauto.
Qed.

(** Looking up distinct addresses with a database loaded fills the
    cache item by item while it has room. *)
Lemma run_fills rd a ips :
  NoDup ips -> len ips <= 10000 ->
  dict_keys V (_cache V (run V (init V (Some rd) a) ips)) = ips.
Proof.
  induction ips as [|ip ips IH] using rev_ind; intros Hnd Hlen; [reflexivity|].
  rewrite len_app in Hlen. change (len [ip]) with 1 in Hlen.
  apply NoDup_remove in Hnd as [Hnd Hnotin]. rewrite app_nil_r in Hnd, Hnotin.
  specialize (IH Hnd ltac:(lia)).
  rewrite run_app. set (self := run V (init V (Some rd) a) ips) in *.
  assert (Hrd : reader V self = Some rd) by (unfold self; now rewrite run_reader).
  unfold run at 1. cbn [fold_left]. rewrite lookup_cache.
  assert (Hfind : dict_find V (_cache V self) ip = None)
    by (apply dict_find_absent; rewrite IH; exact Hnotin).
  unfold cache_after_insert. rewrite Hfind, Hrd.
  rewrite dict_set_new by exact Hfind.
  assert (Hl : len (_cache V self) = len ips).
  { apply (f_equal (@len str)) in IH. rewrite <- IH.
    unfold len, dict_keys. now rewrite length_map. }
  destruct (Z.ltb_spec 10000 (len (_cache V self ++ [(ip, asn_lookup V (asn_reader V self) ip (city_lookup V rd ip (null_result V)))]))) as [H|H].
  - rewrite len_app in H. change (len [_]) with 1 in H. lia.
  - unfold dict_keys in *. rewrite map_app, IH. reflexivity.
Qed.

(** 10001 distinct addresses: their code points are their numbers. *)
Lemma distinct_keys n : NoDup (map (fun i => [Z.of_nat i]) (seq 0 n)).
Proof.
  apply Finite.Injective_map_NoDup; [|apply seq_NoDup].
  intros i j [= H]. lia.
Qed.

Lemma cache_overflow_after n (rd : str -> answer (CityResponse V)) a :
  Z.of_nat n = 10000 ->
  exists c1,
    cache_after_insert V
      (run V (init V (Some rd) a) (map (fun i => [Z.of_nat i]) (seq 0 n)))
      [Z.of_nat n] = Some c1
    /\ len c1 = 10001.
Proof.
  intros Hn.
  set (ips := map (fun i => [Z.of_nat i]) (seq 0 n)).
  assert (Hlen : len ips = 10000).
  { unfold ips, len. rewrite length_map, length_seq. exact Hn. }
  assert (Hle : len ips <= 10000) by lia.
  pose proof (run_fills rd a ips (distinct_keys n) Hle) as Hk.
  set (self := run V (init V (Some rd) a) ips) in *.
  assert (Hrd : reader V self = Some rd) by (unfold self; now rewrite run_reader).
  assert (Hfind : dict_find V (_cache V self) [Z.of_nat n] = None).
  { apply dict_find_absent. rewrite Hk. unfold ips.
    rewrite in_map_iff. intros (i & E & Hi). apply in_seq in Hi.
    assert (Z.of_nat i = Z.of_nat n) by congruence. lia. }
  unfold cache_after_insert. rewrite Hfind, Hrd. eexists. split; [reflexivity|].
  rewrite dict_set_new by exact Hfind. rewrite len_app.
  apply (f_equal (@length (list Z))) in Hk.
  unfold dict_keys in Hk. rewrite length_map in Hk.
  unfold len in Hlen |- *. cbn [length]. rewrite Hk, Hlen. reflexivity.
Qed.

(** The cache does overflow: after 10000 distinct addresses the next
    new one makes the 10001st item. *)
Lemma cache_overflow_reachable (rd : str -> answer (CityResponse V)) a :
  exists ips ip c1,
    cache_after_insert V (run V (init V (Some rd) a) ips) ip = Some c1
    /\ len c1 = 10001.
Proof.
  destruct (cache_overflow_after (Z.to_nat 10000) rd a) as (c1 & H1 & H2).
  - apply Z2Nat.id. lia.
  - eauto.
Qed.

(** C9.  After every call of [lookup], whatever calls came before, the
    cache holds at most 10000 items.  A call that stores nothing leaves
    the cache as it was; a call that stores its result appends one item,
    and when that makes more than 10000 items the cache is cut, within the
    same call, to what follows its first 5000 items, the ones stored
    earliest. *)
Theorem cache_bounded r a (ips : list str) (ip : str) :
  let self := run V (init V r a) ips in
  let self' := snd (lookup V self ip) in
  len (_cache V self) <= 10000
  /\ len (_cache V self') <= 10000
  /\ match cache_after_insert V self ip with
     | None => _cache V self' = _cache V self
     | Some c1 =>
         c1 = _cache V self ++ [(ip, fst (lookup V self ip))]
         /\ if 10000 <? len c1
            then _cache V self' = slice_from c1 5000
                 /\ len (_cache V self') = len c1 - 5000
            else _cache V self' = c1
     end.
Proof.
  intros self self'.
  assert (Hb : len (_cache V self) <= 10000).
  { unfold self. apply run_bounded. cbn. unfold len. simpl. lia. }
  split; [exact Hb|]. split; [now apply lookup_bounded|].
  unfold self'. rewrite lookup_cache.
  destruct (cache_after_insert V self ip) as [c1|] eqn:E; [|reflexivity].
  split; [now apply cache_after_insert_app|].
  destruct (Z.ltb_spec 10000 (len c1)); [|reflexivity].
  split; [reflexivity|]. apply len_slice_from. lia.
Qed.

End GeoIPCache.
(* ===================================================================== *)
(** ** The configuration loader *)
(* ===================================================================== *)

Module ConfigProps.
Import stdpp.base stdpp.gmap stdpp.strings.
Import Config ConfigExamples.
Local Open Scope Z_scope.
Local Open Scope py_scope.

Section WithFloat.
Context {F : PyFloat}.
Implicit Types (env : gmap string str) (crawler_yaml : gmap string pyval).

(** The three sources of an option, in their order. *)
Lemma resolved_env env crawler_yaml name key dflt s :
  env !! name = Some s -> resolved env crawler_yaml name key dflt = s.
Proof. intros H. unfold resolved, getenv_or. now rewrite H. Qed.

Lemma resolved_yaml env crawler_yaml name key dflt v :
  env !! name = None -> crawler_yaml !! key = Some v ->
  resolved env crawler_yaml name key dflt = py_str v.
Proof. intros H1 H2. unfold resolved, getenv_or, dict_get. now rewrite H1, H2. Qed.

Lemma resolved_default env crawler_yaml name key dflt :
  env !! name = None -> crawler_yaml !! key = None ->
  resolved env crawler_yaml name key dflt = py_str dflt.
Proof. intros H1 H2. unfold resolved, getenv_or, dict_get. now rewrite H1, H2. Qed.

(** An integer of the YAML file is read back as it is. *)
Lemma int_of_py_str z : Text.int_of_str (py_str (PyInt z)) = Ok z.
Proof. apply int_of_str_of_int. Qed.

(** The successful runs of [load_config]: where every field comes from,
    what the validation has checked, and what was printed. *)
Lemma load_config_ok cfg env crawler_yaml out c :
  load_config cfg env crawler_yaml = Ok (out, c) ->
  Text.int_of_str (resolved env crawler_yaml "PRUNE_AFTER_HOURS" "pruneAfterHours" (PyInt 168))
    = Ok (prune_after_hours c)
  /\ Text.int_of_str (resolved env crawler_yaml "CRAWLER_INTERVAL_MINUTES"
                               "scanIntervalMinutes" (PyInt 5))
     = Ok (interval_minutes c)
  /\ Text.int_of_str (resolved env crawler_yaml "MAX_CONCURRENT_CONNECTIONS"
                               "maxConcurrentConnections" (PyInt 100))
     = Ok (max_concurrent c)
  /\ Text.int_of_str (resolved env crawler_yaml "CONNECTION_TIMEOUT_SECONDS"
                               "connectionTimeoutSeconds" (PyInt 10))
     = Ok (connection_timeout c)
  /\ Text.int_of_str (resolved env crawler_yaml "EXTENDED_TIMEOUT_SECONDS"
                               "extendedTimeoutSeconds" (PyInt 30))
     = Ok (extended_timeout c)
  /\ Text.int_of_str (resolved env crawler_yaml "MAX_RETRIES" "maxRetries" (PyInt 3))
     = Ok (max_retries c)
  /\ float_of_str (resolved env crawler_yaml "INITIAL_RETRY_DELAY_SECONDS"
                            "initialRetryDelaySeconds" (PyInt 1))
     = Ok (initial_retry_delay c)
  /\ float_of_str (resolved env crawler_yaml "RETRY_BACKOFF_MULTIPLIER"
                            "retryBackoffMultiplier" (PyInt 2))
     = Ok (retry_backoff_multiplier c)
  /\ Text.int_of_str (getenv_or env "GETADDR_DELAY_MS" (lit "100")) = Ok (getaddr_delay_ms c)
  /\ require_version_for_save c = dict_get crawler_yaml "requireVersionForSave" (PyBool true)
  /\ fallback_protocol_versions c
     = match dict_get crawler_yaml "fallbackProtocolVersions" (PyList []) with
       | PyList l => l
       | _ => []
       end
  /\ 0 <= max_retries c
  /\ 0 < connection_timeout c <= extended_timeout c
  /\ float_le0 (initial_retry_delay c) = false
  /\ float_lt1 (retry_backoff_multiplier c) = false
  /\ out = if 10 <? max_retries c then [retries_warning (max_retries c)] else [].
Proof.
  unfold load_config. fold (retries_warning).
  repeat match goal with
         | |- context [getenv_or env ?n (py_str (dict_get crawler_yaml ?k ?d))] =>
             change (getenv_or env n (py_str (dict_get crawler_yaml k d)))
               with (resolved env crawler_yaml n k d)
         end.
  destruct (Text.int_of_str (resolved env crawler_yaml "PRUNE_AFTER_HOURS" _ _))
    as [v1|] eqn:E1; cbn [bind]; [|discriminate].
  destruct (Text.int_of_str (resolved env crawler_yaml "CRAWLER_INTERVAL_MINUTES" _ _))
    as [v2|] eqn:E2; cbn [bind]; [|discriminate].
  destruct (Text.int_of_str (resolved env crawler_yaml "MAX_CONCURRENT_CONNECTIONS" _ _))
    as [v3|] eqn:E3; cbn [bind]; [|discriminate].
  destruct (Text.int_of_str (resolved env crawler_yaml "CONNECTION_TIMEOUT_SECONDS" _ _))
    as [v4|] eqn:E4; cbn [bind]; [|discriminate].
  destruct (Text.int_of_str (resolved env crawler_yaml "EXTENDED_TIMEOUT_SECONDS" _ _))
    as [v5|] eqn:E5; cbn [bind]; [|discriminate].
  destruct (Text.int_of_str (resolved env crawler_yaml "MAX_RETRIES" _ _))
    as [v6|] eqn:E6; cbn [bind]; [|discriminate].
  destruct (float_of_str (resolved env crawler_yaml "INITIAL_RETRY_DELAY_SECONDS" _ _))
    as [x7|] eqn:E7; cbn [bind]; [|discriminate].
  destruct (float_of_str (resolved env crawler_yaml "RETRY_BACKOFF_MULTIPLIER" _ _))
    as [x8|] eqn:E8; cbn [bind]; [|discriminate].
  cbv zeta.
  destruct (Z.ltb_spec v6 0); [discriminate|].
  destruct (Z.leb_spec v4 0); [discriminate|].
  destruct (Z.ltb_spec v5 v4); [discriminate|].
  destruct (float_le0 x7) eqn:L7; [discriminate|].
  destruct (float_lt1 x8) eqn:L8; [discriminate|].
  set (fb := dict_get crawler_yaml "fallbackProtocolVersions" (PyList [])).
  assert (Hfb : forall k : list pyval -> result (list str * CrawlerConfig),
             (r <- match fb with
                   | PyList l =>
                       if forallb isinstance_int l then Ok l
                       else Raise (ValueError "fallbackProtocolVersions must be integers")
                   | _ => Ok []
                   end ;; k r) = Ok (out, c) ->
             k (match fb with PyList l => l | _ => [] end) = Ok (out, c)).
  { intros k. destruct fb; cbn [bind]; try (intros H'; exact H').
    destruct (forallb isinstance_int l); cbn [bind]; [intros H'; exact H' | discriminate]. }
  intros Hload. apply Hfb in Hload. clear Hfb.
  destruct (Text.int_of_str (getenv_or env "RPC_PORT" _)) as [v9|] eqn:E9;
    cbn [bind] in Hload; [|discriminate].
  destruct (Text.int_of_str (getenv_or env "GETADDR_DELAY_MS" _)) as [v10|] eqn:E10;
    cbn [bind] in Hload; [|discriminate].
  apply Ok_inj in Hload. injection Hload as <- <-.
  cbn [prune_after_hours interval_minutes max_concurrent connection_timeout
       extended_timeout max_retries initial_retry_delay retry_backoff_multiplier
       getaddr_delay_ms require_version_for_save fallback_protocol_versions].
  repeat split; try assumption; try reflexivity; lia.
Qed.

(** [getaddr_delay_ms] depends on the environment alone. *)
Lemma getaddr_delay_env_only cfg env crawler_yaml crawler_yaml' out c out' c' :
  load_config cfg env crawler_yaml = Ok (out, c) ->
  load_config cfg env crawler_yaml' = Ok (out', c') ->
  getaddr_delay_ms c = getaddr_delay_ms c'.
Proof.
  intros H1 H2.
  apply load_config_ok in H1 as (_ & _ & _ & _ & _ & _ & _ & _ & G1 & _).
  apply load_config_ok in H2 as (_ & _ & _ & _ & _ & _ & _ & _ & G2 & _).
  rewrite G1 in G2. now apply Ok_inj in G2.
Qed.

(** [fallbackProtocolVersions] and [requireVersionForSave] depend on the
    YAML file alone. *)
Lemma yaml_only_options cfg env env' crawler_yaml out c out' c' :
  load_config cfg env crawler_yaml = Ok (out, c) ->
  load_config cfg env' crawler_yaml = Ok (out', c') ->
  fallback_protocol_versions c = fallback_protocol_versions c'
  /\ require_version_for_save c = require_version_for_save c'.
Proof.
  intros H1 H2.
  apply load_config_ok in H1 as (_ & _ & _ & _ & _ & _ & _ & _ & _ & R1 & B1 & _).
  apply load_config_ok in H2 as (_ & _ & _ & _ & _ & _ & _ & _ & _ & R2 & B2 & _).
  split; congruence.
Qed.

Lemma int_of_str_raises s e :
  Text.int_of_str s = Raise e ->
  e = ValueError "invalid literal for int() with base 10".
Proof.
  unfold Text.int_of_str. destruct (Text.split_sign _) as [sign s2].
  destruct (Text.scan_digits s2 0 0); [discriminate|].
  intros H. injection H as <-. reflexivity.
Qed.

(** An error raised by a conversion is none of the two range errors. *)
Ltac other_error Hx E :=
  intros Hload; apply Raise_inj in Hload; subst;
  destruct (Hx _ _ E) as [N1 N2]; split; intros Habs; contradiction.

(** The failing runs of [load_config]: the two errors about [maxRetries]
    and [retryBackoffMultiplier] come from their checks and from nowhere
    else. *)
Lemma load_config_raises cfg env crawler_yaml e :
  load_config cfg env crawler_yaml = Raise e ->
  (e = ValueError "maxRetries must be >= 0" ->
   exists v, Text.int_of_str (resolved env crawler_yaml "MAX_RETRIES" "maxRetries" (PyInt 3))
             = Ok v /\ v < 0)
  /\ (e = ValueError "retryBackoffMultiplier must be >= 1" ->
      exists x, float_of_str (resolved env crawler_yaml "RETRY_BACKOFF_MULTIPLIER"
                                       "retryBackoffMultiplier" (PyInt 2)) = Ok x
                /\ float_lt1 x = true).
Proof.
  unfold load_config.
  repeat match goal with
         | |- context [getenv_or env ?n (py_str (dict_get crawler_yaml ?k ?d))] =>
             change (getenv_or env n (py_str (dict_get crawler_yaml k d)))
               with (resolved env crawler_yaml n k d)
         end.
  assert (Hi : forall s v, Text.int_of_str s = Raise v ->
               v <> ValueError "maxRetries must be >= 0"
               /\ v <> ValueError "retryBackoffMultiplier must be >= 1").
  { intros s v Hs. apply int_of_str_raises in Hs. subst v. split; discriminate. }
  assert (Hf : forall s v, float_of_str s = Raise v ->
               v <> ValueError "maxRetries must be >= 0"
               /\ v <> ValueError "retryBackoffMultiplier must be >= 1").
  { intros s v Hs. apply float_of_str_raises in Hs. subst v. split; discriminate. }
  destruct (Text.int_of_str (resolved env crawler_yaml "PRUNE_AFTER_HOURS" _ _))
    as [v1|] eqn:E1; cbn [bind]; [|other_error Hi E1].
  destruct (Text.int_of_str (resolved env crawler_yaml "CRAWLER_INTERVAL_MINUTES" _ _))
    as [v2|] eqn:E2; cbn [bind]; [|other_error Hi E2].
  destruct (Text.int_of_str (resolved env crawler_yaml "MAX_CONCURRENT_CONNECTIONS" _ _))
    as [v3|] eqn:E3; cbn [bind]; [|other_error Hi E3].
  destruct (Text.int_of_str (resolved env crawler_yaml "CONNECTION_TIMEOUT_SECONDS" _ _))
    as [v4|] eqn:E4; cbn [bind]; [|other_error Hi E4].
  destruct (Text.int_of_str (resolved env crawler_yaml "EXTENDED_TIMEOUT_SECONDS" _ _))
    as [v5|] eqn:E5; cbn [bind]; [|other_error Hi E5].
  destruct (Text.int_of_str (resolved env crawler_yaml "MAX_RETRIES" _ _))
    as [v6|] eqn:E6; cbn [bind]; [|other_error Hi E6].
  destruct (float_of_str (resolved env crawler_yaml "INITIAL_RETRY_DELAY_SECONDS" _ _))
    as [x7|] eqn:E7; cbn [bind]; [|other_error Hf E7].
  destruct (float_of_str (resolved env crawler_yaml "RETRY_BACKOFF_MULTIPLIER" _ _))
    as [x8|] eqn:E8; cbn [bind]; [|other_error Hf E8].
  cbv zeta.
  destruct (Z.ltb_spec v6 0).
  { intros Hload. apply Raise_inj in Hload. subst e. split; [eauto | discriminate]. }
  destruct (Z.leb_spec v4 0).
  { intros Hload. apply Raise_inj in Hload. subst e. split; discriminate. }
  destruct (Z.ltb_spec v5 v4).
  { intros Hload. apply Raise_inj in Hload. subst e. split; discriminate. }
  destruct (float_le0 x7) eqn:L7.
  { intros Hload. apply Raise_inj in Hload. subst e. split; discriminate. }
  destruct (float_lt1 x8) eqn:L8.
  { intros Hload. apply Raise_inj in Hload. subst e. split; [discriminate | eauto]. }
  destruct (dict_get crawler_yaml "fallbackProtocolVersions" (PyList [])) as [| | | | |l|];
    cbn [bind];
    try (destruct (forallb isinstance_int l); cbn [bind];
         [|intros Hload; apply Raise_inj in Hload; subst e; split; discriminate]);
    (destruct (Text.int_of_str (getenv_or env "RPC_PORT" _)) as [v9|] eqn:E9; cbn [bind];
     [|other_error Hi E9];
     destruct (Text.int_of_str (getenv_or env "GETADDR_DELAY_MS" _)) as [v10|] eqn:E10;
     cbn [bind]; [discriminate | other_error Hi E10]).
Qed.

(** C7 (as amended).  [load_config] raises whenever maxRetries is below 0
    and whenever retryBackoffMultiplier is below 1.  It raises the error
    about maxRetries only for a value below 0 and the error about
    retryBackoffMultiplier only for a value below 1, so values within the
    ranges are never the reason of a failure.  A maxRetries above 10 is
    accepted: a run that succeeds has maxRetries >= 0 and a multiplier that
    is not below 1, and it has printed the warning line exactly when
    maxRetries is above 10. *)
Theorem retries_and_multiplier_checks cfg env crawler_yaml :
  let retries :=
    Text.int_of_str (resolved env crawler_yaml "MAX_RETRIES" "maxRetries" (PyInt 3)) in
  let multiplier :=
    float_of_str (resolved env crawler_yaml "RETRY_BACKOFF_MULTIPLIER"
                           "retryBackoffMultiplier" (PyInt 2)) in
  (forall v, retries = Ok v -> v < 0 ->
             exists e, load_config cfg env crawler_yaml = Raise e)
  /\ (forall x, multiplier = Ok x -> float_lt1 x = true ->
                exists e, load_config cfg env crawler_yaml = Raise e)
  /\ (forall e, load_config cfg env crawler_yaml = Raise e ->
                (e = ValueError "maxRetries must be >= 0" ->
                 exists v, retries = Ok v /\ v < 0)
                /\ (e = ValueError "retryBackoffMultiplier must be >= 1" ->
                    exists x, multiplier = Ok x /\ float_lt1 x = true))
  /\ (forall out c, load_config cfg env crawler_yaml = Ok (out, c) ->
                    retries = Ok (max_retries c)
                    /\ 0 <= max_retries c
                    /\ multiplier = Ok (retry_backoff_multiplier c)
                    /\ float_lt1 (retry_backoff_multiplier c) = false
                    /\ out = if 10 <? max_retries c
                             then [retries_warning (max_retries c)] else []).
Proof.
  intros retries multiplier.
  assert (Hraise : forall r : result (list str * CrawlerConfig),
             (forall out c, r = Ok (out, c) -> False) -> exists e, r = Raise e).
  { intros [[out c]|e] Hr; [destruct (Hr out c eq_refl) | eauto]. }
  split; [|split; [|split]].
  - intros v Hv Hneg. apply Hraise. intros out c Hok.
    apply load_config_ok in Hok as (_ & _ & _ & _ & _ & Hm & _ & _ & _ & _ & _ & H0 & _).
    fold retries in Hm. rewrite Hv in Hm. apply Ok_inj in Hm. lia.
  - intros x Hx Hlt. apply Hraise. intros out c Hok.
    apply load_config_ok in Hok
      as (_ & _ & _ & _ & _ & _ & _ & Hm & _ & _ & _ & _ & _ & _ & H1 & _).
    fold multiplier in Hm. rewrite Hx in Hm. apply Ok_inj in Hm. subst x.
    rewrite Hlt in H1. discriminate.
  - intros e He. exact (load_config_raises _ _ _ _ He).
  - intros out c Hok.
    apply load_config_ok in Hok
      as (_ & _ & _ & _ & _ & Hm & _ & Hx & _ & _ & _ & H0 & _ & _ & H1 & Hout).
    repeat split; assumption.
Qed.

End WithFloat.

(** Closed runs of [load_config] are evaluated once and then used as
    equations. *)
Ltac evaluated t :=
  let v := eval vm_compute in t in
  let E := fresh "E" in
  assert (E : t = v) by (vm_cast_no_check (@eq_refl _ v)).

(** With [MAX_RETRIES=11], a value outside 0-10, [load_config] does not
    raise: it prints the warning line and returns a configuration whose
    [max_retries] is 11. *)
Lemma max_retries_11_accepted :
  exists c,
    load_config bitcoin_config env_retries_11 no_yaml = Ok ([retries_warning 11], c)
    /\ max_retries c = 11
    /\ (11 <? 0) || (10 <? 11) = true.
Proof.
  evaluated (load_config bitcoin_config env_retries_11 no_yaml).
  eexists. split; [exact E|]. split; reflexivity.
Qed.

(** With [RETRY_BACKOFF_MULTIPLIER=0.5], [load_config] raises. *)
Lemma retries_and_multiplier_checks_witness :
  exists e, load_config bitcoin_config env_multiplier_half no_yaml = Raise e.
Proof.
  evaluated (float_of_str (resolved env_multiplier_half no_yaml
                                    "RETRY_BACKOFF_MULTIPLIER"
                                    "retryBackoffMultiplier" (PyInt 2))).
  refine (proj1 (proj2 (retries_and_multiplier_checks
                          bitcoin_config env_multiplier_half no_yaml))
                (Float64.Fin false 4503599627370496 (-53)) E _).
  reflexivity.
Defined.

(** C6.  The option [getaddr_delay_ms] is not read from the YAML file: with
    no [GETADDR_DELAY_MS] in the environment and a [crawlerConfig] section
    that sets the delay to 250 (and the scan interval to 15),
    [load_config] returns the scan interval of the file, 15, but the
    default delay, 100. *)
Theorem getaddr_delay_not_from_yaml :
  yaml_getaddr_250 !! "getaddr_delay_ms"%string = Some (PyInt 250)
  /\ yaml_getaddr_250 !! "getaddrDelayMs"%string = Some (PyInt 250)
  /\ no_env !! "GETADDR_DELAY_MS"%string = None
  /\ exists out c,
       load_config bitcoin_config no_env yaml_getaddr_250 = Ok (out, c)
       /\ interval_minutes c = 15
       /\ getaddr_delay_ms c = 100.
Proof.
  evaluated (yaml_getaddr_250 !! "getaddr_delay_ms"%string).
  evaluated (yaml_getaddr_250 !! "getaddrDelayMs"%string).
  evaluated (no_env !! "GETADDR_DELAY_MS"%string).
  evaluated (load_config bitcoin_config no_env yaml_getaddr_250).
  split; [exact E|]. split; [exact E0|]. split; [exact E1|].
  eexists _, _. split; [exact E2|]. split; reflexivity.
Qed.

End ConfigProps.
(* ===================================================================== *)
(** ** Further properties of the message framing *)
(* ===================================================================== *)

(** [ascii_str] of a literal. *)
Ltac ascii_literal :=
  match goal with
  | |- ascii_str ?s => let v := eval vm_compute in s in change (ascii_str v)
  end;
  repeat (apply Forall_cons; [lia|]); apply Forall_nil.

Lemma decode_ascii_inv b s :
  decode_ascii b = Ok s -> s = map byte.unsigned b /\ ascii_str s.
Proof.
  revert s. induction b as [|x b IH]; simpl; intros s H.
  - apply Ok_inj in H. subst s. split; [reflexivity | constructor].
  - destruct (Z.ltb_spec (byte.unsigned x) 128); [|discriminate].
    destruct (decode_ascii b) as [r|] eqn:E; cbn [bind] in H; [|discriminate].
    apply Ok_inj in H. subst s. destruct (IH r eq_refl) as [-> Hr].
    split; [reflexivity|]. constructor; [|exact Hr].
    pose proof (byte_unsigned_range x). lia.
Qed.

Lemma decode_ascii_raises b e :
  decode_ascii b = Raise e ->
  e = UnicodeDecodeError /\ exists x, In x b /\ 128 <= byte.unsigned x.
Proof.
  induction b as [|x b IH]; simpl; [discriminate|].
  destruct (Z.ltb_spec (byte.unsigned x) 128).
  - destruct (decode_ascii b) as [r|e'] eqn:E; cbn [bind]; [discriminate|].
    intros Hr. apply Raise_inj in Hr. subst e'.
    destruct (IH eq_refl) as (-> & y & Hy & Hge). split; [reflexivity|]. eauto.
  - intros Hr. apply Raise_inj in Hr. subst e. split; [reflexivity|]. eauto.
Qed.

Lemma rstrip0_length b : (length (rstrip0 b) <= length b)%nat.
Proof.
  induction b as [|x b IH]; simpl; [lia|].
  destruct (rstrip0 b); [destruct (Byte.eqb x Byte.x00)|]; simpl in *; lia.
Qed.

Lemma rstrip0_last b : last (rstrip0 b) Byte.x01 <> Byte.x00.
Proof.
  induction b as [|x b IH]; simpl; [discriminate|].
  destruct (rstrip0 b) as [|y tl] eqn:E.
  - destruct (Byte.eqb x Byte.x00) eqn:Ex; simpl; [discriminate|].
    intros ->. rewrite byte_eqb_refl in Ex. discriminate.
  - exact IH.
Qed.

Lemma rstrip0_incl b x : In x (rstrip0 b) -> In x b.
Proof.
  induction b as [|y b IH]; simpl; [tauto|].
  destruct (rstrip0 b) as [|z tl] eqn:E.
  - destruct (Byte.eqb y Byte.x00); simpl; tauto.
  - simpl. intros [->|H]; [auto|]. right. apply IH. exact H.
Qed.

Lemma slice_from_app_l {A} (a b : list A) lo :
  0 <= lo <= len a -> slice_from (a ++ b) lo = slice_from a lo ++ b.
Proof.
  intros H. unfold slice_from. rewrite skipn_app.
  replace (Z.to_nat lo - length a)%nat with 0%nat by (unfold len in H; lia).
  reflexivity.
Qed.

(** A buffer is its first [lo] bytes, the bytes from [lo] to [hi], and the
    rest. *)
Lemma slice_split {A} (l : list A) lo hi :
  0 <= lo <= hi ->
  l = slice l 0 lo ++ slice l lo hi ++ slice_from l hi.
Proof.
  intros H. unfold slice, slice_from.
  rewrite Z.sub_0_r. change (Z.to_nat 0) with 0%nat. rewrite skipn_O.
  rewrite <- (firstn_skipn (Z.to_nat lo) l) at 1. f_equal.
  rewrite <- (firstn_skipn (Z.to_nat (hi - lo)) (skipn (Z.to_nat lo) l)) at 1. f_equal.
  rewrite skipn_skipn. f_equal. lia.
Qed.

(** X1.  What a successful [parse_message] has checked.  When
    [parse_message(data, magic)] returns [(command, payload, rest)], the
    magic has four bytes and [data] is the magic, the 20 other header bytes,
    the payload and the rest, in this order; the length field is the length
    of the payload and the checksum field the first four bytes of its double
    SHA-256; the command is the command field without its trailing NUL
    bytes, so it is ASCII, at most 12 characters long and does not end in
    NUL. *)
Theorem parse_message_sound data magic command payload rest :
  parse_message data magic = Ok (command, payload, rest) ->
  length magic = 4%nat
  /\ data = magic ++ slice data 4 24 ++ payload ++ rest
  /\ le_combine (slice data 16 20) = len payload
  /\ slice (double_sha256 payload) 0 4 = slice data 20 24
  /\ command = map byte.unsigned (rstrip0 (slice data 4 16))
  /\ ascii_str command
  /\ (length command <= 12)%nat
  /\ last command 1 <> 0.
Proof.
  unfold parse_message.
  destruct (Z.ltb_spec (len data) 24) as [|Hlen]; [discriminate|].
  destruct (bytes_eqb (slice data 0 4) magic) eqn:Hm; cbn [negb]; [|discriminate].
  apply bytes_eqb_eq in Hm.
  destruct (decode_ascii _) as [c|] eqn:Hc; cbn [bind]; [|discriminate].
  rewrite unpack_le_ok by (rewrite length_slice; lia). cbn [bind].
  set (n := le_combine (slice data 16 20)).
  assert (Hn : 0 <= n) by apply le_combine_nonneg.
  destruct (Z.ltb_spec (len data) (24 + n)) as [|Hall]; [discriminate|].
  destruct (bytes_eqb _ (slice data 20 24)) eqn:Hs; cbn [negb]; [|discriminate].
  apply bytes_eqb_eq in Hs.
  intros H. apply Ok_inj in H. injection H as <- <- <-.
  apply decode_ascii_inv in Hc as [Hc Ha].
  split; [rewrite <- Hm; rewrite length_slice; lia|].
  split.
  { rewrite <- Hm.
    rewrite (slice_split data 4 24) at 1 by lia. f_equal. f_equal.
    rewrite (slice_split (slice_from data 24) 0 n) at 1 by lia.
    unfold slice at 1. cbn [Z.sub Z.to_nat firstn app].
    unfold slice, slice_from. rewrite !Z.sub_0_r. change (Z.to_nat 0) with 0%nat.
    rewrite !skipn_O, skipn_skipn.
    replace (24 + n - 24) with n by lia.
    replace (Z.to_nat n + Z.to_nat 24)%nat with (Z.to_nat (24 + n)) by lia.
    reflexivity. }
  split; [rewrite len_slice; lia|].
  split; [exact Hs|].
  split; [exact Hc|].
  split; [exact Ha|].
  split.
  { rewrite Hc, length_map.
    pose proof (rstrip0_length (slice data 4 16)).
    rewrite length_slice in H by lia. lia. }
  rewrite Hc. change 1 with (byte.unsigned Byte.x01). rewrite last_map_default.
  intros E. apply (rstrip0_last (slice data 4 16)).
  rewrite <- (byte_of_Z_unsigned (last _ _)), E. reflexivity.
Qed.

Lemma parse_message_sound_witness :
  let magic := [Byte.xf9; Byte.xbe; Byte.xb4; Byte.xd9] in
  let data := magic ++ list_byte_of_string "verack" ++ zeros 6 ++ zeros 4
              ++ [Byte.x5d; Byte.xf6; Byte.xe0; Byte.xe2] ++ [Byte.x07] in
  length magic = 4%nat
  /\ data = magic ++ slice data 4 24 ++ [] ++ [Byte.x07]
  /\ le_combine (slice data 16 20) = len (@nil byte)
  /\ slice (double_sha256 []) 0 4 = slice data 20 24
  /\ lit "verack" = map byte.unsigned (rstrip0 (slice data 4 16))
  /\ ascii_str (lit "verack")
  /\ (length (lit "verack") <= 12)%nat
  /\ last (lit "verack") 1 <> 0.
Proof.
  cbv zeta.
  apply (parse_message_sound
           ([Byte.xf9; Byte.xbe; Byte.xb4; Byte.xd9]
              ++ list_byte_of_string "verack" ++ zeros 6 ++ zeros 4
              ++ [Byte.x5d; Byte.xf6; Byte.xe0; Byte.xe2] ++ [Byte.x07])
           [Byte.xf9; Byte.xbe; Byte.xb4; Byte.xd9] (lit "verack") [] [Byte.x07]).
  vm_compute. reflexivity.
Defined.

(** X2.  Every failure of [parse_message] and its cause, in the order of
    the checks: fewer than 24 bytes ("Message too short"); other first four
    bytes than the magic ("Invalid magic bytes"); a byte of 0x80 or more in
    the command field ([UnicodeDecodeError], raised before the length is
    looked at); fewer bytes than the header declares ("Incomplete
    message"); a checksum field that is not the start of the payload's
    double SHA-256 ("Invalid checksum").  Nothing else is raised. *)
Theorem parse_message_failures data magic e :
  parse_message data magic = Raise e ->
  (e = ValueError "Message too short" /\ len data < 24)
  \/ (e = ValueError "Invalid magic bytes" /\ 24 <= len data /\ slice data 0 4 <> magic)
  \/ (e = UnicodeDecodeError /\ 24 <= len data /\ slice data 0 4 = magic
      /\ exists x, In x (slice data 4 16) /\ 128 <= byte.unsigned x)
  \/ (e = ValueError "Incomplete message" /\ 24 <= len data /\ slice data 0 4 = magic
      /\ len data < 24 + le_combine (slice data 16 20))
  \/ (e = ValueError "Invalid checksum" /\ slice data 0 4 = magic
      /\ 24 + le_combine (slice data 16 20) <= len data
      /\ slice (double_sha256 (slice data 24 (24 + le_combine (slice data 16 20)))) 0 4
         <> slice data 20 24).
Proof.
  unfold parse_message.
  destruct (Z.ltb_spec (len data) 24) as [|Hlen].
  { intros Hr. apply Raise_inj in Hr. subst e. auto. }
  destruct (bytes_eqb (slice data 0 4) magic) eqn:Hm; cbn [negb].
  2:{ intros Hr. apply Raise_inj in Hr. subst e. right. left.
      split; [reflexivity|]. split; [assumption|].
      intros E. apply bytes_eqb_eq in E. congruence. }
  apply bytes_eqb_eq in Hm.
  destruct (decode_ascii _) as [c|e'] eqn:Hc; cbn [bind].
  2:{ intros Hr. apply Raise_inj in Hr. subst e'.
      apply decode_ascii_raises in Hc as (-> & x & Hx & Hge).
      right. right. left. repeat (split; [first [reflexivity | assumption]|]).
      exists x. split; [now apply rstrip0_incl | assumption]. }
  rewrite unpack_le_ok by (rewrite length_slice; lia). cbn [bind].
  set (n := le_combine (slice data 16 20)).
  destruct (Z.ltb_spec (len data) (24 + n)) as [|Hall].
  { intros Hr. apply Raise_inj in Hr. subst e. right. right. right. left. auto. }
  destruct (bytes_eqb _ (slice data 20 24)) eqn:Hs; cbn [negb]; [discriminate|].
  intros Hr. apply Raise_inj in Hr. subst e. right. right. right. right.
  repeat (split; [first [reflexivity | assumption]|]).
  intros E. apply bytes_eqb_eq in E. congruence.
Qed.

Lemma parse_message_failures_witness :
  let magic := [Byte.xf9; Byte.xbe; Byte.xb4; Byte.xd9] in
  let data := magic ++ [Byte.xe9] ++ zeros 19 in
  let e := UnicodeDecodeError in
  (e = ValueError "Message too short" /\ len data < 24)
  \/ (e = ValueError "Invalid magic bytes" /\ 24 <= len data /\ slice data 0 4 <> magic)
  \/ (e = UnicodeDecodeError /\ 24 <= len data /\ slice data 0 4 = magic
      /\ exists x, In x (slice data 4 16) /\ 128 <= byte.unsigned x)
  \/ (e = ValueError "Incomplete message" /\ 24 <= len data /\ slice data 0 4 = magic
      /\ len data < 24 + le_combine (slice data 16 20))
  \/ (e = ValueError "Invalid checksum" /\ slice data 0 4 = magic
      /\ 24 + le_combine (slice data 16 20) <= len data
      /\ slice (double_sha256 (slice data 24 (24 + le_combine (slice data 16 20)))) 0 4
         <> slice data 20 24).
Proof.
  cbv zeta.
  apply (parse_message_failures
           ([Byte.xf9; Byte.xbe; Byte.xb4; Byte.xd9] ++ [Byte.xe9] ++ zeros 19)
           [Byte.xf9; Byte.xbe; Byte.xb4; Byte.xd9] UnicodeDecodeError).
  vm_compute. reflexivity.
Defined.

(** X3.  Reading from a stream.  Bytes that arrive after a whole frame do
    not change what [parse_message] returns for it, they are appended to
    the remaining data; and a failure other than "Message too short" and
    "Incomplete message" is final, more bytes never cure it. *)
Theorem parse_message_more_data data magic more :
  (forall command payload rest,
      parse_message data magic = Ok (command, payload, rest) ->
      parse_message (data ++ more) magic = Ok (command, payload, rest ++ more))
  /\ (forall e,
         parse_message data magic = Raise e ->
         e <> ValueError "Message too short" ->
         e <> ValueError "Incomplete message" ->
         parse_message (data ++ more) magic = Raise e).
Proof.
  assert (Hs : forall lo hi, 0 <= lo -> hi <= len data ->
                             slice (data ++ more) lo hi = slice data lo hi).
  { intros. now apply slice_app_l. }
  pose proof (len_nonneg more) as Hmore.
  split.
  - intros command payload rest. unfold parse_message.
    rewrite len_app.
    destruct (Z.ltb_spec (len data) 24) as [|Hlen]; [discriminate|].
    destruct (Z.ltb_spec (len data + len more) 24); [lia|].
    rewrite !Hs by lia.
    destruct (negb _); [discriminate|].
    destruct (decode_ascii _) as [c|]; cbn [bind]; [|discriminate].
    rewrite unpack_le_ok by (rewrite length_slice; lia). cbn [bind].
    set (n := le_combine (slice data 16 20)).
    assert (Hn : 0 <= n) by apply le_combine_nonneg.
    destruct (Z.ltb_spec (len data) (24 + n)) as [|Hall]; [discriminate|].
    destruct (Z.ltb_spec (len data + len more) (24 + n)); [lia|].
    rewrite !Hs by lia.
    destruct (negb _); [discriminate|].
    intros Hok. apply Ok_inj in Hok. injection Hok as <- <- <-.
    rewrite slice_from_app_l by lia. reflexivity.
  - intros e. unfold parse_message.
    rewrite len_app.
    destruct (Z.ltb_spec (len data) 24) as [|Hlen].
    { intros Hr. apply Raise_inj in Hr. congruence. }
    destruct (Z.ltb_spec (len data + len more) 24); [lia|].
    rewrite !Hs by lia.
    destruct (negb _); [trivial|].
    destruct (decode_ascii _) as [c|]; cbn [bind]; [|trivial].
    rewrite unpack_le_ok by (rewrite length_slice; lia). cbn [bind].
    set (n := le_combine (slice data 16 20)).
    assert (Hn : 0 <= n) by apply le_combine_nonneg.
    destruct (Z.ltb_spec (len data) (24 + n)) as [|Hall].
    { intros Hr. apply Raise_inj in Hr. congruence. }
    destruct (Z.ltb_spec (len data + len more) (24 + n)); [lia|].
    rewrite !Hs by lia.
    destruct (negb _); [trivial | discriminate].
Qed.

Lemma parse_message_more_data_witness :
  let magic := [Byte.xf9; Byte.xbe; Byte.xb4; Byte.xd9] in
  let data := magic ++ list_byte_of_string "verack" ++ zeros 6 ++ zeros 4
              ++ [Byte.x5d; Byte.xf6; Byte.xe0; Byte.xe2] in
  parse_message (data ++ [Byte.xf9; Byte.xbe]) magic
  = Ok (lit "verack", [], [] ++ [Byte.xf9; Byte.xbe]).
Proof.
  cbv zeta.
  apply (proj1 (parse_message_more_data
                  ([Byte.xf9; Byte.xbe; Byte.xb4; Byte.xd9]
                     ++ list_byte_of_string "verack" ++ zeros 6 ++ zeros 4
                     ++ [Byte.x5d; Byte.xf6; Byte.xe0; Byte.xe2])
                  [Byte.xf9; Byte.xbe; Byte.xb4; Byte.xd9] [Byte.xf9; Byte.xbe])).
  vm_compute. reflexivity.
Defined.

(** The frame of an ASCII command and a payload below 2^32 bytes. *)
Lemma create_message_ok magic command payload :
  ascii_str command -> len payload < 2 ^ 32 ->
  create_message magic command payload
  = Ok (magic ++ ljust0 (map byte.of_Z command) 12 ++ le_split 4 (len payload)
          ++ slice (double_sha256 payload) 0 4 ++ payload)
  /\ len (magic ++ ljust0 (map byte.of_Z command) 12 ++ le_split 4 (len payload)
            ++ slice (double_sha256 payload) 0 4)
     = len magic + Z.max 12 (len command) + 8.
Proof.
  intros Ha Hp. split.
  - unfold create_message.
    rewrite (encode_ascii_ok _ Ha). cbn [bind].
    rewrite pack_le_ok by (pose proof (len_nonneg payload); simpl; lia). reflexivity.
  - assert (Lc : len (ljust0 (map byte.of_Z command) 12) = Z.max 12 (len command)).
    { unfold ljust0, len. rewrite length_app, length_zeros, length_map. lia. }
    assert (Ls : len (slice (double_sha256 payload) 0 4) = 4).
    { unfold len. rewrite checksum_length. reflexivity. }
    rewrite !len_app, Lc, Ls, len_le_split. lia.
Qed.

(** X4.  When [create_message] builds a frame.  It returns a frame exactly
    when the command is ASCII and the payload has fewer than 2^32 bytes,
    whatever the magic; a command of more than 12 characters is not cut,
    the command field grows with it: the frame has
    len(magic) + max(12, len(command)) + 8 + len(payload) bytes, and it ends
    with the payload. *)
Theorem create_message_frame magic command payload :
  (ascii_str command -> len payload < 2 ^ 32 ->
   exists msg,
     create_message magic command payload = Ok msg
     /\ len msg = len magic + Z.max 12 (len command) + 8 + len payload
     /\ slice_from msg (len msg - len payload) = payload)
  /\ (forall msg,
         create_message magic command payload = Ok msg ->
         ascii_str command /\ len payload < 2 ^ 32).
Proof.
  split.
  - intros Ha Hp. destruct (create_message_ok magic command payload Ha Hp) as [Hc L].
    eexists. split; [exact Hc|].
    assert (L' : len (magic ++ ljust0 (map byte.of_Z command) 12 ++ le_split 4 (len payload)
                      ++ slice (double_sha256 payload) 0 4 ++ payload)
                 = len magic + Z.max 12 (len command) + 8 + len payload).
    { rewrite <- L. rewrite !len_app. lia. }
    split; [exact L'|]. rewrite L'.
    replace (magic ++ ljust0 (map byte.of_Z command) 12 ++ le_split 4 (len payload)
               ++ slice (double_sha256 payload) 0 4 ++ payload)
      with ((magic ++ ljust0 (map byte.of_Z command) 12 ++ le_split 4 (len payload)
               ++ slice (double_sha256 payload) 0 4) ++ payload)
      by (rewrite <- !app_assoc; reflexivity).
    apply slice_from_app. rewrite L. lia.
  - intros msg. unfold create_message.
    destruct (encode_ascii command) as [c|] eqn:Hc; cbn [bind]; [|discriminate].
    destruct (Struct.pack_le 4 (len payload)) as [l|] eqn:Hl; cbn [bind]; [|discriminate].
    intros _. apply encode_ascii_inv in Hc as [Ha _].
    apply pack_le_inv in Hl as [_ Hr]. split; [exact Ha | simpl in Hr; lia].
Qed.

Lemma create_message_frame_witness :
  exists msg,
    create_message [Byte.xf9; Byte.xbe; Byte.xb4; Byte.xd9]
                   (lit "averylongcommand") [Byte.x01] = Ok msg
    /\ len msg = 4 + Z.max 12 16 + 8 + 1
    /\ slice_from msg (len msg - 1) = [Byte.x01].
Proof.
  apply (proj1 (create_message_frame [Byte.xf9; Byte.xbe; Byte.xb4; Byte.xd9]
                  (lit "averylongcommand") [Byte.x01])).
  - ascii_literal.
  - vm_compute. reflexivity.
Defined.

Lemma empty_checksum :
  slice (double_sha256 []) 0 4 = [Byte.x5d; Byte.xf6; Byte.xe0; Byte.xe2].
Proof. vm_compute. reflexivity. Qed.

Lemma empty_message magic command rest :
  length magic = 4%nat -> ascii_str command -> (length command <= 12)%nat ->
  last command 1 <> 0 ->
  exists msg,
    create_message magic command [] = Ok msg
    /\ len msg = 24
    /\ slice msg 16 24 = zeros 4 ++ [Byte.x5d; Byte.xf6; Byte.xe0; Byte.xe2]
    /\ parse_message (msg ++ rest) magic = Ok (command, [], rest).
Proof.
  intros Hm Ha Hl Hlast.
  destruct (parse_create_message magic command [] rest Hm Ha Hl Hlast)
    as (msg & Hc & Hp); [vm_compute; reflexivity|].
  exists msg. split; [exact Hc|]. split; [|split; [|exact Hp]].
  - destruct (create_message_ok magic command [] Ha) as [Hc' L];
      [vm_compute; reflexivity|].
    rewrite Hc in Hc'. apply Ok_inj in Hc'. subst msg.
    replace (magic ++ ljust0 (map byte.of_Z command) 12 ++ le_split 4 (len (@nil byte))
               ++ slice (double_sha256 []) 0 4 ++ [])
      with (magic ++ ljust0 (map byte.of_Z command) 12 ++ le_split 4 (len (@nil byte))
              ++ slice (double_sha256 []) 0 4)
      by (rewrite !app_nil_r; reflexivity).
    rewrite L. unfold len. rewrite Hm. simpl length. lia.
  - unfold create_message in Hc. rewrite (encode_ascii_ok _ Ha) in Hc.
    cbn [bind] in Hc. rewrite pack_le_ok in Hc by (vm_compute; split; congruence).
    cbn [bind] in Hc. apply Ok_inj in Hc. subst msg.
    rewrite empty_checksum, app_nil_r.
    replace (magic ++ ljust0 (map byte.of_Z command) 12
               ++ le_split 4 (len (@nil byte)) ++ [Byte.x5d; Byte.xf6; Byte.xe0; Byte.xe2])
      with ((magic ++ ljust0 (map byte.of_Z command) 12)
              ++ (zeros 4 ++ [Byte.x5d; Byte.xf6; Byte.xe0; Byte.xe2]) ++ [])
      by (rewrite app_nil_r, <- !app_assoc; reflexivity).
    apply slice_mid.
    + rewrite len_app. unfold ljust0. rewrite len_app. unfold len.
      rewrite Hm, length_zeros, length_map. lia.
    + rewrite len_app. unfold ljust0. rewrite len_app. unfold len.
      rewrite Hm, length_zeros, length_map. simpl length. lia.
Qed.

(** X5.  The two messages without payload.  For a chain whose magic has
    four bytes, [create_verack_message] and [create_getaddr_message] return
    frames of exactly 24 bytes, with length field 0 and checksum field
    5d f6 e0 e2, and [parse_message] reads each of them back, whatever
    follows it, as the command "verack" (resp. "getaddr") with an empty
    payload. *)
Theorem empty_payload_messages chain_config rest :
  length (magic_bytes chain_config) = 4%nat ->
  (exists msg,
      create_verack_message chain_config = Ok msg
      /\ len msg = 24
      /\ slice msg 16 24 = zeros 4 ++ [Byte.x5d; Byte.xf6; Byte.xe0; Byte.xe2]
      /\ parse_message (msg ++ rest) (magic_bytes chain_config)
         = Ok (lit "verack", [], rest))
  /\ (exists msg,
         create_getaddr_message chain_config = Ok msg
         /\ len msg = 24
         /\ slice msg 16 24 = zeros 4 ++ [Byte.x5d; Byte.xf6; Byte.xe0; Byte.xe2]
         /\ parse_message (msg ++ rest) (magic_bytes chain_config)
            = Ok (lit "getaddr", [], rest)).
Proof.
  intros Hm. split.
  - apply empty_message; [exact Hm | ascii_literal | simpl; lia | vm_compute; discriminate].
  - apply empty_message; [exact Hm | ascii_literal | simpl; lia | vm_compute; discriminate].
Qed.

Lemma empty_payload_messages_witness :
  exists msg,
    create_verack_message bitcoin_config = Ok msg
    /\ len msg = 24
    /\ slice msg 16 24 = zeros 4 ++ [Byte.x5d; Byte.xf6; Byte.xe0; Byte.xe2]
    /\ parse_message (msg ++ [Byte.xf9]) (magic_bytes bitcoin_config)
       = Ok (lit "verack", [], [Byte.xf9]).
Proof.
  apply (proj1 (empty_payload_messages bitcoin_config [Byte.xf9] eq_refl)).
Defined.
(* ===================================================================== *)
(** ** Further properties of the varint, version and addr codecs *)
(* ===================================================================== *)

Lemma len_slice_clamped {A} (l : list A) lo hi :
  0 <= lo -> lo <= hi -> len (slice l lo hi) = Z.max 0 (Z.min hi (len l) - lo).
Proof.
  intros Hlo Hhi. unfold slice, len. rewrite length_firstn, length_skipn. lia.
Qed.

(** The fixed-width readers on a slice: they succeed exactly when the slice
    lies within the data. *)
Lemma unpack_le_slice n payload lo hi :
  0 <= lo -> hi = lo + Z.of_nat n -> (0 < n)%nat ->
  Struct.unpack_le n (slice payload lo hi) =
    if hi <=? len payload then Ok (le_combine (slice payload lo hi))
    else Raise StructError.
Proof.
  intros Hlo Hhi Hn. unfold Struct.unpack_le.
  pose proof (len_slice_clamped payload lo hi Hlo ltac:(lia)) as L.
  destruct (Z.leb_spec hi (len payload));
    destruct (Nat.eqb_spec (length (slice payload lo hi)) n); try reflexivity;
    unfold len in *; lia.
Qed.

Lemma unpack_q_slice payload lo hi :
  0 <= lo -> hi = lo + 8 ->
  Struct.unpack_q (slice payload lo hi) =
    if hi <=? len payload then Ok (Struct.signed64 (le_combine (slice payload lo hi)))
    else Raise StructError.
Proof.
  intros Hlo Hhi. unfold Struct.unpack_q.
  pose proof (len_slice_clamped payload lo hi Hlo ltac:(lia)) as L.
  destruct (Z.leb_spec hi (len payload));
    destruct (Nat.eqb_spec (length (slice payload lo hi)) 8); try reflexivity;
    unfold len in *; lia.
Qed.

Lemma unpack_be16_slice payload lo hi :
  0 <= lo -> hi = lo + 2 ->
  Struct.unpack_be16 (slice payload lo hi) =
    if hi <=? len payload then Ok (le_combine (rev (slice payload lo hi)))
    else Raise StructError.
Proof.
  intros Hlo Hhi. unfold Struct.unpack_be16.
  pose proof (len_slice_clamped payload lo hi Hlo ltac:(lia)) as L.
  destruct (Z.leb_spec hi (len payload));
    destruct (Nat.eqb_spec (length (slice payload lo hi)) 2); try reflexivity;
    unfold len in *; lia.
Qed.

Lemma inet_ntoa_length b :
  inet_ntoa b = if Nat.eqb (length b) 4 then Ok (ntoa b) else Raise OSError.
Proof.
  destruct b as [|b0 [|b1 [|b2 [|b3 [|b4 b]]]]]; reflexivity.
Qed.

Lemma inet_ntoa_slice payload lo hi :
  0 <= lo -> hi = lo + 4 ->
  inet_ntoa (slice payload lo hi) =
    if hi <=? len payload then Ok (ntoa (slice payload lo hi)) else Raise OSError.
Proof.
  intros Hlo Hhi. rewrite inet_ntoa_length.
  pose proof (len_slice_clamped payload lo hi Hlo ltac:(lia)) as L.
  destruct (Z.leb_spec hi (len payload));
    destruct (Nat.eqb_spec (length (slice payload lo hi)) 4); try reflexivity;
    unfold len in *; lia.
Qed.

Lemma index_raises data i e :
  0 <= i -> index data i = Raise e -> e = IndexError /\ len data <= i.
Proof.
  intros Hi. unfold index.
  destruct (nth_error data (Z.to_nat i)) eqn:E; [discriminate|].
  intros Hr. apply Raise_inj in Hr. split; [congruence|].
  apply nth_error_None in E. unfold len. lia.
Qed.

Lemma index_app_l data more i :
  0 <= i < len data -> index (data ++ more) i = index data i.
Proof.
  intros Hi. unfold index. rewrite nth_error_app1 by (unfold len in Hi; lia).
  reflexivity.
Qed.

(** More bytes after the data do not change a varint that was read. *)
Lemma read_varint_app data more offset r :
  0 <= offset -> read_varint data offset = Ok r ->
  read_varint (data ++ more) offset = Ok r.
Proof.
  intros Hoff. unfold read_varint.
  destruct (index data offset) as [first|] eqn:Hi; cbn [bind]; [|discriminate].
  destruct (index_inv data offset first Hoff Hi) as (Hlt & _).
  rewrite index_app_l by lia. rewrite Hi. cbn [bind].
  pose proof (len_nonneg more) as Hmore.
  destruct (first <? 0xFD); [trivial|].
  destruct (first =? 0xFD); [|destruct (first =? 0xFE)].
  - rewrite (unpack_le_slice 2 data (offset + 1) (offset + 3)) by lia.
    rewrite (unpack_le_slice 2 (data ++ more) (offset + 1) (offset + 3)) by lia.
    rewrite len_app.
    destruct (Z.leb_spec (offset + 3) (len data)); cbn [bind]; [|discriminate].
    destruct (Z.leb_spec (offset + 3) (len data + len more)); [|lia].
    rewrite slice_app_l by lia. trivial.
  - rewrite (unpack_le_slice 4 data (offset + 1) (offset + 5)) by lia.
    rewrite (unpack_le_slice 4 (data ++ more) (offset + 1) (offset + 5)) by lia.
    rewrite len_app.
    destruct (Z.leb_spec (offset + 5) (len data)); cbn [bind]; [|discriminate].
    destruct (Z.leb_spec (offset + 5) (len data + len more)); [|lia].
    rewrite slice_app_l by lia. trivial.
  - rewrite (unpack_le_slice 8 data (offset + 1) (offset + 9)) by lia.
    rewrite (unpack_le_slice 8 (data ++ more) (offset + 1) (offset + 9)) by lia.
    rewrite len_app.
    destruct (Z.leb_spec (offset + 9) (len data)); cbn [bind]; [|discriminate].
    destruct (Z.leb_spec (offset + 9) (len data + len more)); [|lia].
    rewrite slice_app_l by lia. trivial.
Qed.

(** X6.  [read_varint] in full.  Reading at an offset that is not negative
    fails with [IndexError] when the offset is not inside the data, and
    with [struct.error] when the first byte announces more bytes (2 after
    0xFD, 4 after 0xFE, 8 after 0xFF) than the data holds.  Otherwise it
    returns the first byte itself when that is below 0xFD, else the
    little-endian value of the announced bytes, together with the offset
    moved by 1, 3, 5 or 9, which stays within the data.  The value is never
    negative and below 2^16, 2^32 or 2^64 according to the width; an
    encoding longer than needed is accepted. *)
Theorem read_varint_outcome data offset :
  0 <= offset ->
  match read_varint data offset with
  | Ok (v, next) =>
      exists first,
        index data offset = Ok first
        /\ next = offset + varint_width first
        /\ next <= len data
        /\ v = (if first <? 0xFD then first
                else le_combine (slice data (offset + 1) next))
        /\ 0 <= v < 2 ^ (8 * Z.max 1 (varint_width first - 1))
  | Raise e =>
      (e = IndexError /\ len data <= offset)
      \/ (e = StructError
          /\ exists first,
               index data offset = Ok first
               /\ len data < offset + varint_width first)
  end.
Proof.
  intros Hoff. unfold read_varint.
  destruct (index data offset) as [first|e] eqn:Hi; cbn [bind].
  2:{ left. now apply index_raises. }
  destruct (index_inv data offset first Hoff Hi) as (Hlt & b & _ & Hb).
  pose proof (byte_unsigned_range b) as Rb. rewrite <- Hb in Rb.
  assert (Hbound : forall (n : nat) hi,
             hi = offset + 1 + Z.of_nat n -> hi <= len data ->
             0 <= le_combine (slice data (offset + 1) hi) < 2 ^ (8 * Z.of_nat n)).
  { intros n hi -> Hle.
    pose proof (le_combine_bound (slice data (offset + 1) (offset + 1 + Z.of_nat n))) as B.
    rewrite length_slice in B by lia.
    replace (Z.of_nat (Z.to_nat (offset + 1 + Z.of_nat n - (offset + 1))))
      with (Z.of_nat n) in B by lia.
    exact B. }
  destruct (first <? 0xFD) eqn:E1.
  { exists first. unfold varint_width. rewrite E1. apply Z.ltb_lt in E1.
    split; [reflexivity|]. split; [reflexivity|]. split; [lia|].
    split; [reflexivity|]. change (2 ^ (8 * Z.max 1 (1 - 1))) with 256. lia. }
  destruct (first =? 0xFD) eqn:E2; [|destruct (first =? 0xFE) eqn:E3].
  - rewrite (unpack_le_slice 2 data (offset + 1) (offset + 3)) by lia.
    destruct (Z.leb_spec (offset + 3) (len data)); cbn [bind].
    + exists first. unfold varint_width. rewrite E1, E2.
      split; [reflexivity|]. split; [reflexivity|]. split; [lia|].
      split; [reflexivity|]. apply (Hbound 2%nat); lia.
    + right. split; [reflexivity|]. exists first. unfold varint_width. rewrite E1, E2.
      split; [reflexivity | lia].
  - rewrite (unpack_le_slice 4 data (offset + 1) (offset + 5)) by lia.
    destruct (Z.leb_spec (offset + 5) (len data)); cbn [bind].
    + exists first. unfold varint_width. rewrite E1, E2, E3.
      split; [reflexivity|]. split; [reflexivity|]. split; [lia|].
      split; [reflexivity|]. apply (Hbound 4%nat); lia.
    + right. split; [reflexivity|]. exists first. unfold varint_width. rewrite E1, E2, E3.
      split; [reflexivity | lia].
  - rewrite (unpack_le_slice 8 data (offset + 1) (offset + 9)) by lia.
    destruct (Z.leb_spec (offset + 9) (len data)); cbn [bind].
    + exists first. unfold varint_width. rewrite E1, E2, E3.
      split; [reflexivity|]. split; [reflexivity|]. split; [lia|].
      split; [reflexivity|]. apply (Hbound 8%nat); lia.
    + right. split; [reflexivity|]. exists first. unfold varint_width. rewrite E1, E2, E3.
      split; [reflexivity | lia].
Qed.

Lemma read_varint_outcome_witness :
  exists first,
    index [Byte.x00; Byte.xfd; Byte.x05; Byte.x00] 1 = Ok first
    /\ 4 = 1 + varint_width first
    /\ 4 <= len [Byte.x00; Byte.xfd; Byte.x05; Byte.x00]
    /\ 5 = (if first <? 0xFD then first
            else le_combine (slice [Byte.x00; Byte.xfd; Byte.x05; Byte.x00] (1 + 1) 4))
    /\ 0 <= 5 < 2 ^ (8 * Z.max 1 (varint_width first - 1)).
Proof.
  exact (read_varint_outcome [Byte.x00; Byte.xfd; Byte.x05; Byte.x00] 1 ltac:(lia)).
Defined.

(** X7.  Which payloads [parse_version_payload] accepts.  It returns a
    value exactly when the payload has the byte at offset 80, the length
    [n] of the user agent, and at least 85 + n bytes; the minimum is 85
    bytes.  A shorter payload never gives a partial result: it raises
    [struct.error], or [OSError] when it ends inside or before the four
    address bytes that [inet_ntoa] is given (lengths 28..43 and 54..69),
    or [IndexError] when it ends right before the length byte (length 80). *)
Theorem parse_version_payload_outcome payload :
  match parse_version_payload payload with
  | Ok v => exists n, index payload 80 = Ok n /\ 85 + n <= len payload
  | Raise e =>
      (e = StructError
       /\ (len payload < 28 \/ 44 <= len payload < 54 \/ 70 <= len payload < 80
           \/ exists n, index payload 80 = Ok n /\ len payload < 85 + n))
      \/ (e = OSError /\ (28 <= len payload < 44 \/ 54 <= len payload < 70))
      \/ (e = IndexError /\ len payload = 80)
  end.
Proof.
  unfold parse_version_payload. cbv zeta. norm_offsets.
  rewrite (unpack_le_slice 4 payload 0 4) by lia.
  destruct (Z.leb_spec 4 (len payload)); cbn [bind]; [|left; split; [reflexivity | lia]].
  rewrite (unpack_le_slice 8 payload 4 12) by lia.
  destruct (Z.leb_spec 12 (len payload)); cbn [bind]; [|left; split; [reflexivity | lia]].
  rewrite (unpack_q_slice payload 12 20) by lia.
  destruct (Z.leb_spec 20 (len payload)); cbn [bind]; [|left; split; [reflexivity | lia]].
  rewrite (unpack_le_slice 8 payload 20 28) by lia.
  destruct (Z.leb_spec 28 (len payload)); cbn [bind]; [|left; split; [reflexivity | lia]].
  rewrite (inet_ntoa_slice payload 40 44) by lia.
  destruct (Z.leb_spec 44 (len payload)); cbn [bind];
    [|right; left; split; [reflexivity | lia]].
  rewrite (unpack_be16_slice payload 44 46) by lia.
  destruct (Z.leb_spec 46 (len payload)); cbn [bind]; [|left; split; [reflexivity | lia]].
  rewrite (unpack_le_slice 8 payload 46 54) by lia.
  destruct (Z.leb_spec 54 (len payload)); cbn [bind]; [|left; split; [reflexivity | lia]].
  rewrite (inet_ntoa_slice payload 66 70) by lia.
  destruct (Z.leb_spec 70 (len payload)); cbn [bind];
    [|right; left; split; [reflexivity | lia]].
  rewrite (unpack_be16_slice payload 70 72) by lia.
  destruct (Z.leb_spec 72 (len payload)); cbn [bind]; [|left; split; [reflexivity | lia]].
  rewrite (unpack_le_slice 8 payload 72 80) by lia.
  destruct (Z.leb_spec 80 (len payload)); cbn [bind]; [|left; split; [reflexivity | lia]].
  destruct (index payload 80) as [n|e] eqn:Hn; cbn [bind].
  2:{ apply index_raises in Hn as [-> Hle]; [|lia]. right. right. split; [reflexivity | lia]. }
  destruct (index_inv payload 80 n ltac:(lia) Hn) as (_ & b & _ & Hb).
  pose proof (byte_unsigned_range b) as Rb. rewrite <- Hb in Rb.
  rewrite (unpack_le_slice 4 payload (81 + n) (81 + n + 4)) by lia.
  destruct (Z.leb_spec (81 + n + 4) (len payload)); cbn [bind].
  2:{ left. split; [reflexivity|]. right. right. right. exists n.
      split; [reflexivity | lia]. }
  destruct (Z.ltb_spec (81 + n + 4) (len payload)).
  - destruct (index_ok payload (81 + n + 4) ltac:(lia)) as (r & -> & _). cbn [bind].
    exists n. split; [reflexivity | lia].
  - cbn [bind]. exists n. split; [reflexivity | lia].
Qed.

(** X8.  [parse_version_payload] reads nothing after the relay byte: when
    the payload reaches to the relay byte (86 + n bytes, [n] the byte at
    offset 80), any bytes appended to it leave the result unchanged. *)
Theorem parse_version_payload_trailing payload n more :
  index payload 80 = Ok n ->
  86 + n <= len payload ->
  parse_version_payload (payload ++ more) = parse_version_payload payload.
Proof.
  intros Hn Hlen.
  destruct (index_inv payload 80 n ltac:(lia) Hn) as (H80 & b & _ & Hb).
  pose proof (byte_unsigned_range b) as Rb. rewrite <- Hb in Rb.
  pose proof (len_nonneg more) as Hmore.
  assert (Hn' : index (payload ++ more) 80 = Ok n)
    by (rewrite index_app_l by lia; exact Hn).
  rewrite (parse_version_payload_ok _ n Hn') by (rewrite len_app; lia).
  rewrite (parse_version_payload_ok _ n Hn) by lia.
  rewrite len_app.
  destruct (Z.ltb_spec (85 + n) (len payload + len more)); [|lia].
  destruct (Z.ltb_spec (85 + n) (len payload)); [|lia].
  rewrite index_app_l by lia.
  rewrite !(slice_app_l payload more) by lia.
  reflexivity.
Qed.

Lemma parse_version_payload_trailing_witness :
  parse_version_payload ((payload_without_relay ++ [Byte.x00]) ++ [Byte.xff; Byte.xff])
  = parse_version_payload (payload_without_relay ++ [Byte.x00]).
Proof.
  apply (parse_version_payload_trailing (payload_without_relay ++ [Byte.x00]) 9).
  - vm_compute. reflexivity.
  - vm_compute. congruence.
Defined.

(** X9.  The version handshake round trip for an IPv4 receiver.  When the
    magic has four bytes and the receiver address has no colon, the message
    of [create_version_message] is read back by [parse_message] as the
    command "version" with nothing left over, and its payload by
    [parse_version_payload] as exactly the values sent: protocol version,
    services 1, the timestamp and nonce used, the receiver address and port
    with services 1, the sender 0.0.0.0:0 with services 1, the user agent
    "/<name>NodesCrawler:0.1.0/", the start height and relay = true. *)
Theorem version_roundtrip cfg recv_ip recv_port h ts nc msg :
  length (magic_bytes cfg) = 4%nat ->
  has_colon recv_ip = false ->
  create_version_message cfg recv_ip recv_port h ts nc = Ok msg ->
  exists payload,
    parse_message msg (magic_bytes cfg) = Ok (lit "version", payload, [])
    /\ parse_version_payload payload =
         Ok {| version := protocol_version cfg;
               services := SERVICES_NODE_NETWORK;
               timestamp := ts;
               addr_recv := {| na_services := SERVICES_NODE_NETWORK;
                               na_ip := recv_ip;
                               na_port := recv_port;
                               na_timestamp := None |};
               addr_from := {| na_services := SERVICES_NODE_NETWORK;
                               na_ip := lit "0.0.0.0";
                               na_port := 0;
                               na_timestamp := None |};
               nonce := nc;
               user_agent := lit "/" ++ name cfg ++ lit "NodesCrawler:0.1.0/";
               start_height := h;
               relay := true |}.
Proof.
  intros Hm Hc Hmsg.
  destruct (version_message_frame _ _ _ _ _ _ _ Hm Hmsg) as (payload & Hp & Hf).
  destruct (version_message_parsed _ _ _ _ _ _ _ Hp) as (ip12 & ip4 & _ & _ & Hip & Hv).
  rewrite Hc in Hip. destruct Hip as [_ Hip].
  apply inet_ntoa_pton4 in Hip as [L Hn].
  rewrite inet_ntoa_ok in Hn by assumption. apply Ok_inj in Hn.
  exists payload. split; [exact Hf|]. rewrite Hv, Hn. reflexivity.
Qed.

Lemma version_roundtrip_witness :
  exists msg payload,
    create_version_message bitcoin_config (lit "203.0.113.7") 8333 840000 1700000000 7
    = Ok msg
    /\ parse_message msg (magic_bytes bitcoin_config) = Ok (lit "version", payload, [])
    /\ parse_version_payload payload =
         Ok {| version := 70016;
               services := 1;
               timestamp := 1700000000;
               addr_recv := {| na_services := 1;
                               na_ip := lit "203.0.113.7";
                               na_port := 8333;
                               na_timestamp := None |};
               addr_from := {| na_services := 1;
                               na_ip := lit "0.0.0.0";
                               na_port := 0;
                               na_timestamp := None |};
               nonce := 7;
               user_agent := lit "/" ++ lit "Bitcoin" ++ lit "NodesCrawler:0.1.0/";
               start_height := 840000;
               relay := true |}.
Proof.
  destruct (create_version_message bitcoin_config (lit "203.0.113.7") 8333 840000
                                   1700000000 7) as [msg|e] eqn:E.
  - exists msg.
    destruct (version_roundtrip bitcoin_config (lit "203.0.113.7") 8333 840000
                                1700000000 7 msg eq_refl eq_refl E) as (payload & H1 & H2).
    exists payload. split; [reflexivity|]. split; [exact H1 | exact H2].
  - exfalso. revert E. vm_compute. discriminate.
Defined.

(** X10.  When [create_version_message] builds a message.  It returns one
    exactly when the protocol version and start height fit 32 bits, the
    port 16 bits, the nonce 64 bits and the timestamp 64 bits signed, the
    receiver address is accepted by [inet_pton] (as IPv6 when it has a
    colon, else as IPv4), and the user agent "/<name>NodesCrawler:0.1.0/"
    has a UTF-8 encoding of at most 255 bytes; in every other case an
    exception is raised.  The message then has
    len(magic) + 106 + len(user agent) bytes. *)
Theorem create_version_message_succeeds cfg recv_ip recv_port h ts nc :
  ((exists msg, create_version_message cfg recv_ip recv_port h ts nc = Ok msg)
   <-> version_args_ok cfg recv_ip recv_port h ts nc)
  /\ (forall msg,
         create_version_message cfg recv_ip recv_port h ts nc = Ok msg ->
         exists uab,
           encode_utf8 (crawler_user_agent cfg) = Ok uab
           /\ len msg = len (magic_bytes cfg) + 106 + len uab).
Proof.
  assert (Hinv : forall msg,
             create_version_message cfg recv_ip recv_port h ts nc = Ok msg ->
             version_args_ok cfg recv_ip recv_port h ts nc
             /\ exists uab,
                  encode_utf8 (crawler_user_agent cfg) = Ok uab
                  /\ len msg = len (magic_bytes cfg) + 106 + len uab).
  { intros msg Hmsg. unfold create_version_message in Hmsg.
    destruct (version_payload_bytes cfg recv_ip recv_port h ts nc) as [payload|] eqn:Hp;
      cbn [bind] in Hmsg; [|discriminate].
    pose proof Hp as Hp'.
    apply version_payload_bytes_inv in Hp'
      as (uab & ip12 & ip4 & Hu & Lu & Rpv & Rts & Rport & Rnc & Rh & L12 & L4 & Hip & ->).
    split.
    - unfold version_args_ok. split; [eauto|].
      repeat (split; [assumption|]). split; [|auto].
      destruct (has_colon recv_ip); [eauto | destruct Hip; eauto].
    - exists uab. split; [exact Hu|].
      destruct (create_message_ok (magic_bytes cfg) (lit "version")
                  (concat (version_fields (protocol_version cfg) ts recv_port nc h
                                          ip12 ip4 uab)) ascii_version)
        as (Hc & Hlen).
      { rewrite len_version_fields by assumption.
        pose proof (len_nonneg uab). simpl. lia. }
      rewrite Hmsg in Hc. apply Ok_inj in Hc. subst msg.
      rewrite !app_assoc, len_app, <- !app_assoc, Hlen, len_version_fields by assumption.
      change (len (lit "version")) with 7. lia. }
  split; [split|].
  - intros (msg & Hmsg). apply (Hinv msg Hmsg).
  - apply create_version_message_ok.
  - intros msg Hmsg. apply (Hinv msg Hmsg).
Qed.

(** X11.  [parse_addr_payload] fails only on its count.  It raises exactly
    when [read_varint] raises at offset 0, and then the same exception
    ([IndexError] for an empty payload, [struct.error] for a count cut
    short); once the count is read, no content of the entries and no
    missing entry makes it fail. *)
Theorem parse_addr_payload_raises payload e :
  parse_addr_payload payload = Raise e <-> read_varint payload 0 = Raise e.
Proof.
  destruct (read_varint payload 0) as [[count offset]|e'] eqn:Hr.
  - rewrite (parse_addr_payload_spec payload count offset Hr).
    split; discriminate.
  - unfold parse_addr_payload. cbv zeta. rewrite Hr. cbn [bind].
    split; intros H; apply Raise_inj in H; subst e'; reflexivity.
Qed.

(** X12.  [parse_addr_payload] reads nothing after the entries it was
    promised: when the payload holds the [count] entries its varint
    announces, any bytes appended to it leave the result unchanged. *)
Theorem parse_addr_payload_trailing payload count offset more :
  read_varint payload 0 = Ok (count, offset) ->
  offset + 30 * count <= len payload ->
  parse_addr_payload (payload ++ more) = parse_addr_payload payload.
Proof.
  intros Hr Hall.
  destruct (read_varint_inv payload count offset Hr) as (Hc & Ho).
  pose proof (len_nonneg more) as Hmore.
  assert (Hr' : read_varint (payload ++ more) 0 = Ok (count, offset))
    by (apply read_varint_app; [lia | exact Hr]).
  rewrite (parse_addr_payload_spec _ _ _ Hr'), (parse_addr_payload_spec _ _ _ Hr).
  assert (Hw : forall p, offset + 30 * count <= len p ->
                         Z.min count (whole_entries p offset) = count).
  { intros p Hp. pose proof (whole_entries_ge p offset count Hc Hp). lia. }
  rewrite (Hw payload Hall), (Hw (payload ++ more)) by (rewrite len_app; lia).
  f_equal. apply map_ext_in. intros i Hi. apply in_seq in Hi.
  unfold addr_entry. rewrite slice_app_l by lia. reflexivity.
Qed.

Lemma parse_addr_payload_trailing_witness :
  parse_addr_payload
    (([Byte.x01] ++ le_split 4 1700000000 ++ le_split 8 1 ++ IPV4_MAPPED_PREFIX
        ++ [Byte.x01; Byte.x02; Byte.x03; Byte.x04] ++ [Byte.x20; Byte.x8d])
       ++ [Byte.xff; Byte.xff; Byte.xff])
  = parse_addr_payload
      ([Byte.x01] ++ le_split 4 1700000000 ++ le_split 8 1 ++ IPV4_MAPPED_PREFIX
         ++ [Byte.x01; Byte.x02; Byte.x03; Byte.x04] ++ [Byte.x20; Byte.x8d]).
Proof.
  apply (parse_addr_payload_trailing
           ([Byte.x01] ++ le_split 4 1700000000 ++ le_split 8 1 ++ IPV4_MAPPED_PREFIX
              ++ [Byte.x01; Byte.x02; Byte.x03; Byte.x04] ++ [Byte.x20; Byte.x8d])
           1 1).
  - vm_compute. reflexivity.
  - vm_compute. congruence.
Defined.
(* ===================================================================== *)
(** ** Further properties of the GeoIP lookup *)
(* ===================================================================== *)

Section GeoIPProps.
Import GeoIP GeoIPObject PyStr.
Variable V : Type.

Lemma dict_find_app_new (d : dict V) k v :
  dict_find V d k = None -> dict_find V (d ++ [(k, v)]) k = Some v.
Proof.
  unfold dict_find. induction d as [|[k' v'] d IH]; cbn [app find fst].
  - rewrite str_eqb_refl. reflexivity.
  - destruct (str_eqb k' k); [discriminate | exact IH].
Qed.

Lemma dict_find_skipn (d : dict V) k m :
  dict_find V d k = None -> dict_find V (skipn m d) k = None.
Proof.
  unfold dict_find. revert d. induction m as [|m IH]; intros d; [trivial|].
  destruct d as [|[k' v'] d]; [trivial|]. cbn [skipn find fst].
  destruct (str_eqb k' k); [discriminate | apply IH].
Qed.

(** The entry just stored is still there after the cache was trimmed. *)
Lemma lookup_stores (self : GeoIPLookup V) ip rd :
  reader V self = Some rd ->
  dict_find V (_cache V (snd (lookup V self ip))) ip = Some (fst (lookup V self ip)).
Proof.
  intros Hrd. rewrite lookup_cache.
  destruct (cache_after_insert V self ip) as [c1|] eqn:E.
  - pose proof (cache_after_insert_app V self ip c1 E) as Hc1.
    assert (Hmiss : dict_find V (_cache V self) ip = None).
    { unfold cache_after_insert in E.
      destruct (dict_find V (_cache V self) ip); [discriminate | reflexivity]. }
    destruct (Z.ltb_spec 10000 (len c1)) as [Hlt|_].
    + rewrite Hc1 in Hlt |- *. rewrite len_app in Hlt. unfold len in Hlt.
      cbn [length] in Hlt. unfold slice_from. rewrite skipn_app.
      replace (Z.to_nat 5000 - length (_cache V self))%nat with 0%nat by lia.
      cbn [skipn]. apply dict_find_app_new. now apply dict_find_skipn.
    + rewrite Hc1. now apply dict_find_app_new.
  - unfold cache_after_insert in E. unfold lookup. rewrite Hrd in *.
    destruct (dict_find V (_cache V self) ip) as [r|] eqn:F; [|discriminate].
    reflexivity.
Qed.

(** X13.  Answers are served from the cache.  After [lookup(ip)] on an
    object with a city database, looking the same address up again returns
    the same dict and changes nothing, whatever the databases would answer
    by then: the readers are not consulted for an address that is cached,
    and the entry stored last is never among those the size limit
    removes. *)
Theorem lookup_twice (self : GeoIPLookup V) ip rd' a' :
  reader V self <> None ->
  let r := fst (lookup V self ip) in
  let after := {| reader := rd'; asn_reader := a';
                  _cache := _cache V (snd (lookup V self ip)) |} in
  lookup V after ip = (r, after).
Proof.
  intros Hrd r after.
  destruct (reader V self) as [rd|] eqn:E; [|congruence].
  pose proof (lookup_stores self ip rd E) as Hs.
  unfold lookup at 1. unfold after at 1. cbn [_cache]. rewrite Hs. reflexivity.
Qed.

(** X14.  A failed city lookup is an answer like any other.  When the city
    reader raises for an address that is not cached (address not found, or
    any other exception), [lookup] raises nothing: the nine city fields of
    the dict are [None], the two ASN fields are what the ASN reader gives
    ([None] without an ASN reader or when it raises too), and this dict is
    stored in the cache under the address. *)
Theorem lookup_failure_cached (self : GeoIPLookup V) rd ip :
  reader V self = Some rd ->
  dict_find V (_cache V self) ip = None ->
  rd ip = @AddressNotFoundError _ \/ rd ip = @OtherException _ ->
  let r := fst (lookup V self ip) in
  (country_code V r = None /\ country_name V r = None /\ region V r = None
   /\ city V r = None /\ latitude V r = None /\ longitude V r = None
   /\ timezone V r = None /\ isp V r = None /\ org V r = None)
  /\ (asn V r, asn_org V r)
     = match asn_reader V self with
       | Some f =>
           match f ip with
           | @Found _ a => (autonomous_system_number V a,
                         autonomous_system_organization V a)
           | _ => (None, None)
           end
       | None => (None, None)
       end
  /\ dict_find V (_cache V (snd (lookup V self ip))) ip = Some r.
Proof.
  intros Hrd Hmiss Hfail r.
  split; [|split; [|exact (lookup_stores self ip rd Hrd)]].
  - unfold r, lookup. rewrite Hmiss, Hrd. cbv zeta. cbn [fst].
    unfold city_lookup, asn_lookup.
    destruct Hfail as [-> | ->];
      (destruct (asn_reader V self) as [f|]; [destruct (f ip)|]);
      cbn; repeat split; reflexivity.
  - unfold r, lookup. rewrite Hmiss, Hrd. cbv zeta. cbn [fst].
    unfold city_lookup, asn_lookup.
    destruct Hfail as [-> | ->];
      (destruct (asn_reader V self) as [f|]; [destruct (f ip)|]); reflexivity.
Qed.

Lemma lookup_no_reader (self : GeoIPLookup V) ip :
  reader V self = None ->
  lookup V self ip
  = (match dict_find V (_cache V self) ip with
     | Some r => r
     | None => null_result V
     end, self).
Proof.
  intros H. unfold lookup. rewrite H.
  destruct (dict_find V (_cache V self) ip); reflexivity.
Qed.

Lemma run_no_reader ips : forall self : GeoIPLookup V,
  reader V self = None -> run V self ips = self.
Proof.
  unfold run. induction ips as [|ip ips IH]; intros self H; [reflexivity|].
  cbn [fold_left]. rewrite lookup_no_reader by exact H. cbn [snd]. now apply IH.
Qed.

(** X15.  After [close].  [close] drops both readers and keeps the cache:
    every later [lookup] returns the cached dict of an address looked up
    before the close and the all-[None] dict for any other address, and no
    number of lookups changes the object any more (nothing is added to the
    cache). *)
Theorem lookup_after_close (self : GeoIPLookup V) ips ip :
  run V (close V self) ips = close V self
  /\ lookup V (run V (close V self) ips) ip
     = (match dict_find V (_cache V self) ip with
        | Some r => r
        | None => null_result V
        end, close V self).
Proof.
  assert (R : run V (close V self) ips = close V self)
    by (apply run_no_reader; reflexivity).
  split; [exact R|]. rewrite R. rewrite lookup_no_reader by reflexivity. reflexivity.
Qed.

Lemma no_asn_find c k r :
  no_asn V c -> dict_find V c k = Some r -> asn V r = None /\ asn_org V r = None.
Proof.
  unfold no_asn, dict_find. induction 1 as [|[k' v'] c Hkv _ IH]; cbn [find fst].
  - discriminate.
  - destruct (str_eqb k' k); [|exact IH].
    cbn [option_map snd]. intros H. injection H as <-. exact Hkv.
Qed.

Lemma no_asn_skipn n : forall c, no_asn V c -> no_asn V (skipn n c).
Proof.
  unfold no_asn. induction n as [|n IH]; intros c Hc; [exact Hc|].
  destruct Hc; [constructor | now apply IH].
Qed.

Lemma lookup_no_asn (self : GeoIPLookup V) ip :
  asn_reader V self = None -> no_asn V (_cache V self) ->
  (asn V (fst (lookup V self ip)) = None /\ asn_org V (fst (lookup V self ip)) = None)
  /\ no_asn V (_cache V (snd (lookup V self ip)))
  /\ asn_reader V (snd (lookup V self ip)) = None.
Proof.
  intros Ha Hc.
  assert (Hr : asn V (fst (lookup V self ip)) = None
               /\ asn_org V (fst (lookup V self ip)) = None).
  { unfold lookup.
    destruct (dict_find V (_cache V self) ip) as [r|] eqn:F.
    - exact (no_asn_find _ _ _ Hc F).
    - destruct (reader V self) as [rd|]; [|split; reflexivity].
      cbv zeta. cbn [fst]. rewrite Ha. unfold asn_lookup, city_lookup.
      destruct (rd ip); split; reflexivity. }
  split; [exact Hr|]. split.
  - rewrite lookup_cache.
    destruct (cache_after_insert V self ip) as [c1|] eqn:E; [|exact Hc].
    pose proof (cache_after_insert_app V self ip c1 E) as ->.
    assert (Hall : no_asn V (_cache V self ++ [(ip, fst (lookup V self ip))])).
    { apply Forall_app. split; [exact Hc|]. constructor; [exact Hr | constructor]. }
    destruct (10000 <? _); [|exact Hall].
    unfold slice_from. now apply no_asn_skipn.
  - unfold lookup. destruct (dict_find V (_cache V self) ip); [exact Ha|].
    destruct (reader V self); [|exact Ha]. cbv zeta. cbn [snd with_cache asn_reader].
    exact Ha.
Qed.

Lemma run_no_asn ips : forall self : GeoIPLookup V,
  asn_reader V self = None -> no_asn V (_cache V self) ->
  no_asn V (_cache V (run V self ips)) /\ asn_reader V (run V self ips) = None.
Proof.
  unfold run. induction ips as [|ip ips IH]; intros self Ha Hc; [split; assumption|].
  cbn [fold_left]. destruct (lookup_no_asn self ip Ha Hc) as (_ & Hc' & Ha').
  now apply IH.
Qed.

Lemma replace_from_absent old new s :
  (forall pre post, s <> pre ++ old ++ post) ->
  replace_from 0 old new s = s.
Proof.
  assert (Hsw : forall p t, starts_with p t = true -> exists post, t = p ++ post).
  { induction p as [|c p IH]; intros t; [exists t; reflexivity|].
    destruct t as [|d t]; cbn [starts_with]; [discriminate|].
    intros H. apply andb_true_iff in H as [H1 H2]. apply Z.eqb_eq in H1. subst d.
    destruct (IH t H2) as (post & ->). exists post. reflexivity. }
  induction s as [|c s IH]; intros Habs; [reflexivity|].
  cbn [replace_from].
  destruct (starts_with old (c :: s)) eqn:E.
  - destruct (Hsw _ _ E) as (post & Hp).
    exfalso. apply (Habs [] post). exact Hp.
  - f_equal. apply IH. intros pre post Hp.
    apply (Habs (c :: pre) post). rewrite Hp. reflexivity.
Qed.

(** X16.  No ASN data without the city database.  For an object made by
    the constructor, a [lookup] returns an AS number or AS organisation
    only if the library is there, the city database file exists and opened,
    and a file exists and opened at the path of the city database with
    every "City" replaced by "ASN"; an ASN database next to a city
    database that is missing or does not open is never used.  When "City"
    does not occur in the path, that second path is the path itself. *)
Theorem asn_needs_city (w : World V) db_path ips ip :
  let asn_db_path := replace db_path (lit "City") (lit "ASN") in
  let r := fst (lookup V (run V (__init__ V w db_path) ips) ip) in
  (asn V r <> None \/ asn_org V r <> None ->
   HAS_GEOIP V w = true
   /\ path_exists V w db_path = true
   /\ open_city V w db_path <> None
   /\ path_exists V w asn_db_path = true
   /\ open_asn V w asn_db_path <> None)
  /\ ((forall pre post, db_path <> pre ++ lit "City" ++ post) ->
      asn_db_path = db_path).
Proof.
  intros asn_db_path r. split.
  - intros Hasn.
    assert (Hnone : forall self : GeoIPLookup V,
               asn_reader V self = None -> _cache V self = [] ->
               asn V (fst (lookup V (run V self ips) ip)) = None
               /\ asn_org V (fst (lookup V (run V self ips) ip)) = None).
    { intros self Ha Hc.
      destruct (run_no_asn ips self Ha) as (Hc' & Ha'); [rewrite Hc; constructor|].
      exact (proj1 (lookup_no_asn _ ip Ha' Hc')). }
    assert (Hnull : forall self : GeoIPLookup V,
               reader V self = None -> _cache V self = [] ->
               fst (lookup V (run V self ips) ip) = null_result V).
    { intros self Hr Hc. rewrite run_no_reader by exact Hr.
      rewrite lookup_no_reader by exact Hr. rewrite Hc. reflexivity. }
    unfold r, __init__ in *. fold asn_db_path in Hasn |- *.
    destruct (HAS_GEOIP V w); cbn [andb] in *.
    2:{ rewrite Hnull in Hasn by reflexivity. cbn in Hasn. tauto. }
    destruct (path_exists V w db_path); cbn [andb] in *.
    2:{ rewrite Hnull in Hasn by reflexivity. cbn in Hasn. tauto. }
    cbv zeta in Hasn.
    destruct (open_city V w db_path) as [rd|].
    2:{ rewrite Hnull in Hasn by reflexivity. cbn in Hasn. tauto. }
    destruct (path_exists V w asn_db_path).
    2:{ destruct (Hnone {| reader := Some rd; asn_reader := None; _cache := [] |}
                    eq_refl eq_refl) as [H1 H2].
        rewrite H1, H2 in Hasn. tauto. }
    destruct (open_asn V w asn_db_path) as [f|].
    2:{ destruct (Hnone {| reader := Some rd; asn_reader := None; _cache := [] |}
                    eq_refl eq_refl) as [H1 H2].
        rewrite H1, H2 in Hasn. tauto. }
    repeat split; discriminate.
  - intros Habs. unfold asn_db_path, replace.
    change (lit "City") with [67; 105; 116; 121] in *.
    now apply replace_from_absent.
Qed.

End GeoIPProps.

Lemma lookup_twice_witness :
  let self := GeoIP.init Z (Some (fun _ => @GeoIP.AddressNotFoundError _)) None in
  GeoIP.lookup Z
    {| GeoIP.reader := None; GeoIP.asn_reader := None;
       GeoIP._cache := GeoIP._cache Z (snd (GeoIP.lookup Z self [49])) |} [49]
  = (fst (GeoIP.lookup Z self [49]),
     {| GeoIP.reader := None; GeoIP.asn_reader := None;
        GeoIP._cache := GeoIP._cache Z (snd (GeoIP.lookup Z self [49])) |}).
Proof.
  cbv zeta.
  apply (lookup_twice Z (GeoIP.init Z (Some (fun _ => @GeoIP.AddressNotFoundError _)) None)
                      [49] None None).
  discriminate.
Defined.

Lemma lookup_failure_cached_witness :
  let self := GeoIP.init Z (Some (fun _ => @GeoIP.OtherException _)) None in
  GeoIP.dict_find Z (GeoIP._cache Z (snd (GeoIP.lookup Z self [49]))) [49]
  = Some (fst (GeoIP.lookup Z self [49])).
Proof.
  cbv zeta.
  apply (lookup_failure_cached Z
           (GeoIP.init Z (Some (fun _ => @GeoIP.OtherException _)) None)
           (fun _ => @GeoIP.OtherException _) [49] eq_refl eq_refl).
  right. reflexivity.
Defined.

Lemma asn_needs_city_witness :
  PyStr.replace (lit "/data/GeoLite2.mmdb") (lit "City") (lit "ASN")
  = lit "/data/GeoLite2.mmdb".
Proof.
  apply (proj2 (asn_needs_city Z
                  {| GeoIPObject.HAS_GEOIP := true;
                     GeoIPObject.path_exists := fun _ => true;
                     GeoIPObject.open_city := fun _ => None;
                     GeoIPObject.open_asn := fun _ => None |}
                  (lit "/data/GeoLite2.mmdb") [] [])).
  intros pre post H.
  apply (f_equal (existsb (Z.eqb 67))) in H.
  rewrite !existsb_app in H.
  change (existsb (Z.eqb 67) (lit "City")) with true in H.
  rewrite orb_true_l, orb_true_r in H. vm_compute in H. discriminate.
Defined.
(* ===================================================================== *)
(** ** Further properties of [load_config] *)
(* ===================================================================== *)

Module ConfigMore.
Import stdpp.base stdpp.gmap stdpp.strings.
Import Config ConfigExamples ConfigProps ConfigTables.
Local Open Scope Z_scope.
Local Open Scope py_scope.

Section WithFloat.
Context {F : PyFloat}.
Implicit Types (env : gmap string str) (crawler_yaml : gmap string pyval).

Lemma resolved_by_precedence env crawler_yaml name key dflt :
  resolved env crawler_yaml name key dflt = by_precedence env crawler_yaml name key dflt.
Proof.
  unfold resolved, by_precedence, getenv_or, dict_get.
  destruct (env !! name); [reflexivity|].
  destruct (crawler_yaml !! key); reflexivity.
Qed.

Lemma raises_unless (r : result (list str * CrawlerConfig)) :
  (forall out c, r = Ok (out, c) -> False) -> exists e, r = Raise e.
Proof. destruct r as [[out c]|e]; intros Hr; [destruct (Hr out c eq_refl) | eauto]. Qed.

(** Where the options with two sources come from. *)
Lemma options_by_precedence cfg env crawler_yaml out c :
  load_config cfg env crawler_yaml = Ok (out, c) ->
  Forall (fun '(name, key, dflt, field) =>
            Text.int_of_str (by_precedence env crawler_yaml name key (PyInt dflt))
            = Ok (field c))
         int_options
  /\ Forall (fun '(name, key, dflt, field) =>
               float_of_str (by_precedence env crawler_yaml name key (PyInt dflt))
               = Ok (field c))
            float_options.
Proof.
  intros Hok.
  apply load_config_ok in Hok
    as (H1 & H2 & H3 & H4 & H5 & H6 & H7 & H8 & _).
  rewrite resolved_by_precedence in H1, H2, H3, H4, H5, H6, H7, H8.
  split.
  - unfold int_options. repeat (constructor; [assumption|]). constructor.
  - unfold float_options. repeat (constructor; [assumption|]). constructor.
Qed.

(** X17.  The options with two sources follow the precedence.  When
    [load_config] returns, each of pruneAfterHours, scanIntervalMinutes,
    maxConcurrentConnections, connectionTimeoutSeconds,
    extendedTimeoutSeconds and maxRetries is [int] of the text of its
    environment variable when that is set, else of [str] of its YAML value
    when the key is there, else of its default (168, 5, 100, 10, 30, 3);
    so without the variable an integer in the YAML file comes back as it
    is, and without both the default does.  initialRetryDelaySeconds and
    retryBackoffMultiplier are [float] of the text chosen the same way
    (defaults 1 and 2). *)
Theorem crawler_option_precedence cfg env crawler_yaml out c :
  load_config cfg env crawler_yaml = Ok (out, c) ->
  Forall (fun '(name, key, dflt, field) =>
            Text.int_of_str (by_precedence env crawler_yaml name key (PyInt dflt))
            = Ok (field c)
            /\ (env !! name = None -> crawler_yaml !! key = None -> field c = dflt)
            /\ (forall v, env !! name = None -> crawler_yaml !! key = Some (PyInt v) ->
                          field c = v))
         int_options
  /\ Forall (fun '(name, key, dflt, field) =>
               float_of_str (by_precedence env crawler_yaml name key (PyInt dflt))
               = Ok (field c))
            float_options.
Proof.
  intros Hok.
  destruct (options_by_precedence _ _ _ _ _ Hok) as [Hint Hfloat].
  split; [|exact Hfloat].
  eapply List.Forall_impl; [|exact Hint].
  intros [[[name key] dflt] field] Hv. split; [exact Hv|].
  unfold by_precedence in Hv. split.
  - intros He Hy. rewrite He, Hy, int_of_py_str in Hv. now apply Ok_inj in Hv.
  - intros w He Hy. rewrite He, Hy, int_of_py_str in Hv. now apply Ok_inj in Hv.
Qed.

(** X18.  The options with one source.  When [load_config] returns,
    requireVersionForSave is the YAML value as it stands (of whatever type;
    [True] without the key) and fallbackProtocolVersions the YAML list (the
    empty list without the key or for a value that is no list): no
    environment variable reaches them.  getaddr_delay_ms is [int] of the
    variable GETADDR_DELAY_MS, or 100 without it: nothing in the YAML file
    reaches it. *)
Theorem options_with_one_source cfg env crawler_yaml out c :
  load_config cfg env crawler_yaml = Ok (out, c) ->
  require_version_for_save c
  = match crawler_yaml !! "requireVersionForSave"%string with
    | Some v => v
    | None => PyBool true
    end
  /\ fallback_protocol_versions c
     = match crawler_yaml !! "fallbackProtocolVersions"%string with
       | Some (PyList l) => l
       | _ => []
       end
  /\ Text.int_of_str (match env !! "GETADDR_DELAY_MS"%string with
                      | Some s => s
                      | None => lit "100"
                      end) = Ok (getaddr_delay_ms c).
Proof.
  intros Hok.
  apply load_config_ok in Hok
    as (_ & _ & _ & _ & _ & _ & _ & _ & Hg & Hr & Hf & _).
  unfold dict_get, getenv_or in *.
  split; [|split].
  - rewrite Hr. destruct (crawler_yaml !! "requireVersionForSave"%string); reflexivity.
  - rewrite Hf. destruct (crawler_yaml !! "fallbackProtocolVersions"%string) as [[]|];
      reflexivity.
  - rewrite <- Hg. destruct (env !! "GETADDR_DELAY_MS"%string); reflexivity.
Qed.

(** X19.  The checks on the timeouts and the retry delay.  [load_config]
    raises whenever connectionTimeoutSeconds is 0 or less, whenever
    extendedTimeoutSeconds is below connectionTimeoutSeconds, and whenever
    initialRetryDelaySeconds is 0 or less; a configuration it returns has
    0 < connection_timeout <= extended_timeout (equal timeouts pass) and an
    initial retry delay that is not [<= 0]. *)
Theorem timeout_checks cfg env crawler_yaml :
  let connection :=
    Text.int_of_str (by_precedence env crawler_yaml "CONNECTION_TIMEOUT_SECONDS"
                                   "connectionTimeoutSeconds" (PyInt 10)) in
  let extended :=
    Text.int_of_str (by_precedence env crawler_yaml "EXTENDED_TIMEOUT_SECONDS"
                                   "extendedTimeoutSeconds" (PyInt 30)) in
  let delay :=
    float_of_str (by_precedence env crawler_yaml "INITIAL_RETRY_DELAY_SECONDS"
                                "initialRetryDelaySeconds" (PyInt 1)) in
  (forall v, connection = Ok v -> v <= 0 ->
             exists e, load_config cfg env crawler_yaml = Raise e)
  /\ (forall v w, connection = Ok v -> extended = Ok w -> w < v ->
                  exists e, load_config cfg env crawler_yaml = Raise e)
  /\ (forall x, delay = Ok x -> float_le0 x = true ->
                exists e, load_config cfg env crawler_yaml = Raise e)
  /\ (forall out c, load_config cfg env crawler_yaml = Ok (out, c) ->
                    0 < connection_timeout c <= extended_timeout c
                    /\ float_le0 (initial_retry_delay c) = false).
Proof.
  intros connection extended delay.
  unfold connection, extended, delay. rewrite <- !resolved_by_precedence.
  split; [|split; [|split]].
  - intros v Hv Hneg. apply raises_unless. intros out c Hok.
    apply load_config_ok in Hok
      as (_ & _ & _ & H4 & _ & _ & _ & _ & _ & _ & _ & _ & Hr & _).
    rewrite Hv in H4. apply Ok_inj in H4. lia.
  - intros v w Hv Hw Hlt. apply raises_unless. intros out c Hok.
    apply load_config_ok in Hok
      as (_ & _ & _ & H4 & H5 & _ & _ & _ & _ & _ & _ & _ & Hr & _).
    rewrite Hv in H4. rewrite Hw in H5. apply Ok_inj in H4. apply Ok_inj in H5. lia.
  - intros x Hx Hle. apply raises_unless. intros out c Hok.
    apply load_config_ok in Hok
      as (_ & _ & _ & _ & _ & _ & H7 & _ & _ & _ & _ & _ & _ & Hd & _).
    rewrite Hx in H7. apply Ok_inj in H7. subst x. rewrite Hle in Hd. discriminate.
  - intros out c Hok.
    apply load_config_ok in Hok
      as (_ & _ & _ & _ & _ & _ & _ & _ & _ & _ & _ & _ & Hr & Hd & _).
    split; assumption.
Qed.

(** X20.  The check on fallbackProtocolVersions.  A YAML list with an
    element that is neither an integer nor a boolean makes [load_config]
    raise; a value that is no list at all is replaced by the empty list
    without any error; and the list of a configuration that is returned
    holds integers and booleans only ([bool] passes [isinstance(v, int)]). *)
Theorem fallback_versions_checked cfg env crawler_yaml :
  (forall l, crawler_yaml !! "fallbackProtocolVersions"%string = Some (PyList l) ->
             forallb isinstance_int l = false ->
             exists e, load_config cfg env crawler_yaml = Raise e)
  /\ (forall out c, load_config cfg env crawler_yaml = Ok (out, c) ->
                    forallb isinstance_int (fallback_protocol_versions c) = true
                    /\ (forall v, crawler_yaml !! "fallbackProtocolVersions"%string = Some v ->
                                  (forall l, v <> PyList l) ->
                                  fallback_protocol_versions c = [])).
Proof.
  assert (Hall : forall out c, load_config cfg env crawler_yaml = Ok (out, c) ->
                 forallb isinstance_int (fallback_protocol_versions c) = true).
  { intros out c. unfold load_config.
    repeat match goal with
           | |- context [Text.int_of_str ?s] =>
               destruct (Text.int_of_str s); cbn [bind]; [|discriminate]
           | |- context [float_of_str ?s] =>
               destruct (float_of_str s); cbn [bind]; [|discriminate]
           end.
    cbv zeta.
    repeat match goal with
           | |- context [if ?b then Raise _ else _] => destruct b; [discriminate|]
           end.
    assert (Hrest : forall (l : list pyval) k,
               forallb isinstance_int l = true ->
               (rpc_port <- Text.int_of_str
                              (getenv_or env "RPC_PORT" (Text.str_of_int (rpc_port cfg))) ;;
                getaddr_delay_ms <- Text.int_of_str
                                      (getenv_or env "GETADDR_DELAY_MS" (lit "100")) ;;
                Ok (k rpc_port getaddr_delay_ms)) = Ok (out, c) ->
               (forall p g, fallback_protocol_versions (snd (k p g)) = l) ->
               forallb isinstance_int (fallback_protocol_versions c) = true).
    { intros l k Hl. 
      destruct (Text.int_of_str (getenv_or env "RPC_PORT" _)) as [p|]; cbn [bind];
        [|discriminate].
      destruct (Text.int_of_str (getenv_or env "GETADDR_DELAY_MS" _)) as [g|]; cbn [bind];
        [|discriminate].
      intros Hk Hf. apply Ok_inj in Hk. specialize (Hf p g). rewrite Hk in Hf.
      cbn [snd] in Hf. rewrite Hf. exact Hl. }
    destruct (dict_get crawler_yaml "fallbackProtocolVersions" (PyList [])) as [| | | | |l|];
      cbn [bind].
    6:{ destruct (forallb isinstance_int l) eqn:E; cbn [bind]; [|discriminate].
        intros Hk. refine (Hrest l _ E Hk _). reflexivity. }
    all: intros Hk; refine (Hrest [] _ eq_refl Hk _); reflexivity.
  }
  split.
  - intros l Hl Hbad. apply raises_unless. intros out c Hok.
    pose proof (Hall _ _ Hok) as Hgood.
    apply load_config_ok in Hok
      as (_ & _ & _ & _ & _ & _ & _ & _ & _ & _ & Hf & _).
    unfold dict_get in Hf. rewrite Hl in Hf. cbn in Hf. rewrite Hf in Hgood. congruence.
  - intros out c Hok. split; [exact (Hall _ _ Hok)|].
    intros v Hv Hnl.
    apply load_config_ok in Hok
      as (_ & _ & _ & _ & _ & _ & _ & _ & _ & _ & Hf & _).
    unfold dict_get in Hf. rewrite Hv in Hf. cbn in Hf. rewrite Hf.
    destruct v; try reflexivity. exfalso. exact (Hnl _ eq_refl).
Qed.

(** X21.  A YAML null or boolean is not a missing key.  When the
    environment variable of one of the six integer options is not set and
    the YAML file has its key with the value null, true or false,
    [load_config] raises ([int("None")], [int("True")]): it does not fall
    back to the default. *)
Theorem null_or_bool_rejected cfg env crawler_yaml name key dflt field v :
  In (name, key, dflt, field) int_options ->
  env !! name = None ->
  crawler_yaml !! key = Some v ->
  v = PyNone \/ (exists b, v = PyBool b) ->
  exists e, load_config cfg env crawler_yaml = Raise e.
Proof.
  intros Hin He Hy Hv. apply raises_unless. intros out c Hok.
  destruct (options_by_precedence _ _ _ _ _ Hok) as [Hopts _].
  pose proof (proj1 (List.Forall_forall _ _) Hopts _ Hin) as Hconv. cbv beta iota in Hconv.
  unfold by_precedence in Hconv. rewrite He, Hy in Hconv.
  destruct Hv as [-> | [[|] ->]]; vm_compute in Hconv; discriminate.
Qed.

End WithFloat.

Lemma crawler_option_precedence_witness :
  exists c : CrawlerConfig,
    Forall (fun '(name, key, dflt, field) =>
              Text.int_of_str (by_precedence no_env yaml_getaddr_250 name key (PyInt dflt))
              = Ok (field c)
              /\ (no_env !! name = None -> yaml_getaddr_250 !! key = None -> field c = dflt)
              /\ (forall v, no_env !! name = None ->
                            yaml_getaddr_250 !! key = Some (PyInt v) -> field c = v))
           int_options.
Proof.
  evaluated (load_config bitcoin_config no_env yaml_getaddr_250).
  match type of E with
  | _ = Ok (?out, ?c) =>
      exists c; exact (proj1 (crawler_option_precedence bitcoin_config no_env
                                yaml_getaddr_250 out c E))
  end.
Defined.

Lemma options_with_one_source_witness :
  exists c : CrawlerConfig,
    require_version_for_save c = PyBool true
    /\ fallback_protocol_versions c = []
    /\ Text.int_of_str (lit "100") = Ok (getaddr_delay_ms c).
Proof.
  evaluated (load_config bitcoin_config no_env yaml_getaddr_250).
  match type of E with
  | _ = Ok (?out, ?c) =>
      exists c; exact (options_with_one_source bitcoin_config no_env
                         yaml_getaddr_250 out c E)
  end.
Defined.

Lemma timeout_checks_witness :
  exists e,
    load_config bitcoin_config
                (<["CONNECTION_TIMEOUT_SECONDS"%string := lit "0"]> no_env) no_yaml
    = Raise e.
Proof.
  evaluated (Text.int_of_str
               (by_precedence (<["CONNECTION_TIMEOUT_SECONDS"%string := lit "0"]> no_env)
                              no_yaml "CONNECTION_TIMEOUT_SECONDS"
                              "connectionTimeoutSeconds" (PyInt 10))).
  exact (proj1 (timeout_checks bitcoin_config
                  (<["CONNECTION_TIMEOUT_SECONDS"%string := lit "0"]> no_env) no_yaml)
               0 E ltac:(lia)).
Defined.

Lemma fallback_versions_checked_witness :
  exists e,
    load_config bitcoin_config no_env
                (<["fallbackProtocolVersions"%string := PyList [PyInt 70015; PyStr (lit "x")]]>
                   no_yaml)
    = Raise e.
Proof.
  evaluated ((<["fallbackProtocolVersions"%string := PyList [PyInt 70015; PyStr (lit "x")]]>
                no_yaml) !! "fallbackProtocolVersions"%string).
  exact (proj1 (fallback_versions_checked bitcoin_config no_env
                  (<["fallbackProtocolVersions"%string
                       := PyList [PyInt 70015; PyStr (lit "x")]]> no_yaml))
               _ E eq_refl).
Defined.

Lemma null_or_bool_rejected_witness :
  exists e,
    load_config bitcoin_config no_env (<["maxRetries"%string := PyNone]> no_yaml) = Raise e.
Proof.
  evaluated (no_env !! "MAX_RETRIES"%string).
  evaluated ((<["maxRetries"%string := PyNone]> no_yaml) !! "maxRetries"%string).
  apply (null_or_bool_rejected bitcoin_config no_env
           (<["maxRetries"%string := PyNone]> no_yaml)
           "MAX_RETRIES"%string "maxRetries"%string 3 max_retries PyNone).
  - right. right. right. right. right. left. reflexivity.
  - exact E.
  - exact E0.
  - left. reflexivity.
Defined.

(** X26.  "nan" passes the check of retryBackoffMultiplier.  When the
    variable RETRY_BACKOFF_MULTIPLIER holds the text "nan", [float] reads
    a NaN, for which [retry_backoff_multiplier < 1] is false: [load_config]
    never raises "retryBackoffMultiplier must be >= 1" then, and a
    configuration it returns has a multiplier that is NaN, not a number of
    at least 1. *)
Theorem nan_multiplier_accepted cfg (env : gmap string str)
        (crawler_yaml : gmap string (@pyval Binary64)) :
  env !! "RETRY_BACKOFF_MULTIPLIER"%string = Some (lit "nan") ->
  (forall e, load_config cfg env crawler_yaml = Raise e ->
             e <> ValueError "retryBackoffMultiplier must be >= 1")
  /\ (forall out c, load_config cfg env crawler_yaml = Ok (out, c) ->
                    retry_backoff_multiplier c = Float64.NaN
                    /\ Float64.lt1 (retry_backoff_multiplier c) = false).
Proof.
  intros Henv.
  assert (Hnan : float_of_str (resolved env crawler_yaml "RETRY_BACKOFF_MULTIPLIER"
                                        "retryBackoffMultiplier" (PyInt 2))
                 = Ok Float64.NaN).
  { rewrite (resolved_env env crawler_yaml _ _ _ _ Henv).
    evaluated (Float64.of_str (lit "nan")). exact E. }
  split.
  - intros e He ->.
    destruct (proj2 (load_config_raises _ _ _ _ He) eq_refl) as (x & Hx & Hlt).
    rewrite Hnan in Hx. apply Ok_inj in Hx. subst x. discriminate Hlt.
  - intros out c Hok.
    apply load_config_ok in Hok as (_ & _ & _ & _ & _ & _ & _ & Hm & _).
    rewrite Hnan in Hm. apply Ok_inj in Hm. rewrite <- Hm. split; reflexivity.
Qed.

Lemma nan_multiplier_accepted_witness :
  exists out c,
    load_config bitcoin_config (<["RETRY_BACKOFF_MULTIPLIER"%string := lit "nan"]> no_env)
                no_yaml = Ok (out, c)
    /\ retry_backoff_multiplier c = Float64.NaN
    /\ Float64.lt1 (retry_backoff_multiplier c) = false.
Proof.
  evaluated (load_config bitcoin_config
               (<["RETRY_BACKOFF_MULTIPLIER"%string := lit "nan"]> no_env) no_yaml).
  evaluated ((<["RETRY_BACKOFF_MULTIPLIER"%string := lit "nan"]> no_env)
               !! "RETRY_BACKOFF_MULTIPLIER"%string).
  match type of E with
  | _ = Ok (?out, ?c) =>
      exists out, c; split; [exact E|];
      exact (proj2 (nan_multiplier_accepted bitcoin_config _ no_yaml E0) out c E)
  end.
Defined.

End ConfigMore.
(* ===================================================================== *)
(** ** The loaders of [config/project.config.yaml] *)
(* ===================================================================== *)

Module ConfigFilesProps.
Import stdpp.base stdpp.gmap stdpp.strings.
Import Config ConfigExamples ConfigProps ConfigFiles.
Local Open Scope Z_scope.
Local Open Scope py_scope.



Section Chain.
Variable upper : str -> str.
Implicit Types (project_config : @document Binary64).

(** The chainConfig section of a document. *)
Abbreviation section project_config :=
  (default (∅ : gmap string (@pyval Binary64)) (project_config !! "chainConfig"%string)).

Lemma missing_nil (data : gmap string (@pyval Binary64)) :
  List.filter (fun f => bool_decide (data !! f = None)) required_fields = []
  <-> (forall f, In f required_fields -> data !! f <> None).
Proof.
  split.
  - intros H f Hf Hn.
    assert (Hin : In f (List.filter (fun f => bool_decide (data !! f = None))
                                    required_fields)).
    { apply List.filter_In. split; [exact Hf | now apply bool_decide_eq_true_2]. }
    rewrite H in Hin. exact Hin.
  - intros H.
    destruct (List.filter (fun f => bool_decide (data !! f = None)) required_fields)
      as [|f l] eqn:E; [reflexivity|].
    assert (Hin : In f (List.filter (fun f => bool_decide (data !! f = None))
                                    required_fields))
      by (rewrite E; left; reflexivity).
    apply List.filter_In in Hin as [Hf Hd]. apply bool_decide_eq_true_1 in Hd.
    exfalso. exact (H f Hf Hd).
Qed.

(** The loader after the check of the required fields. *)
Lemma load_chain_present project_config :
  (forall f, In f required_fields -> section project_config !! f <> None) ->
  load_chain_config_from_yaml upper (Some project_config) =
    let data := section project_config in
    match
      match dict_get data "magicBytes" PyNone with
      | PyStr s =>
          match fromhex s with
          | Some b => if negb (length b =? 4)%nat then None else Some b
          | None => None
          end
      | _ => None
      end
    with
    | None => Fails (Builtin (ValueError "Invalid magicBytes in project.config.yaml"))
    | Some magic_bytes =>
        and_then
          (if truthy (dict_get data "userAgentPatterns" (PyList []))
           then getitem0 (dict_get data "userAgentPatterns" (PyList []))
           else Returns (PyStr (lit "/(" ++ py_str (dict_get data "name" (PyStr (lit "Unknown")))
                                ++ lit "):([0-9.]+)/")))
          (fun user_agent_pattern =>
             if negb (truthy (dict_get data "dnsSeeds" (PyList [])))
                && negb (truthy (dict_get data "seedNodes" (PyList [])))
             then Fails (Builtin (ValueError
                            "No seed sources configured in project.config.yaml"))
             else
               and_then
                 (slice5_upper upper (dict_get data "name" (PyStr (lit "UNKNOWN"))))
                 (fun default_ticker =>
                    Returns
                      {| l_name := dict_get data "name" PyNone;
                         l_ticker := dict_get data "ticker" default_ticker;
                         l_p2p_port := dict_get data "p2pPort" PyNone;
                         l_rpc_port :=
                           dict_get data "rpcPort" (dict_get data "p2pPort" PyNone);
                         l_protocol_version := dict_get data "protocolVersion" PyNone;
                         l_magic_bytes := magic_bytes;
                         l_dns_seeds := dict_get data "dnsSeeds" (PyList []);
                         l_seed_nodes := dict_get data "seedNodes" (PyList []);
                         l_current_version :=
                           dict_get data "currentVersion" (PyStr (lit "0.0.0"));
                         l_minimum_version :=
                           dict_get data "minimumVersion" (PyStr (lit "0.0.0"));
                         l_user_agent_pattern := user_agent_pattern |}))
    end.
Proof.
  intros Hall. apply missing_nil in Hall.
  unfold load_chain_config_from_yaml. cbv zeta.
  rewrite Hall. rewrite bool_decide_eq_true_2 by reflexivity. reflexivity.
Qed.

Lemma load_chain_missing project_config :
  ~ (forall f, In f required_fields -> section project_config !! f <> None) ->
  load_chain_config_from_yaml upper (Some project_config)
  = Fails (Builtin (ValueError
             "Missing required chainConfig fields in project.config.yaml")).
Proof.
  intros Hnot. rewrite <- missing_nil in Hnot.
  unfold load_chain_config_from_yaml. cbv zeta.
  rewrite bool_decide_eq_false_2 by exact Hnot. reflexivity.
Qed.

Lemma required_dec project_config :
  (forall f, In f required_fields -> section project_config !! f <> None)
  \/ (exists f, In f required_fields /\ section project_config !! f = None).
Proof.
  unfold required_fields.
  destruct (section project_config !! "name"%string) eqn:E1;
    [|right; exists "name"%string; cbn; tauto].
  destruct (section project_config !! "magicBytes"%string) eqn:E2;
    [|right; exists "magicBytes"%string; cbn; tauto].
  destruct (section project_config !! "p2pPort"%string) eqn:E3;
    [|right; exists "p2pPort"%string; cbn; tauto].
  destruct (section project_config !! "protocolVersion"%string) eqn:E4;
    [|right; exists "protocolVersion"%string; cbn; tauto].
  left. intros f [<-|[<-|[<-|[<-|[]]]]]; congruence.
Qed.

Lemma getitem0_fails v e :
  getitem0 v = Fails e -> e = Builtin IndexError \/ e = KeyError \/ e = TypeError.
Proof.
  destruct v as [| | | |[|c s]|[|x l]|d]; cbn [getitem0]; intros H;
    try (injection H as <-; tauto); try discriminate.
  destruct (find _ d); [discriminate | injection H as <-; tauto].
Qed.

Lemma slice5_upper_fails v e :
  slice5_upper upper v = Fails e -> e = AttributeError \/ e = TypeError.
Proof.
  destruct v; cbn [slice5_upper]; intros H; try (injection H as <-; tauto); discriminate.
Qed.

(** After the magic is read, the failures that remain are those of
    [v[0]], of the seed check and of [v[:5].upper()]. *)
Ltac later_failure :=
  destruct (truthy _);
  [ destruct (getitem0 _) as [p|e1] eqn:G; cbn [and_then];
    [| let H := fresh in
       intros H; injection H as ->; apply getitem0_fails in G;
       destruct G as [G|[G|G]]; discriminate G ]
  | cbn [and_then] ];
  (destruct (negb _ && negb _); [discriminate|]);
  (destruct (slice5_upper _ _) as [t|e2] eqn:S; cbn [and_then];
   [ discriminate
   | let H := fresh in
     intros H; injection H as ->; apply slice5_upper_fails in S;
     destruct S as [S|S]; discriminate S ]).

(** X23.  The first two checks of the chain loader.  It fails with
    "Missing required chainConfig fields" exactly when one of name,
    magicBytes, p2pPort, protocolVersion is not a key of the chainConfig
    section (a key with a null value counts as present); and with "Invalid
    magicBytes" exactly when the four keys are there and magicBytes is not
    a string that [bytes.fromhex] turns into exactly four bytes: a value
    that is no string (an unquoted number, say), text that is not hex, and
    the hex of three or five bytes are all reported this way. *)
Theorem chain_config_checks project_config :
  (load_chain_config_from_yaml upper (Some project_config)
   = Fails (Builtin (ValueError
              "Missing required chainConfig fields in project.config.yaml"))
   <-> exists f, In f required_fields /\ section project_config !! f = None)
  /\ (load_chain_config_from_yaml upper (Some project_config)
      = Fails (Builtin (ValueError "Invalid magicBytes in project.config.yaml"))
      <-> (forall f, In f required_fields -> section project_config !! f <> None)
          /\ ~ (exists s b,
                   section project_config !! "magicBytes"%string = Some (PyStr s)
                   /\ fromhex s = Some b /\ length b = 4%nat)).
Proof.
  destruct (required_dec project_config) as [Hall | Hmiss].
  - rewrite (load_chain_present _ Hall). cbv zeta.
    assert (Hm : section project_config !! "magicBytes"%string <> None)
      by (apply Hall; cbn; tauto).
    destruct (section project_config !! "magicBytes"%string) as [v|] eqn:Ev; [|congruence].
    assert (Hd : dict_get (section project_config) "magicBytes" PyNone = v)
      by (unfold dict_get; rewrite Ev; reflexivity).
    rewrite !Hd. clear Hd.
    split.
    + split.
      * intros H. exfalso. revert H.
        destruct v as [| | | |s| |]; cbv beta iota; try discriminate.
        destruct (fromhex s) as [b|]; cbv beta iota; [|discriminate].
        destruct (negb (length b =? 4)%nat); cbv beta iota; [discriminate|].
        later_failure.
      * intros (f & Hf & Hn). exfalso. exact (Hall f Hf Hn).
    + split.
      * intros H. split; [exact Hall|]. intros (s & b & Hs & Hb & Hl).
        apply Some_inj in Hs. subst v. cbv beta iota in H. rewrite Hb in H.
        cbv beta iota in H. rewrite Hl in H. cbn [Nat.eqb negb] in H.
        revert H.
        later_failure.
      * intros [_ Hno].
        destruct v as [| | | |s| |]; cbv beta iota; try reflexivity.
        destruct (fromhex s) as [b|] eqn:Eb; cbv beta iota; [|reflexivity].
        destruct (Nat.eqb_spec (length b) 4) as [Hl|Hl]; cbn [negb]; [|reflexivity].
        exfalso. apply Hno. exists s, b. auto.
  - assert (Hnot : ~ (forall f, In f required_fields ->
                                section project_config !! f <> None)).
    { intros Hall. destruct Hmiss as (f & Hf & Hn). exact (Hall f Hf Hn). }
    rewrite (load_chain_missing _ Hnot). split.
    + split; [intros _; exact Hmiss | reflexivity].
    + split; [discriminate | intros [Hall _]; contradiction].
Qed.

(** The magic of a loaded chain configuration. *)
Lemma loaded_magic project_config c :
  load_chain_config_from_yaml upper (Some project_config) = Returns c ->
  length (l_magic_bytes c) = 4%nat
  /\ exists s, section project_config !! "magicBytes"%string = Some (PyStr s)
               /\ fromhex s = Some (l_magic_bytes c).
Proof.
  intros Hload.
  destruct (required_dec project_config) as [Hall | Hmiss].
  2:{ rewrite load_chain_missing in Hload; [discriminate|].
      intros Hall. destruct Hmiss as (f & Hf & Hn). exact (Hall f Hf Hn). }
  rewrite (load_chain_present _ Hall) in Hload. cbv zeta in Hload.
  assert (Hmb : section project_config !! "magicBytes"%string <> None)
    by (apply Hall; cbn; tauto).
  destruct (section project_config !! "magicBytes"%string) as [mv|] eqn:Emb; [|congruence].
  assert (Hd : dict_get (section project_config) "magicBytes" PyNone = mv)
    by (unfold dict_get; rewrite Emb; reflexivity).
  rewrite Hd in Hload. clear Hd. revert Hload.
  destruct mv as [| | | |s| |]; cbv beta iota; try discriminate.
  destruct (fromhex s) as [b|] eqn:Eb; cbv beta iota; [|discriminate].
  destruct (Nat.eqb_spec (length b) 4) as [Hl|Hl]; cbn [negb]; [|discriminate].
  destruct (if truthy _ then _ else _) as [p|]; cbn [and_then]; [|discriminate].
  destruct (negb _ && negb _); [discriminate|].
  destruct (slice5_upper _ _) as [t|]; cbn [and_then]; [|discriminate].
  intros H. injection H as <-. cbn [l_magic_bytes].
  split; [exact Hl|]. exists s. split; [reflexivity | exact Eb].
Qed.

(** X24.  What a loaded chain configuration holds.  When the chain loader
    returns, the magic has exactly four bytes, those that [bytes.fromhex]
    reads from the magicBytes string; name is a string, and the ticker is
    the YAML ticker or else the first five characters of the name in upper
    case; p2pPort and protocolVersion are the YAML values and rpcPort
    falls back on p2pPort; at least one of dnsSeeds and seedNodes is not
    empty; and without userAgentPatterns the pattern is
    "/(<name>):([0-9.]+)/".  In particular a name that is not a string (a
    number, say) makes the loader fail even when a ticker is given. *)
Theorem chain_config_loaded project_config c :
  load_chain_config_from_yaml upper (Some project_config) = Returns c ->
  let data := section project_config in
  length (l_magic_bytes c) = 4%nat
  /\ (exists s, data !! "magicBytes"%string = Some (PyStr s)
                /\ fromhex s = Some (l_magic_bytes c))
  /\ (exists nm,
         data !! "name"%string = Some (PyStr nm)
         /\ l_name c = PyStr nm
         /\ l_ticker c = match data !! "ticker"%string with
                         | Some t => t
                         | None => PyStr (upper (firstn 5 nm))
                         end
         /\ (truthy (dict_get data "userAgentPatterns" (PyList [])) = false ->
             l_user_agent_pattern c = PyStr (lit "/(" ++ nm ++ lit "):([0-9.]+)/")))
  /\ (exists port,
         data !! "p2pPort"%string = Some port
         /\ l_p2p_port c = port
         /\ l_rpc_port c = match data !! "rpcPort"%string with
                           | Some p => p
                           | None => port
                           end)
  /\ data !! "protocolVersion"%string = Some (l_protocol_version c)
  /\ (truthy (l_dns_seeds c) = true \/ truthy (l_seed_nodes c) = true).
Proof.
  intros Hload data.
  destruct (required_dec project_config) as [Hall | Hmiss].
  2:{ rewrite load_chain_missing in Hload; [discriminate|].
      intros Hall. destruct Hmiss as (f & Hf & Hn). exact (Hall f Hf Hn). }
  rewrite (load_chain_present _ Hall) in Hload. cbv zeta in Hload. fold data in Hload.
  assert (Hname : data !! "name"%string <> None) by (apply Hall; cbn; tauto).
  assert (Hport : data !! "p2pPort"%string <> None) by (apply Hall; cbn; tauto).
  assert (Hpv : data !! "protocolVersion"%string <> None) by (apply Hall; cbn; tauto).
  assert (Hmb : data !! "magicBytes"%string <> None) by (apply Hall; cbn; tauto).
  unfold dict_get in Hload.
  destruct (data !! "magicBytes"%string) as [mv|] eqn:Emb; [|congruence].
  destruct (data !! "name"%string) as [nv|] eqn:Enm; [|congruence].
  destruct (data !! "p2pPort"%string) as [port|] eqn:Eport; [|congruence].
  destruct (data !! "protocolVersion"%string) as [pv|] eqn:Epv; [|congruence].
  cbn [default id] in Hload.
  destruct mv as [| | | |s| |]; try discriminate.
  destruct (fromhex s) as [b|] eqn:Eb; [|discriminate].
  destruct (Nat.eqb_spec (length b) 4) as [Hl|Hl]; cbn [negb] in Hload; [|discriminate].
  destruct (truthy (default (PyList []) (data !! "userAgentPatterns"%string))) eqn:Eua.
  - destruct (getitem0 _) as [p|]; cbn [and_then] in Hload; [|discriminate].
    destruct (negb (truthy (default (PyList []) (data !! "dnsSeeds"%string)))
              && negb (truthy (default (PyList []) (data !! "seedNodes"%string)))) eqn:Es;
      [discriminate|].
    destruct nv as [| | | |nm| |]; cbn [slice5_upper and_then] in Hload; try discriminate.
    injection Hload as <-. cbn.
    split; [exact Hl|]. split; [eauto|]. split.
    { exists nm. split; [reflexivity|]. split; [reflexivity|]. split.
      - destruct (data !! "ticker"%string); reflexivity.
      - unfold dict_get. rewrite Eua. discriminate. }
    split.
    { exists port. split; [reflexivity|]. split; [reflexivity|].
      destruct (data !! "rpcPort"%string); reflexivity. }
    split; [reflexivity|].
    apply andb_false_iff in Es. rewrite !negb_false_iff in Es. exact Es.
  - cbn [and_then] in Hload.
    destruct (negb (truthy (default (PyList []) (data !! "dnsSeeds"%string)))
              && negb (truthy (default (PyList []) (data !! "seedNodes"%string)))) eqn:Es;
      [discriminate|].
    destruct nv as [| | | |nm| |]; cbn [slice5_upper and_then] in Hload; try discriminate.
    injection Hload as <-. cbn.
    split; [exact Hl|]. split; [eauto|]. split.
    { exists nm. split; [reflexivity|]. split; [reflexivity|]. split.
      - destruct (data !! "ticker"%string); reflexivity.
      - reflexivity. }
    split.
    { exists port. split; [reflexivity|]. split; [reflexivity|].
      destruct (data !! "rpcPort"%string); reflexivity. }
    split; [reflexivity|].
    apply andb_false_iff in Es. rewrite !negb_false_iff in Es. exact Es.
Qed.

Lemma hex_value_digit v :
  0 <= v < 16 -> hex_value (hex_digit v) = Some v /\ is_hex_space (hex_digit v) = false.
Proof.
  intros H. unfold hex_digit, hex_value, is_hex_space.
  destruct (Z.ltb_spec v 10).
  - destruct (Z.leb_spec 48 (48 + v)); [|lia].
    destruct (Z.leb_spec (48 + v) 57); [|lia]. cbn [andb].
    split; [f_equal; lia|].
    destruct (Z.eqb_spec (48 + v) 32); [lia|].
    destruct (Z.leb_spec (48 + v) 13); [lia|]. rewrite andb_false_r. reflexivity.
  - destruct (Z.leb_spec (87 + v) 57); [lia|]. rewrite andb_false_r.
    destruct (Z.leb_spec 97 (87 + v)); [|lia].
    destruct (Z.leb_spec (87 + v) 102); [|lia]. cbn [andb].
    split; [f_equal; lia|].
    destruct (Z.eqb_spec (87 + v) 32); [lia|].
    destruct (Z.leb_spec (87 + v) 13); [lia|]. rewrite andb_false_r. reflexivity.
Qed.

(** [bytes.fromhex(b.hex()) == b] *)
Lemma fromhex_hex b : fromhex (hex b) = Some b.
Proof.
  induction b as [|x b IH]; [reflexivity|].
  pose proof (byte_unsigned_range x) as R.
  assert (Hhi : 0 <= byte.unsigned x / 16 < 16)
    by (split; [apply Z.div_pos; lia | apply Z.div_lt_upper_bound; lia]).
  assert (Hlo : 0 <= byte.unsigned x mod 16 < 16) by (apply Z.mod_pos_bound; lia).
  destruct (hex_value_digit _ Hhi) as [V1 S1].
  destruct (hex_value_digit _ Hlo) as [V2 _].
  unfold hex in *. cbn [flat_map app fromhex].
  rewrite S1, V1, V2, IH. cbn [option_map]. f_equal. f_equal.
  rewrite <- (byte_of_Z_unsigned x) at 3. f_equal.
  pose proof (Z.div_mod (byte.unsigned x) 16 ltac:(lia)). lia.
Qed.

(** X25.  From the YAML text to the wire.  When magicBytes is the hex text
    of some bytes (as [bytes.hex] writes it) and the chain loader returns,
    its magic is exactly these bytes, there are four of them, and frames
    built with it are read back with it: for an ASCII command of at most
    12 characters that does not end in NUL and a payload below 2^32
    bytes, [parse_message] returns the command, the payload and whatever
    followed the frame. *)
Theorem loaded_magic_frames project_config c magic command payload rest :
  section project_config !! "magicBytes"%string = Some (PyStr (hex magic)) ->
  load_chain_config_from_yaml upper (Some project_config) = Returns c ->
  ascii_str command ->
  (length command <= 12)%nat ->
  List.last command 1 <> 0 ->
  len payload < 2 ^ 32 ->
  l_magic_bytes c = magic
  /\ length magic = 4%nat
  /\ exists msg,
       create_message (l_magic_bytes c) command payload = Ok msg
       /\ parse_message (msg ++ rest) (l_magic_bytes c) = Ok (command, payload, rest).
Proof.
  intros Hm Hload Ha Hl Hlast Hp.
  destruct (loaded_magic _ _ Hload) as (L & s & Hs & Hb).
  rewrite Hm in Hs. apply Some_inj in Hs. injection Hs as <-.
  rewrite fromhex_hex in Hb. apply Some_inj in Hb. subst magic.
  split; [reflexivity|]. split; [exact L|].
  now apply parse_create_message.
Qed.

End Chain.

Lemma chain_config_checks_witness :
  load_chain_config_from_yaml (fun s => s) (Some (∅ : @document Binary64))
  = Fails (Builtin (ValueError
             "Missing required chainConfig fields in project.config.yaml")).
Proof.
  apply (proj1 (chain_config_checks (fun s => s) ∅)).
  exists "name"%string. split; [cbn; tauto | reflexivity].
Defined.

Lemma chain_config_loaded_witness :
  exists c,
    load_chain_config_from_yaml (fun s => s) (Some example_document) = Returns c
    /\ length (l_magic_bytes c) = 4%nat
    /\ l_rpc_port c = PyInt 8333.
Proof.
  evaluated (load_chain_config_from_yaml (fun s => s) (Some example_document)).
  match type of E with _ = Returns ?c => exists c end.
  split; [exact E|].
  split.
  - exact (proj1 (chain_config_loaded (fun s => s) example_document _ E)).
  - reflexivity.
Defined.

Lemma loaded_magic_frames_witness :
  exists c msg,
    load_chain_config_from_yaml (fun s => s) (Some example_document) = Returns c
    /\ l_magic_bytes c = [Byte.xf9; Byte.xbe; Byte.xb4; Byte.xd9]
    /\ create_message (l_magic_bytes c) (lit "getaddr") [] = Ok msg
    /\ parse_message (msg ++ [Byte.x00]) (l_magic_bytes c)
       = Ok (lit "getaddr", [], [Byte.x00]).
Proof.
  evaluated (load_chain_config_from_yaml (fun s => s) (Some example_document)).
  evaluated (default (∅ : gmap string (@pyval Binary64))
                     (example_document !! "chainConfig"%string) !! "magicBytes"%string).
  match type of E with _ = Returns ?c => exists c end.
  destruct (loaded_magic_frames (fun s => s) example_document _
              [Byte.xf9; Byte.xbe; Byte.xb4; Byte.xd9] (lit "getaddr") [] [Byte.x00]
              E0 E) as (Hm & _ & msg & Hc & Hp).
  - ascii_literal.
  - simpl. lia.
  - vm_compute. discriminate.
  - vm_compute. reflexivity.
  - exists msg. split; [exact E|]. split; [exact Hm|]. split; [exact Hc | exact Hp].
Defined.

End ConfigFilesProps.
(* ===================================================================== *)
(** ** The GeoIP database downloader *)
(* ===================================================================== *)

Section PathProps.
Import PurePath.

Lemma split_sep_nonempty s : split_sep s <> [].
Proof.
  destruct s as [|c tl]; cbn [split_sep]; [discriminate|].
  destruct (c =? SEP); [discriminate|]. destruct (split_sep tl); discriminate.
Qed.

(** [(a + "/" + b).split("/") == a.split("/") + b.split("/")] *)
Lemma split_sep_app a b :
  split_sep (a ++ SEP :: b) = split_sep a ++ split_sep b.
Proof.
  induction a as [|c a IH]; cbn [app split_sep].
  - rewrite Z.eqb_refl. reflexivity.
  - destruct (c =? SEP); [rewrite IH; reflexivity|].
    rewrite IH. pose proof (split_sep_nonempty a).
    destruct (split_sep a); [congruence | reflexivity].
Qed.

Lemma split_sep_single s : ~ In SEP s -> split_sep s = [s].
Proof.
  induction s as [|c s IH]; intros H; [reflexivity|].
  cbn [split_sep]. destruct (Z.eqb_spec c SEP) as [->|_]; [exfalso; apply H; left; reflexivity|].
  rewrite IH; [reflexivity|]. intros Hin. apply H. right. exact Hin.
Qed.

Lemma lstrip_sep_app a b :
  (exists c, In c a /\ c <> SEP) -> lstrip_sep (a ++ b) = lstrip_sep a ++ b.
Proof.
  induction a as [|x a IH]; intros (c & Hc & Hne); [destruct Hc|].
  cbn [app lstrip_sep]. destruct (Z.eqb_spec x SEP) as [->|_]; [|reflexivity].
  apply IH. destruct Hc as [<-|Hc]; [congruence|]. eauto.
Qed.

Lemma splitroot_app a b :
  (exists c, In c a /\ c <> SEP) ->
  splitroot (a ++ b) = (fst (splitroot a), snd (splitroot a) ++ b).
Proof.
  intros Ha. unfold splitroot.
  destruct a as [|x a]; [destruct Ha as (c & [] & _)|].
  cbn [app]. destruct (x =? SEP); [|reflexivity].
  change (x :: a ++ b) with ((x :: a) ++ b). rewrite (lstrip_sep_app _ b Ha).
  rewrite !length_app.
  assert (Hle : (length (lstrip_sep (x :: a)) <= length (x :: a))%nat).
  { clear. generalize (x :: a). intros l. induction l as [|y l IH]; cbn [lstrip_sep]; [lia|].
    destruct (y =? SEP); simpl; lia. }
  replace (length (x :: a) + length b - (length (lstrip_sep (x :: a)) + length b))%nat
    with (length (x :: a) - length (lstrip_sep (x :: a)))%nat by lia.
  destruct (_ =? 2)%nat; reflexivity.
Qed.

Lemma rfind_dot_last a ext : forall i found,
  ~ In DOT ext -> rfind_dot i (a ++ DOT :: ext) found = Some (i + length a)%nat.
Proof.
  assert (Hext : forall ext i found, ~ In DOT ext -> rfind_dot i ext found = found).
  { clear. induction ext as [|c ext IH]; intros i found H; [reflexivity|].
    cbn [rfind_dot]. destruct (Z.eqb_spec c DOT) as [->|_];
      [exfalso; apply H; left; reflexivity|].
    apply IH. intros Hin. apply H. right. exact Hin. }
  induction a as [|c a IH]; intros i found H; cbn [app rfind_dot length].
  - rewrite Z.eqb_refl, Hext by exact H. f_equal. lia.
  - rewrite IH by exact H. f_equal. lia.
Qed.

(** The path [dir/edition.ext]: its stem is [edition] and its parent the
    path of [dir]. *)
Lemma path_of_file dir edition ext :
  (exists c, In c dir /\ c <> SEP) ->
  edition <> [] -> ~ In SEP edition ->
  ext <> [] -> ~ In SEP ext -> ~ In DOT ext ->
  let p := Path (dir ++ SEP :: edition ++ DOT :: ext) in
  stem p = edition /\ to_str (parent p) = to_str (Path dir).
Proof.
  intros Hdir He Hes Hx Hxs Hxd p.
  set (file := edition ++ DOT :: ext).
  assert (Hfs : ~ In SEP file).
  { unfold file. intros H. apply in_app_or in H as [H|[H|H]]; [tauto | discriminate | tauto]. }
  assert (Hpart : is_part file = true).
  { unfold file. destruct edition as [|e1 [|e2 edition]]; [congruence | |reflexivity].
    destruct ext; [congruence | reflexivity]. }
  assert (Hp : p = {| p_root := p_root (Path dir);
                      p_parts := p_parts (Path dir) ++ [file] |}).
  { unfold p, Path. fold file. rewrite (splitroot_app dir (SEP :: file) Hdir).
    destruct (splitroot dir) as [root rel]. cbn [fst snd p_root p_parts].
    rewrite split_sep_app, (split_sep_single file) by exact Hfs.
    rewrite filter_app. cbn [filter]. rewrite Hpart. reflexivity. }
  rewrite Hp. split.
  - unfold stem, name. cbn [p_parts]. rewrite last_last. unfold file.
    rewrite rfind_dot_last by exact Hxd. cbn [Nat.add].
    rewrite length_app. cbn [length].
    destruct (Nat.ltb_spec 0 (length edition)) as [_|H0];
      [|destruct edition; [congruence | simpl in H0; lia]].
    destruct (Nat.ltb_spec (length edition) (length edition + S (length ext) - 1)) as [_|H1];
      [|destruct ext; [congruence | simpl in H1; lia]].
    cbn [andb]. rewrite firstn_app, firstn_all, Nat.sub_diag. cbn [firstn].
    apply app_nil_r.
  - unfold parent, to_str. cbn [p_root p_parts]. rewrite removelast_last. reflexivity.
Qed.

End PathProps.

Module DownloadProps.
Import stdpp.base stdpp.gmap stdpp.strings.
Import PurePath GeoIPDownload.
Local Open Scope Z_scope.

Section WithWorld.
Variable path_exists : str -> bool.
Variable env : gmap string str.
Variable download_database : nat -> call -> option str.

(** X27.  What [ensure_database] does.  When the file exists it returns
    [True] without looking at any credentials and without a download.
    When it does not exist and the account id or the licence key is
    missing (each taken from the argument, or from MAXMIND_ACCOUNT_ID /
    MAXMIND_LICENSE_KEY when the argument is [None] or empty), it returns
    [False], again without a download.  Otherwise it makes exactly one call
    of [download_database]; for a path "dir/edition.ext" the edition asked
    for is the file name without its last suffix and the output directory
    is the directory of the file, and the result is whether that call
    returned a path (whatever the path, and whatever [ext] is). *)
Theorem ensure_database_outcome db_path account_id license_key :
  let account := or_else account_id (env !! "MAXMIND_ACCOUNT_ID"%string) in
  let key := or_else license_key (env !! "MAXMIND_LICENSE_KEY"%string) in
  let r := ensure_database path_exists env download_database db_path
                           account_id license_key in
  (path_exists db_path = true -> r = (true, []))
  /\ (path_exists db_path = false ->
      nonempty account = None \/ nonempty key = None -> r = (false, []))
  /\ (forall a k dir edition ext,
         path_exists db_path = false ->
         nonempty account = Some a -> nonempty key = Some k ->
         db_path = dir ++ SEP :: edition ++ DOT :: ext ->
         (exists c, In c dir /\ c <> SEP) ->
         edition <> [] -> ~ In SEP edition ->
         ext <> [] -> ~ In SEP ext -> ~ In DOT ext ->
         let c := {| c_account_id := a; c_license_key := k;
                     c_edition := edition; c_output_dir := to_str (Path dir) |} in
         r = (match download_database 0 c with Some _ => true | None => false end, [c])).
Proof.
  intros account key r. unfold r, ensure_database. fold account key.
  split; [|split].
  - intros ->. reflexivity.
  - intros -> [H|H]; rewrite H; [reflexivity|].
    destruct (nonempty account); reflexivity.
  - intros a k dir edition ext Hex Ha Hk Hdb Hdir He Hes Hx Hxs Hxd. cbv zeta.
    rewrite Hex, Ha, Hk, Hdb.
    destruct (path_of_file dir edition ext Hdir He Hes Hx Hxs Hxd) as [Hstem Hparent].
    cbv zeta in Hstem, Hparent. rewrite Hstem, Hparent. reflexivity.
Qed.

Lemma results_set_new (results : list (str * option str)) edition path :
  ~ In edition (map fst results) ->
  results_set results edition path = results ++ [(edition, path)].
Proof.
  induction results as [|[k v] results IH]; intros H; [reflexivity|].
  cbn [results_set app]. destruct (GeoIP.str_eqb k edition) eqn:E.
  - exfalso. apply H. left. now apply str_eqb_eq in E.
  - rewrite IH; [reflexivity|]. intros Hin. apply H. right. exact Hin.
Qed.

Lemma download_loop_spec account_id license_key output_dir editions :
  forall n results calls,
    List.NoDup editions ->
    (forall ed, In ed editions -> ~ In ed (map fst results)) ->
    let call_of ed := {| c_account_id := account_id; c_license_key := license_key;
                         c_edition := ed; c_output_dir := output_dir |} in
    download_loop download_database account_id license_key output_dir editions
                  n results calls
    = (results ++ map (fun '(i, ed) => (ed, download_database i (call_of ed)))
                      (combine (seq n (length editions)) editions),
       calls ++ map call_of editions).
Proof.
  induction editions as [|ed editions IH]; intros n results calls Hnd Hfresh call_of.
  - cbn. rewrite !app_nil_r. reflexivity.
  - cbn [download_loop length seq combine map]. fold call_of.
    rewrite results_set_new by (apply Hfresh; left; reflexivity).
    inversion Hnd as [|? ? Hnotin Hnd']; subst.
    rewrite IH.
    + fold call_of. rewrite <- !app_assoc. reflexivity.
    + exact Hnd'.
    + intros ed' Hin. rewrite map_app, in_app_iff. cbn [map fst In].
      intros [H|[H|[]]]; [exact (Hfresh ed' (or_intror Hin) H)|].
      apply Hnotin. rewrite H. exact Hin.
Qed.

(** X28.  What [download_all_databases] does.  For a list of distinct
    editions it calls [download_database] once per edition, in the order of
    the list and always with the same account, key and output directory,
    and returns a dict with one entry per edition, in that order, holding
    what the call for that edition returned; a download that fails ([None])
    does not stop the others.  Without a list ([None]) the editions are
    GeoLite2-City, GeoLite2-Country and GeoLite2-ASN; an empty list
    downloads nothing. *)
Theorem download_all_outcome account_id license_key output_dir editions :
  let l := match editions with None => EDITIONS | Some l => l end in
  let call_of ed := {| c_account_id := account_id; c_license_key := license_key;
                       c_edition := ed; c_output_dir := output_dir |} in
  List.NoDup l ->
  download_all_databases download_database account_id license_key output_dir editions
  = (map (fun '(i, ed) => (ed, download_database i (call_of ed)))
         (combine (seq 0 (length l)) l),
     map call_of l).
Proof.
  intros l call_of Hnd. unfold download_all_databases. fold l.
  rewrite download_loop_spec; [reflexivity | exact Hnd | intros ed _ []].
Qed.

End WithWorld.

Lemma ensure_database_outcome_witness :
  ensure_database (fun _ => false) ∅ (fun _ _ => None)
                  (lit "/data" ++ SEP :: lit "GeoLite2-City" ++ DOT :: lit "mmdb")
                  (Some (lit "42")) (Some (lit "key"))
  = (false,
     [{| c_account_id := lit "42"; c_license_key := lit "key";
         c_edition := lit "GeoLite2-City";
         c_output_dir := to_str (Path (lit "/data")) |}]).
Proof.
  refine (proj2 (proj2 (ensure_database_outcome (fun _ => false) ∅ (fun _ _ => None)
                          (lit "/data" ++ SEP :: lit "GeoLite2-City" ++ DOT :: lit "mmdb")
                          (Some (lit "42")) (Some (lit "key"))))
                (lit "42") (lit "key") (lit "/data") (lit "GeoLite2-City") (lit "mmdb")
                eq_refl eq_refl eq_refl eq_refl _ _ _ _ _ _).
  - exists 100. split; [vm_compute; tauto | vm_compute; discriminate].
  - vm_compute. discriminate.
  - vm_compute. intuition discriminate.
  - vm_compute. discriminate.
  - vm_compute. intuition discriminate.
  - vm_compute. intuition discriminate.
Defined.

Lemma download_all_outcome_witness :
  download_all_databases (fun n _ => if (n =? 1)%nat then None else Some (lit "p"))
                         (lit "42") (lit "key") (lit "./data/geoip") None
  = (map (fun '(i, ed) =>
            (ed, if (i =? 1)%nat then None else Some (lit "p")))
         (combine (seq 0 3) EDITIONS),
     map (fun ed => {| c_account_id := lit "42"; c_license_key := lit "key";
                       c_edition := ed; c_output_dir := lit "./data/geoip" |})
         EDITIONS).
Proof.
  apply (download_all_outcome
           (fun n _ => if (n =? 1)%nat then None else Some (lit "p"))
           (lit "42") (lit "key") (lit "./data/geoip") None).
  unfold EDITIONS.
  repeat (constructor; [vm_compute; intuition discriminate|]). constructor.
Defined.

End DownloadProps.

